(** * dnscrypt-proxy: the upstream-server pool and the plugin pipeline

    A shallow embedding of [dnscrypt/serversInfo.go] and
    [dnscrypt/plugins.go], and the properties of the registry, the
    refresh cycle, the latency estimator, the relay resolver, the DoH
    probe and the plugin stages.

    Conventions of the embedding.
    - Go [int], [time.Duration] and [time.Time] are integers ([Z]); a
      [time.Time] is a number of nanoseconds.
    - Go [float64] is modelled by exact rationals ([Q]): the estimator
      only halves, doubles, quadruples and compares, which binary
      floating point does without rounding away from overflow.
    - A Go [error] is a value of [error]; the [nil] error is [None].
    - A function returning [(v, err)] whose [v] is the zero value on
      error returns a sum: [inl v] for [err == nil], [inr e] otherwise.
    - The network, the random source, the clock and the transport cache
      are a world [W] threaded through every call that touches them.
    - [dlog.Fatalf] ends the process ([Exits]); an index out of range or
      a nil dereference is a run-time panic ([Panics]).
    - The reader/writer locks are not modelled: every function runs alone. *)

From Stdlib Require Import List String Ascii ZArith QArith Lia Lqa Bool.
From Stdlib Require Import Strings.Byte.
From Stdlib Require Import Sorting.Sorted Sorting.Permutation.
Import ListNotations.

Local Open Scope string_scope.
Local Open Scope list_scope.
Local Open Scope Z_scope.

(** ** Outcomes and the world monad *)

Inductive outcome (A : Type) : Type :=
| Returns (a : A)
| Exits
| Panics.

Arguments Returns {A} a.
Arguments Exits {A}.
Arguments Panics {A}.

Definition M (W A : Type) : Type := W -> outcome (A * W).

Definition ret {W A : Type} (a : A) : M W A := fun w => Returns (a, w).

Definition bind {W A B : Type} (m : M W A) (k : A -> M W B) : M W B :=
  fun w =>
    match m w with
    | Returns (a, w') => k a w'
    | Exits => Exits
    | Panics => Panics
    end.

Definition lift {W A : Type} (f : W -> A * W) : M W A :=
  fun w => Returns (f w).

Definition fatal {W A : Type} : M W A := fun _ => Exits.

Definition panic {W A : Type} : M W A := fun _ => Panics.

Declare Scope world_scope.
Delimit Scope world_scope with world.
Notation "x <- m ;; k" := (bind m (fun x => k))
  (at level 61, m at next level, right associativity) : world_scope.
Notation "' p <- m ;; k" := (bind m (fun x => match x with p => k end))
  (at level 61, p pattern, m at next level, right associativity) : world_scope.

(** ** Bytes, errors and the external data types *)

Definition bytes : Type := list byte.

Fixpoint bytes_eqb (a b : bytes) : bool :=
  match a, b with
  | [], [] => true
  | x :: a', y :: b' => Byte.eqb x y && bytes_eqb a' b'
  | _, _ => false
  end.

Definition Duration : Type := Z.
Definition Time : Type := Z.
Definition IP : Type := bytes.

Definition Nanosecond : Duration := 1.
Definition Second : Duration := 1000000000.
Definition Minute : Duration := 60 * Second.

(** [errors.New] and [fmt.Errorf] values of the two files, one
    constructor per message, the formatted arguments as fields. *)
Inductive error : Type :=
| ErrUnsupportedProtocol
    (* "Unsupported protocol" *)
| ErrEmptyRelayList (name : string)
    (* "Route declared for [%v] but an empty relay list" *)
| ErrUndefinedRelay (relayName name : string)
    (* "Undefined relay [%v] for server [%v]" *)
| ErrInvalidRelay (relayName name : string)
    (* "Invalid relay [%v] for server [%v]" *)
| ErrTLSHandshakeFailed
    (* "TLS handshake failed" *)
| ErrCertificateHashNotFound (wantedHash : bytes) (name : string)
    (* "Certificate hash [%x] not found for [%s]" *)
| ErrUnexpectedResponse
    (* "Webserver returned an unexpected response" *)
| ErrUnexpectedNumberOfQuestions
    (* "Unexpected number of questions" *)
| ErrExternal (msg : string).
    (* an error made outside the two files *)

(** [stamps.StampProtoType] of go-dnsstamps. *)
Inductive StampProtoType : Type :=
| StampProtoTypePlain
| StampProtoTypeDNSCrypt
| StampProtoTypeDoH
| StampProtoTypeTLS
| StampProtoTypeDNSCryptRelay.

Definition StampProtoType_eqb (a b : StampProtoType) : bool :=
  match a, b with
  | StampProtoTypePlain, StampProtoTypePlain
  | StampProtoTypeDNSCrypt, StampProtoTypeDNSCrypt
  | StampProtoTypeDoH, StampProtoTypeDoH
  | StampProtoTypeTLS, StampProtoTypeTLS
  | StampProtoTypeDNSCryptRelay, StampProtoTypeDNSCryptRelay => true
  | _, _ => false
  end.

(** [stamps.ServerStamp]: the fields the two files read. *)
Record ServerStamp : Type := {
  ServerAddrStr : string;
  ServerPk : bytes;
  Hashes : list bytes;
  ProviderName : string;
  Path : string;
  Proto : StampProtoType
}.

Record UDPAddr : Type := { udp_IP : IP; udp_Port : Z }.
Record TCPAddr : Type := { tcp_IP : IP; tcp_Port : Z }.

Record URL : Type := { Scheme : string; Host : string; URLPath : string }.

Record Certificate : Type := {
  RawTBSCertificate : bytes;
  Subject : string
}.

(** [tls.ConnectionState] *)
Record ConnectionState : Type := {
  HandshakeComplete : bool;
  NegotiatedProtocol : string;
  PeerCertificates : list Certificate
}.

(** An [io.Reader] that yields [body_data] and then ends, with the end
    of the stream ([None]) or with a read error. *)
Record Body : Type := {
  body_data : bytes;
  body_err : option error
}.

(** [http.Response] *)
Record Response : Type := {
  TLS : option ConnectionState;
  RespBody : Body
}.

(** [ioutil.ReadAll(io.LimitReader(body, n))]: at most [n] bytes are
    read; the stream's own error is met only when it has fewer. *)
Definition ReadAllLimit (body : Body) (n : Z) : bytes + error :=
  if Z.of_nat (List.length (body_data body)) >=? n
  then inl (firstn (Z.to_nat n) (body_data body))
  else match body_err body with
       | None => inl (body_data body)
       | Some e => inr e
       end.

Record CertInfo : Type := {
  ci_ServerPk : bytes;
  ci_SharedKey : bytes;
  ci_MagicQuery : bytes;
  ci_CryptoConstruction : Z
}.

Record RegisteredServer : Type := {
  Name : string;
  Stamp : ServerStamp;
  Description : string
}.

(** [Proxy]: the fields read by [serversInfo.go]. *)
Record Proxy : Type := {
  Routes : option (string -> option (list string));
  RegisteredRelays : list RegisteredServer;
  RegisteredServers : list RegisteredServer;
  MainProto : string;
  Timeout : Duration;
  ShowCerts : bool
}.

(** ** The moving average (package [ewma])

    [ewma.MovingAverage] is an interface of an external library; the
    pool only calls its three methods and its constructor. *)

Class MovingAverage (MA : Type) : Type := {
  ewma_NewMovingAverage : Q -> MA;
  ewma_Add : MA -> Q -> MA;
  ewma_Value : MA -> Q;
  ewma_Set : MA -> Q -> MA
}.

(** The library's [VariableEWMA], the implementation that
    [ewma.NewMovingAverage(10.0)] returns: ten warm-up samples are
    summed, [Value] is [0] until then, and [Set] ends the warm-up. *)
Record VariableEWMA : Type := {
  ve_decay : Q;
  ve_value : Q;
  ve_count : Z
}.

Definition WARMUP_SAMPLES : Z := 10.

Definition VariableEWMA_Add (e : VariableEWMA) (value : Q) : VariableEWMA :=
  if ve_count e <? WARMUP_SAMPLES then
    {| ve_decay := ve_decay e;
       ve_value := (ve_value e + value)%Q;
       ve_count := ve_count e + 1 |}
  else if ve_count e =? WARMUP_SAMPLES then
    {| ve_decay := ve_decay e;
       ve_value := (value * ve_decay e
                    + (ve_value e / inject_Z WARMUP_SAMPLES) * (1 - ve_decay e))%Q;
       ve_count := ve_count e + 1 |}
  else
    {| ve_decay := ve_decay e;
       ve_value := (value * ve_decay e + ve_value e * (1 - ve_decay e))%Q;
       ve_count := ve_count e |}.

Definition VariableEWMA_Value (e : VariableEWMA) : Q :=
  if ve_count e <=? WARMUP_SAMPLES then 0%Q else ve_value e.

Definition VariableEWMA_Set (e : VariableEWMA) (value : Q) : VariableEWMA :=
  {| ve_decay := ve_decay e;
     ve_value := value;
     ve_count := if ve_count e <=? WARMUP_SAMPLES
                 then WARMUP_SAMPLES + 1 else ve_count e |}.

Definition VariableEWMA_New (age : Q) : VariableEWMA :=
  {| ve_decay := (2 / (age + 1))%Q; ve_value := 0%Q; ve_count := 0 |}.

#[export] Instance VariableEWMA_MovingAverage : MovingAverage VariableEWMA := {
  ewma_NewMovingAverage := VariableEWMA_New;
  ewma_Add := VariableEWMA_Add;
  ewma_Value := VariableEWMA_Value;
  ewma_Set := VariableEWMA_Set
}.

(** Modelled from the spec: the moving average as section 9 of the
    specification words it, [value <- (value*(N-1) + sample)/N] with
    [N = 10], a negative value standing for no measurement yet. The
    library itself is not part of the repository. *)
Record BrownEWMA : Type := { be_N : Q; be_value : Q }.

#[export] Instance BrownEWMA_MovingAverage : MovingAverage BrownEWMA := {
  ewma_NewMovingAverage := fun age => {| be_N := age; be_value := (-1)%Q |};
  ewma_Add := fun e sample =>
    {| be_N := be_N e;
       be_value := ((be_value e * (be_N e - 1) + sample) / be_N e)%Q |};
  ewma_Value := be_value;
  ewma_Set := fun e value => {| be_N := be_N e; be_value := value |}
}.

Definition Qlt_bool (x y : Q) : bool := negb (Qle_bool y x).

(** Modelled from the spec: [MinF] and [MaxF], the repository's numeric
    minimum and maximum on floats (section 2, shared utilities); they
    live in a file that is not part of the sources at hand. *)
Definition MinF (x y : Q) : Q := if Qlt_bool x y then x else y.
Definition MaxF (x y : Q) : Q := if Qlt_bool y x then x else y.

(** ** Servers and the pool *)

Definition RTTEwmaDecay : Q := 10%Q.

Record ServerInfo (MA : Type) : Type := {
  si_Proto : StampProtoType;
  MagicQuery : bytes;
  si_ServerPk : bytes;
  SharedKey : bytes;
  CryptoConstruction : Z;
  si_Name : string;
  si_Timeout : Duration;
  si_URL : option URL;
  HostName : string;
  UDPAddr_ : option UDPAddr;
  TCPAddr_ : option TCPAddr;
  RelayUDPAddr : option UDPAddr;
  RelayTCPAddr : option TCPAddr;
  lastActionTS : Time;
  rtt : option MA;
  initialRtt : Z;
  useGet : bool
}.

Arguments si_Proto {MA} _.
Arguments MagicQuery {MA} _.
Arguments si_ServerPk {MA} _.
Arguments SharedKey {MA} _.
Arguments CryptoConstruction {MA} _.
Arguments si_Name {MA} _.
Arguments si_Timeout {MA} _.
Arguments si_URL {MA} _.
Arguments HostName {MA} _.
Arguments UDPAddr_ {MA} _.
Arguments TCPAddr_ {MA} _.
Arguments RelayUDPAddr {MA} _.
Arguments RelayTCPAddr {MA} _.
Arguments lastActionTS {MA} _.
Arguments rtt {MA} _.
Arguments initialRtt {MA} _.
Arguments useGet {MA} _.

(** The zero value [ServerInfo{}]. *)
Definition ServerInfo_zero {MA : Type} : ServerInfo MA :=
  {| si_Proto := StampProtoTypePlain; MagicQuery := []; si_ServerPk := [];
     SharedKey := []; CryptoConstruction := 0; si_Name := "";
     si_Timeout := 0; si_URL := None; HostName := "";
     UDPAddr_ := None; TCPAddr_ := None;
     RelayUDPAddr := None; RelayTCPAddr := None;
     lastActionTS := 0; rtt := None; initialRtt := 0; useGet := false |}.

Definition with_rtt {MA : Type} (s : ServerInfo MA) (r : option MA)
  : ServerInfo MA :=
  {| si_Proto := si_Proto s; MagicQuery := MagicQuery s;
     si_ServerPk := si_ServerPk s; SharedKey := SharedKey s;
     CryptoConstruction := CryptoConstruction s; si_Name := si_Name s;
     si_Timeout := si_Timeout s; si_URL := si_URL s; HostName := HostName s;
     UDPAddr_ := UDPAddr_ s; TCPAddr_ := TCPAddr_ s;
     RelayUDPAddr := RelayUDPAddr s; RelayTCPAddr := RelayTCPAddr s;
     lastActionTS := lastActionTS s; rtt := r;
     initialRtt := initialRtt s; useGet := useGet s |}.

Inductive LBStrategy : Type :=
| LBStrategyNone
| LBStrategyP2
| LBStrategyPH
| LBStrategyFirst
| LBStrategyRandom.

Definition DefaultLBStrategy : LBStrategy := LBStrategyP2.

Record ServersInfo (MA : Type) : Type := {
  inner : list (ServerInfo MA);
  registeredServers : list RegisteredServer;
  LBStrategy_ : LBStrategy;
  LBEstimator : bool
}.

Arguments inner {MA} _.
Arguments registeredServers {MA} _.
Arguments LBStrategy_ {MA} _.
Arguments LBEstimator {MA} _.

Definition NewServersInfo {MA : Type} : ServersInfo MA :=
  {| inner := []; registeredServers := [];
     LBStrategy_ := DefaultLBStrategy; LBEstimator := true |}.

Definition with_inner {MA : Type} (s : ServersInfo MA)
  (l : list (ServerInfo MA)) : ServersInfo MA :=
  {| inner := l; registeredServers := registeredServers s;
     LBStrategy_ := LBStrategy_ s; LBEstimator := LBEstimator s |}.

Definition with_registeredServers {MA : Type} (s : ServersInfo MA)
  (l : list RegisteredServer) : ServersInfo MA :=
  {| inner := inner s; registeredServers := l;
     LBStrategy_ := LBStrategy_ s; LBEstimator := LBEstimator s |}.

(** ** What the two files call and do not define

    The constants of the packet sizes, the stamp parser, the resolver,
    the random source, the clock, the hash, the transport and the
    certificate fetch. Those that reach the network, the random source
    or the clock take the world and give it back. *)

Record Externals (W : Type) : Type := {
  MinDNSPacketSize : Z;
  MaxDNSPacketSize : Z;
  MaxHTTPBodyLength : Z;
  stamps_NewServerStampFromString : string -> ServerStamp + error;
  net_ResolveUDPAddr : string -> W -> (UDPAddr + error) * W;
  net_ResolveTCPAddr : string -> W -> (TCPAddr + error) * W;
  rand_draw : W -> nat * W;
  time_Now : W -> Time * W;
  sha256_Sum256 : bytes -> bytes;
  ExtractHostAndPort : string -> Z -> string * Z;
  ParseIP : string -> option IP;
  saveCachedIP : string -> IP -> Duration -> W -> W;
  DoHQuery : bool -> URL -> bytes -> Duration -> W
             -> ((Response * Duration) + error) * W;
  FetchCurrentDNSCryptCert :
    Proxy -> string -> string -> bytes -> string -> string -> bool
    -> option UDPAddr -> option TCPAddr -> W
    -> ((CertInfo * Z) + error) * W
}.

Arguments MinDNSPacketSize {W} _.
Arguments MaxDNSPacketSize {W} _.
Arguments MaxHTTPBodyLength {W} _.
Arguments stamps_NewServerStampFromString {W} _ _.
Arguments net_ResolveUDPAddr {W} _ _ _.
Arguments net_ResolveTCPAddr {W} _ _ _.
Arguments rand_draw {W} _ _.
Arguments time_Now {W} _ _.
Arguments sha256_Sum256 {W} _ _.
Arguments ExtractHostAndPort {W} _ _ _.
Arguments ParseIP {W} _ _.
Arguments saveCachedIP {W} _ _ _ _ _.
Arguments DoHQuery {W} _ _ _ _ _ _.
Arguments FetchCurrentDNSCryptCert {W} _ _ _ _ _ _ _ _ _ _ _.

(** ** Small pieces of the Go library *)

Definition ed25519_PublicKeySize : Z := 32.

Definition len {A : Type} (l : list A) : Z := Z.of_nat (List.length l).

Definition strlen (s : string) : Z := Z.of_nat (String.length s).

(** [l[i]], a panic when [i] is out of range. *)
Definition index {W A : Type} (l : list A) (i : nat) : M W A :=
  match nth_error l i with
  | Some x => ret x
  | None => panic
  end.

(** [l[i] = x] for [i] in range. *)
Fixpoint update {A : Type} (l : list A) (i : nat) (x : A) : list A :=
  match l, i with
  | [], _ => []
  | _ :: l', O => x :: l'
  | y :: l', S i' => y :: update l' i' x
  end.

(** [l[i], l[j] = l[j], l[i]] *)
Definition swap {A : Type} (l : list A) (i j : nat) : list A :=
  match nth_error l i, nth_error l j with
  | Some x, Some y => update (update l i y) j x
  | _, _ => l
  end.

(** [rand.Intn(n)]: a panic for [n <= 0], else a draw below [n]. *)
Definition rand_Intn {W : Type} (ext : Externals W) (n : nat) : M W nat :=
  match n with
  | O => panic
  | S _ => fun w => let (r, w') := rand_draw ext w in Returns (Nat.modulo r n, w')
  end.

Definition maxDuration : Duration := 2 ^ 63 - 1.
Definition minDuration : Duration := - 2 ^ 63.

(** [t.Sub(u)], which saturates. *)
Definition time_Sub (t u : Time) : Duration :=
  Z.max minDuration (Z.min maxDuration (t - u)).

Definition time_Since {W : Type} (ext : Externals W) (t : Time) : M W Duration :=
  fun w => let (now, w') := time_Now ext w in Returns (time_Sub now t, w').

(** [d.Nanoseconds() / 1000000] *)
Definition milliseconds (d : Duration) : Z := Z.quot d 1000000.

Definition fromHexChar (c : byte) : option N :=
  let n := Byte.to_N c in
  if (48 <=? n)%N && (n <=? 57)%N then Some (n - 48)%N
  else if (97 <=? n)%N && (n <=? 102)%N then Some (n - 97 + 10)%N
  else if (65 <=? n)%N && (n <=? 70)%N then Some (n - 65 + 10)%N
  else None.

(** [hex.DecodeString]; [None] for either of its errors. *)
Fixpoint hex_DecodeString (src : bytes) : option bytes :=
  match src with
  | [] => Some []
  | [_] => None
  | a :: b :: rest =>
    match fromHexChar a, fromHexChar b with
    | Some x, Some y =>
      match Byte.of_N (x * 16 + y), hex_DecodeString rest with
      | Some c, Some r => Some (c :: r)
      | _, _ => None
      end
    | _, _ => None
    end
  end.

(** [strings.Replace(s, ":", "", -1)] on the bytes of [s]. *)
Definition removeColons (s : bytes) : bytes :=
  filter (fun c => negb (Byte.eqb c x3a)) s.

(** [sort.SliceStable]: a stable sort is determined by its order, so an
    insertion sort that uses only [less] stands for it. *)
Fixpoint insertStable {A : Type} (less : A -> A -> bool) (x : A) (l : list A)
  : list A :=
  match l with
  | [] => [x]
  | y :: l' => if less y x then y :: insertStable less x l' else x :: y :: l'
  end.

Definition sort_SliceStable {A : Type} (less : A -> A -> bool) (l : list A)
  : list A :=
  fold_right (insertStable less) [] l.

(** ** serversInfo.go *)

Section ServersInfoGo.

Context {W : Type} (ext : Externals W).
Context {MA : Type} `{MovingAverage MA}.

Local Open Scope world_scope.

(** *** registerServer *)

(** The loop of [registerServer]: [Some] of the registry with the first
    entry called [name] replaced, [None] when there is none. *)
Fixpoint registerReplace (registered : list RegisteredServer) (name : string)
  (newRegisteredServer : RegisteredServer) : option (list RegisteredServer) :=
  match registered with
  | [] => None
  | oldRegisteredServer :: rest =>
    if String.eqb (Name oldRegisteredServer) name
    then Some (newRegisteredServer :: rest)
    else option_map (cons oldRegisteredServer)
                    (registerReplace rest name newRegisteredServer)
  end.

Definition registerServer (serversInfo : ServersInfo MA) (name : string)
  (stamp : ServerStamp) : ServersInfo MA * option error :=
  let newRegisteredServer :=
    {| Name := name; Stamp := stamp; Description := "" |} in
  match registerReplace (registeredServers serversInfo) name
                        newRegisteredServer with
  | Some registered => (with_registeredServers serversInfo registered, None)
  | None =>
    (with_registeredServers serversInfo
       (registeredServers serversInfo ++ [newRegisteredServer]), None)
  end.

(** *** route *)

(** One of the two loops over a registry in [route]: the stamp of the
    first entry called [relayName], else the candidate as it was. *)
Fixpoint routeLookup (registered : list RegisteredServer) (relayName : string)
  (relayCandidateStamp : option ServerStamp) : option ServerStamp :=
  match registered with
  | [] => relayCandidateStamp
  | registeredServer :: rest =>
    if String.eqb (Name registeredServer) relayName
    then Some (Stamp registeredServer)
    else routeLookup rest relayName relayCandidateStamp
  end.

(** Lines 248-268: the stamp that stands for a relay name which is not
    empty. *)
Definition relayCandidate (proxy : Proxy) (relayName : string)
  : M W (option ServerStamp) :=
  match stamps_NewServerStampFromString ext relayName with
  | inl relayStamp => ret (Some relayStamp)
  | inr _ =>
    r <- lift (net_ResolveUDPAddr ext relayName) ;;
    match r with
    | inl _ =>
      ret (Some {| ServerAddrStr := relayName; ServerPk := []; Hashes := [];
                   ProviderName := ""; Path := "";
                   Proto := StampProtoTypeDNSCryptRelay |})
    | inr _ =>
      let relayCandidateStamp :=
        routeLookup (RegisteredRelays proxy) relayName None in
      let relayCandidateStamp :=
        routeLookup (RegisteredServers proxy) relayName relayCandidateStamp in
      ret relayCandidateStamp
    end
  end.

(** Lines 269-284: from the chosen stamp to the two addresses. *)
Definition relayResolve (relayCandidateStamp : option ServerStamp)
  (relayName name : string)
  : M W ((option UDPAddr * option TCPAddr) + error) :=
  match relayCandidateStamp with
  | None => ret (inr (ErrUndefinedRelay relayName name))
  | Some relayCandidateStamp =>
    if StampProtoType_eqb (Proto relayCandidateStamp) StampProtoTypeDNSCrypt
       || StampProtoType_eqb (Proto relayCandidateStamp)
                             StampProtoTypeDNSCryptRelay
    then
      u <- lift (net_ResolveUDPAddr ext (ServerAddrStr relayCandidateStamp)) ;;
      match u with
      | inr err => ret (inr err)
      | inl relayUDPAddr =>
        t <- lift (net_ResolveTCPAddr ext (ServerAddrStr relayCandidateStamp)) ;;
        match t with
        | inr err => ret (inr err)
        | inl relayTCPAddr => ret (inl (Some relayUDPAddr, Some relayTCPAddr))
        end
      end
    else ret (inr (ErrInvalidRelay relayName name))
  end.

Definition route (proxy : Proxy) (name : string) (stamp : ServerStamp)
  : M W ((option UDPAddr * option TCPAddr) + error) :=
  match Routes proxy with
  | None => ret (inl (None, None))
  | Some routes =>
    let relayNames :=
      match routes name with
      | Some relayNames => Some relayNames
      | None => routes "*"
      end in
    match relayNames with
    | None => ret (inl (None, None))
    | Some relayNames =>
      relayName <-
        (if len relayNames >? 0
         then candidate <- rand_Intn ext (List.length relayNames) ;;
              index relayNames candidate
         else ret "") ;;
      if strlen relayName =? 0
      then ret (inr (ErrEmptyRelayList name))
      else
        relayCandidateStamp <- relayCandidate proxy relayName ;;
        relayResolve relayCandidateStamp relayName name
    end
  end.

(** *** fetchDNSCryptServerInfo *)

(** Lines 288-295: a key that is not 32 bytes long is taken as a
    hex-encoded one; the process ends when it is not that either. *)
Definition normalizeServerPk (stamp : ServerStamp) : M W ServerStamp :=
  if negb (len (ServerPk stamp) =? ed25519_PublicKeySize) then
    match hex_DecodeString (removeColons (ServerPk stamp)) with
    | Some serverPk =>
      if negb (len serverPk =? ed25519_PublicKeySize) then fatal
      else ret {| ServerAddrStr := ServerAddrStr stamp; ServerPk := serverPk;
                  Hashes := Hashes stamp; ProviderName := ProviderName stamp;
                  Path := Path stamp; Proto := Proto stamp |}
    | None => fatal
    end
  else ret stamp.

Definition fetchDNSCryptServerInfo (proxy : Proxy) (name : string)
  (stamp : ServerStamp) (isNew : bool) : M W (ServerInfo MA + error) :=
  stamp <- normalizeServerPk stamp ;;
  r <- route proxy name stamp ;;
  match r with
  | inr err => ret (inr err)
  | inl (relayUDPAddr, relayTCPAddr) =>
    c <- lift (FetchCurrentDNSCryptCert ext proxy name (MainProto proxy)
                 (ServerPk stamp) (ServerAddrStr stamp) (ProviderName stamp)
                 isNew relayUDPAddr relayTCPAddr) ;;
    match c with
    | inr err => ret (inr err)
    | inl (certInfo, rtt) =>
      u <- lift (net_ResolveUDPAddr ext (ServerAddrStr stamp)) ;;
      match u with
      | inr err => ret (inr err)
      | inl remoteUDPAddr =>
        t <- lift (net_ResolveTCPAddr ext (ServerAddrStr stamp)) ;;
        match t with
        | inr err => ret (inr err)
        | inl remoteTCPAddr =>
          ret (inl {| si_Proto := StampProtoTypeDNSCrypt;
                      MagicQuery := ci_MagicQuery certInfo;
                      si_ServerPk := ci_ServerPk certInfo;
                      SharedKey := ci_SharedKey certInfo;
                      CryptoConstruction := ci_CryptoConstruction certInfo;
                      si_Name := name;
                      si_Timeout := Timeout proxy;
                      si_URL := None; HostName := "";
                      UDPAddr_ := Some remoteUDPAddr;
                      TCPAddr_ := Some remoteTCPAddr;
                      RelayUDPAddr := relayUDPAddr;
                      RelayTCPAddr := relayTCPAddr;
                      lastActionTS := 0; rtt := None;
                      initialRtt := rtt; useGet := false |})
        end
      end
    end
  end.

(** *** fetchDoHServerInfo *)

(** The probe query: id [0xcafe], one question (NS of the root), an OPT
    record. *)
Definition dohProbeBody : bytes :=
  [xca; xfe; x01; x00; x00; x01; x00; x00; x00; x00; x00; x01;
   x00; x00; x02; x00; x01;
   x00; x00; x29; x10; x00; x00; x00; x80; x00; x00; x00].

(** Lines 329-334: an address literal in the stamp is handed to the
    transport's cache. *)
Definition dohSeedCache (stamp : ServerStamp) : M W unit :=
  if strlen (ServerAddrStr stamp) >? 0 then
    let (ipOnly, _) := ExtractHostAndPort ext (ServerAddrStr stamp) (-1) in
    match ParseIP ext ipOnly with
    | Some ip =>
      fun w => Returns (tt, saveCachedIP ext (ProviderName stamp) ip
                                        (-1 * Second) w)
    | None => ret tt
    end
  else ret tt.

(** Lines 343-354: POST, on failure GET, and then the probe that is
    measured. *)
Definition dohProbe (proxy : Proxy) (url : URL)
  : M W ((Response * Duration * bool) + error) :=
  let body := dohProbeBody in
  let useGet := false in
  first <- lift (DoHQuery ext useGet url body (Timeout proxy)) ;;
  fallback <-
    match first with
    | inl _ => ret (inl useGet)
    | inr _ =>
      let useGet := true in
      second <- lift (DoHQuery ext useGet url body (Timeout proxy)) ;;
      match second with
      | inl _ => ret (inl useGet)
      | inr err => ret (inr err)
      end
    end ;;
  match fallback with
  | inr err => ret (inr err)
  | inl useGet =>
    third <- lift (DoHQuery ext useGet url body (Timeout proxy)) ;;
    match third with
    | inr err => ret (inr err)
    | inl (resp, rtt) => ret (inl (resp, rtt, useGet))
    end
  end.

(** Lines 375-383, the loop over the stamp's hashes for one certificate
    hash [h]: whether one was found, and [wantedHash] as the loop
    leaves it. *)
Fixpoint pinHashes (h : bytes) (hashes : list bytes) (wantedHash : bytes)
  : bool * bytes :=
  match hashes with
  | [] => (false, wantedHash)
  | hash :: rest =>
    if len hash =? 32 then
      if bytes_eqb h hash then (true, hash)
      else pinHashes h rest hash
    else pinHashes h rest wantedHash
  end.

(** Lines 368-387, the loop over the peer certificates. *)
Fixpoint pinCertificates (certs : list Certificate) (hashes : list bytes)
  (wantedHash : bytes) : bool * bytes :=
  match certs with
  | [] => (false, wantedHash)
  | cert :: rest =>
    let h := sha256_Sum256 ext (RawTBSCertificate cert) in
    let (found, wantedHash) := pinHashes h hashes wantedHash in
    if found then (true, wantedHash)
    else pinCertificates rest hashes wantedHash
  end.

(** Lines 395-396: [true] when the body is refused. The four bytes are
    read from left to right and only as far as needed. *)
Definition dohUnexpected (respBody : bytes) : M W bool :=
  if (len respBody <? MinDNSPacketSize ext)
     || (len respBody >? MaxDNSPacketSize ext) then ret true
  else
    b0 <- index respBody 0 ;;
    if negb (Byte.eqb b0 xca) then ret true else
    b1 <- index respBody 1 ;;
    if negb (Byte.eqb b1 xfe) then ret true else
    b4 <- index respBody 4 ;;
    if negb (Byte.eqb b4 x00) then ret true else
    b5 <- index respBody 5 ;;
    ret (negb (Byte.eqb b5 x01)).

(** Lines 355-413: what is made of the answer to the probe. *)
Definition dohAccept (proxy : Proxy) (name : string) (stamp : ServerStamp)
  (url : URL) (resp : Response) (rtt : Duration) (useGet : bool)
  : M W (ServerInfo MA + error) :=
  match TLS resp with
  | None => ret (inr ErrTLSHandshakeFailed)
  | Some tls =>
    if negb (HandshakeComplete tls) then ret (inr ErrTLSHandshakeFailed)
    else
      let (found, wantedHash) :=
        pinCertificates (PeerCertificates tls) (Hashes stamp)
                        (repeat x00 32) in
      if negb found && (len (Hashes stamp) >? 0)
      then ret (inr (ErrCertificateHashNotFound wantedHash name))
      else
        match ReadAllLimit (RespBody resp) (MaxHTTPBodyLength ext) with
        | inr err => ret (inr err)
        | inl respBody =>
          bad <- dohUnexpected respBody ;;
          if bad then ret (inr ErrUnexpectedResponse)
          else
            let xrtt := milliseconds rtt in
            ret (inl {| si_Proto := StampProtoTypeDoH;
                        MagicQuery := []; si_ServerPk := [];
                        SharedKey := []; CryptoConstruction := 0;
                        si_Name := name;
                        si_Timeout := Timeout proxy;
                        si_URL := Some url;
                        HostName := ProviderName stamp;
                        UDPAddr_ := None; TCPAddr_ := None;
                        RelayUDPAddr := None; RelayTCPAddr := None;
                        lastActionTS := 0; rtt := None;
                        initialRtt := xrtt; useGet := useGet |})
        end
  end.

Definition fetchDoHServerInfo (proxy : Proxy) (name : string)
  (stamp : ServerStamp) (isNew : bool) : M W (ServerInfo MA + error) :=
  _ <- dohSeedCache stamp ;;
  let url := {| Scheme := "https"; Host := ProviderName stamp;
                URLPath := Path stamp |} in
  p <- dohProbe proxy url ;;
  match p with
  | inr err => ret (inr err)
  | inl (resp, rtt, useGet) =>
    dohAccept proxy name stamp url resp rtt useGet
  end.

(** *** fetchServerInfo *)

Definition fetchServerInfo (proxy : Proxy) (name : string)
  (stamp : ServerStamp) (isNew : bool) : M W (ServerInfo MA + error) :=
  match Proto stamp with
  | StampProtoTypeDNSCrypt => fetchDNSCryptServerInfo proxy name stamp isNew
  | StampProtoTypeDoH => fetchDoHServerInfo proxy name stamp isNew
  | _ => ret (inr ErrUnsupportedProtocol)
  end.

(** *** refreshServer *)

(** Lines 94-100: no live server is called [name]. *)
Definition isNewServer (pool : list (ServerInfo MA)) (name : string) : bool :=
  negb (existsb (fun oldServer => String.eqb (si_Name oldServer) name) pool).

(** Lines 113-119: the first live server called [name] gives way to
    [newServer]; the flag is [isNew] as the loop leaves it. *)
Fixpoint replaceLive (pool : list (ServerInfo MA)) (name : string)
  (newServer : ServerInfo MA) : list (ServerInfo MA) * bool :=
  match pool with
  | [] => ([], true)
  | oldServer :: rest =>
    if String.eqb (si_Name oldServer) name then (newServer :: rest, false)
    else let (rest', isNew) := replaceLive rest name newServer in
         (oldServer :: rest', isNew)
  end.

Definition refreshServer (proxy : Proxy) (serversInfo : ServersInfo MA)
  (name : string) (stamp : ServerStamp)
  : M W (ServersInfo MA * option error) :=
  let isNew := isNewServer (inner serversInfo) name in
  r <- fetchServerInfo proxy name stamp isNew ;;
  match r with
  | inr err => ret (serversInfo, Some err)
  | inl newServer =>
    if negb (String.eqb name (si_Name newServer)) then fatal
    else
      let newServer :=
        with_rtt newServer
          (Some (ewma_Set (ewma_NewMovingAverage RTTEwmaDecay)
                          (inject_Z (initialRtt newServer)))) in
      let (replaced, isNew) := replaceLive (inner serversInfo) name newServer in
      if isNew then
        ret ({| inner := inner serversInfo ++ [newServer];
                registeredServers :=
                  registeredServers serversInfo
                  ++ [{| Name := name; Stamp := stamp; Description := "" |}];
                LBStrategy_ := LBStrategy_ serversInfo;
                LBEstimator := LBEstimator serversInfo |}, None)
      else ret (with_inner serversInfo replaced, None)
  end.

(** *** refresh *)

(** Lines 135-139: the loop over the snapshot of the registry. *)
Fixpoint refreshLoop (proxy : Proxy) (snapshot : list RegisteredServer)
  (serversInfo : ServersInfo MA) (liveServers : Z) (err : option error)
  : M W (ServersInfo MA * Z * option error) :=
  match snapshot with
  | [] => ret (serversInfo, liveServers, err)
  | registeredServer :: rest =>
    '(serversInfo, err) <-
      refreshServer proxy serversInfo (Name registeredServer)
                    (Stamp registeredServer) ;;
    let liveServers :=
      match err with
      | None => liveServers + 1
      | Some _ => liveServers
      end in
    refreshLoop proxy rest serversInfo liveServers err
  end.

Definition lessInitialRtt (a b : ServerInfo MA) : bool :=
  initialRtt a <? initialRtt b.

Definition refresh (proxy : Proxy) (serversInfo : ServersInfo MA)
  : M W (ServersInfo MA * Z * option error) :=
  let registeredServers := registeredServers serversInfo in
  '(serversInfo, liveServers, err) <-
    refreshLoop proxy registeredServers serversInfo 0 None ;;
  ret (with_inner serversInfo
         (sort_SliceStable lessInitialRtt (inner serversInfo)),
       liveServers, err).

(** *** estimatorUpdate

    The live pool is a slice of pointers; every pointer in it comes from
    its own [refreshServer] call, so two slots never share a server and
    the pool is a list of values. *)

(** [server.rtt.Value()], a panic on a server whose [rtt] was never set. *)
Definition rttValue (server : ServerInfo MA) : M W Q :=
  match rtt server with
  | Some r => ret (ewma_Value r)
  | None => panic
  end.

(** [server.rtt.Set(x)] and [server.rtt.Add(x)] *)
Definition rttSet (server : ServerInfo MA) (x : Q) : M W (ServerInfo MA) :=
  match rtt server with
  | Some r => ret (with_rtt server (Some (ewma_Set r x)))
  | None => panic
  end.

Definition rttAdd (server : ServerInfo MA) (x : Q) : M W (ServerInfo MA) :=
  match rtt server with
  | Some r => ret (with_rtt server (Some (ewma_Add r x)))
  | None => panic
  end.

(** Lines 165-181: the pool and [partialSort] after the choice between
    the swap, the second chance and nothing. *)
Definition estimatorChoose (pool : list (ServerInfo MA)) (candidate : nat)
  : M W (list (ServerInfo MA) * bool) :=
  c <- index pool candidate ;;
  candidateRtt <- rttValue c ;;
  best <- index pool 0 ;;
  currentBestRtt <- rttValue best ;;
  '(currentBestRtt, pool) <-
    (if Qlt_bool currentBestRtt 0 then
       best <- rttSet best candidateRtt ;;
       ret (candidateRtt, update pool 0 best)
     else ret (currentBestRtt, pool)) ;;
  if Qlt_bool candidateRtt currentBestRtt then
    ret (swap pool candidate 0, true)
  else if Qlt_bool 0 candidateRtt
          && Qle_bool (currentBestRtt * 4) candidateRtt then
    c <- index pool candidate ;;
    since <- time_Since ext (lastActionTS c) ;;
    if since >? 1 * Minute then
      c <- rttAdd c (MinF (MaxF (candidateRtt / 2) (currentBestRtt * 2))
                          candidateRtt) ;;
      ret (update pool candidate c, true)
    else ret (pool, false)
  else ret (pool, false).

(** Lines 184-188: one pass of adjacent swaps, [i] from 1 on. *)
Fixpoint partialSortPass (steps : nat) (i : nat) (pool : list (ServerInfo MA))
  : M W (list (ServerInfo MA)) :=
  match steps with
  | O => ret pool
  | S steps' =>
    a <- index pool (i - 1) ;;
    va <- rttValue a ;;
    b <- index pool i ;;
    vb <- rttValue b ;;
    partialSortPass steps' (S i)
      (if Qlt_bool vb va then swap pool (i - 1) i else pool)
  end.

Definition estimatorUpdate (serversInfo : ServersInfo MA)
  : M W (ServersInfo MA) :=
  candidate <- rand_Intn ext (List.length (inner serversInfo)) ;;
  if Nat.eqb candidate 0 then ret serversInfo
  else
    '(pool, partialSort) <- estimatorChoose (inner serversInfo) candidate ;;
    if partialSort then
      let serversCount := List.length pool in
      pool <- partialSortPass (serversCount - 1) 1 pool ;;
      ret (with_inner serversInfo pool)
    else ret (with_inner serversInfo pool).

End ServersInfoGo.

(** ** plugins.go: the data *)

Inductive PluginsAction : Type :=
| PluginsActionNone
| PluginsActionForward
| PluginsActionDrop
| PluginsActionReject
| PluginsActionSynth.

Definition PluginsAction_eqb (a b : PluginsAction) : bool :=
  match a, b with
  | PluginsActionNone, PluginsActionNone
  | PluginsActionForward, PluginsActionForward
  | PluginsActionDrop, PluginsActionDrop
  | PluginsActionReject, PluginsActionReject
  | PluginsActionSynth, PluginsActionSynth => true
  | _, _ => false
  end.

Inductive PluginsReturnCode : Type :=
| PluginsReturnCodePass
| PluginsReturnCodeForward
| PluginsReturnCodeDrop
| PluginsReturnCodeReject
| PluginsReturnCodeSynth
| PluginsReturnCodeParseError
| PluginsReturnCodeNXDomain
| PluginsReturnCodeResponseError
| PluginsReturnCodeServerError
| PluginsReturnCodeCloak
| PluginsReturnCodeServerTimeout.

(** [dns.Question], [dns.RR] and [dns.Msg] of the DNS library, as far as
    the two files look into them. *)
Record DnsQuestion : Type := { q_Name : string; Qtype : Z; Qclass : Z }.

Record RR : Type := { rr_Name : string; rr_Ttl : Z; rr_Data : bytes }.

Record Msg : Type := {
  msg_Id : Z;
  msg_Rcode : Z;
  Question : list DnsQuestion;
  Answer : list RR
}.

Definition dns_RcodeSuccess : Z := 0.
Definition dns_RcodeServerFailure : Z := 2.
Definition dns_RcodeNameError : Z := 3.

(** A [*dns.Msg] is an address in a store of messages: the stage's own
    message, [questionMsg] and [synthResponse] can be one and the same
    object, and a module writes to it through any of them. *)
Definition addr : Type := nat.
Definition Heap : Type := list Msg.

Definition alloc (h : Heap) (m : Msg) : addr * Heap :=
  (List.length h, h ++ [m]).

Definition deref (h : Heap) (a : addr) : option Msg := nth_error h a.

Record PluginsState : Type := {
  sessionData : list (string * bytes);
  action : PluginsAction;
  maxUnencryptedUDPSafePayloadSize : Z;
  originalMaxPayloadSize : Z;
  maxPayloadSize : Z;
  clientProto : string;
  clientAddr : option string;
  synthResponse : option addr;
  dnssec : bool;
  cacheSize : Z;
  cacheNegMinTTL : Z;
  cacheNegMaxTTL : Z;
  cacheMinTTL : Z;
  cacheMaxTTL : Z;
  rejectTTL : Z;
  questionMsg : option addr;
  requestStart : Time;
  requestEnd : Time;
  cacheHit : bool;
  returnCode : PluginsReturnCode;
  serverName : string
}.

Definition with_action (s : PluginsState) (v : PluginsAction) : PluginsState :=
  {| sessionData := sessionData s; action := v;
     maxUnencryptedUDPSafePayloadSize := maxUnencryptedUDPSafePayloadSize s;
     originalMaxPayloadSize := originalMaxPayloadSize s;
     maxPayloadSize := maxPayloadSize s; clientProto := clientProto s;
     clientAddr := clientAddr s; synthResponse := synthResponse s;
     dnssec := dnssec s; cacheSize := cacheSize s;
     cacheNegMinTTL := cacheNegMinTTL s; cacheNegMaxTTL := cacheNegMaxTTL s;
     cacheMinTTL := cacheMinTTL s; cacheMaxTTL := cacheMaxTTL s;
     rejectTTL := rejectTTL s; questionMsg := questionMsg s;
     requestStart := requestStart s; requestEnd := requestEnd s;
     cacheHit := cacheHit s; returnCode := returnCode s;
     serverName := serverName s |}.

Definition with_serverName (s : PluginsState) (v : string) : PluginsState :=
  {| sessionData := sessionData s; action := action s;
     maxUnencryptedUDPSafePayloadSize := maxUnencryptedUDPSafePayloadSize s;
     originalMaxPayloadSize := originalMaxPayloadSize s;
     maxPayloadSize := maxPayloadSize s; clientProto := clientProto s;
     clientAddr := clientAddr s; synthResponse := synthResponse s;
     dnssec := dnssec s; cacheSize := cacheSize s;
     cacheNegMinTTL := cacheNegMinTTL s; cacheNegMaxTTL := cacheNegMaxTTL s;
     cacheMinTTL := cacheMinTTL s; cacheMaxTTL := cacheMaxTTL s;
     rejectTTL := rejectTTL s; questionMsg := questionMsg s;
     requestStart := requestStart s; requestEnd := requestEnd s;
     cacheHit := cacheHit s; returnCode := returnCode s; serverName := v |}.

Definition with_questionMsg (s : PluginsState) (v : option addr) : PluginsState :=
  {| sessionData := sessionData s; action := action s;
     maxUnencryptedUDPSafePayloadSize := maxUnencryptedUDPSafePayloadSize s;
     originalMaxPayloadSize := originalMaxPayloadSize s;
     maxPayloadSize := maxPayloadSize s; clientProto := clientProto s;
     clientAddr := clientAddr s; synthResponse := synthResponse s;
     dnssec := dnssec s; cacheSize := cacheSize s;
     cacheNegMinTTL := cacheNegMinTTL s; cacheNegMaxTTL := cacheNegMaxTTL s;
     cacheMinTTL := cacheMinTTL s; cacheMaxTTL := cacheMaxTTL s;
     rejectTTL := rejectTTL s; questionMsg := v;
     requestStart := requestStart s; requestEnd := requestEnd s;
     cacheHit := cacheHit s; returnCode := returnCode s;
     serverName := serverName s |}.

Definition with_synthResponse (s : PluginsState) (v : option addr) : PluginsState :=
  {| sessionData := sessionData s; action := action s;
     maxUnencryptedUDPSafePayloadSize := maxUnencryptedUDPSafePayloadSize s;
     originalMaxPayloadSize := originalMaxPayloadSize s;
     maxPayloadSize := maxPayloadSize s; clientProto := clientProto s;
     clientAddr := clientAddr s; synthResponse := v; dnssec := dnssec s;
     cacheSize := cacheSize s; cacheNegMinTTL := cacheNegMinTTL s;
     cacheNegMaxTTL := cacheNegMaxTTL s; cacheMinTTL := cacheMinTTL s;
     cacheMaxTTL := cacheMaxTTL s; rejectTTL := rejectTTL s;
     questionMsg := questionMsg s; requestStart := requestStart s;
     requestEnd := requestEnd s; cacheHit := cacheHit s;
     returnCode := returnCode s; serverName := serverName s |}.

Definition with_returnCode (s : PluginsState) (v : PluginsReturnCode) : PluginsState :=
  {| sessionData := sessionData s; action := action s;
     maxUnencryptedUDPSafePayloadSize := maxUnencryptedUDPSafePayloadSize s;
     originalMaxPayloadSize := originalMaxPayloadSize s;
     maxPayloadSize := maxPayloadSize s; clientProto := clientProto s;
     clientAddr := clientAddr s; synthResponse := synthResponse s;
     dnssec := dnssec s; cacheSize := cacheSize s;
     cacheNegMinTTL := cacheNegMinTTL s; cacheNegMaxTTL := cacheNegMaxTTL s;
     cacheMinTTL := cacheMinTTL s; cacheMaxTTL := cacheMaxTTL s;
     rejectTTL := rejectTTL s; questionMsg := questionMsg s;
     requestStart := requestStart s; requestEnd := requestEnd s;
     cacheHit := cacheHit s; returnCode := v; serverName := serverName s |}.

Definition with_requestEnd (s : PluginsState) (v : Time) : PluginsState :=
  {| sessionData := sessionData s; action := action s;
     maxUnencryptedUDPSafePayloadSize := maxUnencryptedUDPSafePayloadSize s;
     originalMaxPayloadSize := originalMaxPayloadSize s;
     maxPayloadSize := maxPayloadSize s; clientProto := clientProto s;
     clientAddr := clientAddr s; synthResponse := synthResponse s;
     dnssec := dnssec s; cacheSize := cacheSize s;
     cacheNegMinTTL := cacheNegMinTTL s; cacheNegMaxTTL := cacheNegMaxTTL s;
     cacheMinTTL := cacheMinTTL s; cacheMaxTTL := cacheMaxTTL s;
     rejectTTL := rejectTTL s; questionMsg := questionMsg s;
     requestStart := requestStart s; requestEnd := v;
     cacheHit := cacheHit s; returnCode := returnCode s;
     serverName := serverName s |}.

(** [Plugin]: the two methods the stages use. [Eval] gets the state and
    the message by pointer; it gives back the state and the store as it
    leaves them, and its error. *)
Record Plugin (W : Type) : Type := {
  plugin_Name : string;
  Eval : PluginsState -> addr -> Heap -> W
         -> (PluginsState * Heap * option error) * W
}.

Arguments plugin_Name {W} _.
Arguments Eval {W} _ _ _ _ _.

Record PluginsGlobals (W : Type) : Type := {
  queryPlugins : list (Plugin W);
  responsePlugins : list (Plugin W);
  loggingPlugins : list (Plugin W);
  refusedCodeInResponses : bool;
  respondWithIPv4 : option IP;
  respondWithIPv6 : option IP
}.

Arguments queryPlugins {W} _.
Arguments responsePlugins {W} _.
Arguments loggingPlugins {W} _.
Arguments refusedCodeInResponses {W} _.
Arguments respondWithIPv4 {W} _.
Arguments respondWithIPv6 {W} _.

(** The DNS library and the repository's packet helpers, none of which
    is defined in the two files. *)
Record DnsExternals : Type := {
  dns_Unpack : bytes -> Msg + error;
  dns_PackBuffer : Msg -> bytes -> bytes + error;
  HasTCFlag : bytes -> bool;
  Rcode : bytes -> Z;
  setMaxTTL : Msg -> Z -> Msg;
  RefusedResponseFromMessage :
    Msg -> bool -> option IP -> option IP -> Z -> Msg + error
}.

(** What a stage saw of one module: the module, the error of its [Eval]
    and [state.action] as [Eval] left it. The stages keep this record of
    their run next to their result; the Go code has no such value. *)
Record Evaluation (W : Type) : Type := {
  ev_plugin : Plugin W;
  ev_err : option error;
  ev_action : PluginsAction
}.

Arguments ev_plugin {W} _.
Arguments ev_err {W} _.
Arguments ev_action {W} _.

(** How one turn of a stage's loop ends. *)
Inductive turn (W : Type) : Type :=
| TurnNext (s : PluginsState) (h : Heap) (w : W)
| TurnBreak (s : PluginsState) (h : Heap) (w : W)
| TurnReturn (packet : option bytes) (err : error)
             (s : PluginsState) (h : Heap) (w : W)
| TurnPanic.

Arguments TurnNext {W} _ _ _.
Arguments TurnBreak {W} _ _ _.
Arguments TurnReturn {W} _ _ _ _ _.
Arguments TurnPanic {W}.

(** ** plugins.go: the stages *)

Section PluginsGo.

Context {W : Type} (ext : Externals W) (dns : DnsExternals).

(** Lines 249-262: the body of the loop of [ApplyQueryPlugins]. *)
Definition queryTurn (pluginsGlobals : PluginsGlobals W) (packet : bytes)
  (msg : addr) (plugin : Plugin W) (pluginsState : PluginsState)
  (h : Heap) (w : W) : Evaluation W * turn W :=
  let '(pluginsState, h, err, w) := Eval plugin pluginsState msg h w in
  let seen := {| ev_plugin := plugin; ev_err := err;
                 ev_action := action pluginsState |} in
  match err with
  | Some err =>
    (seen, TurnReturn (Some packet) err
                      (with_action pluginsState PluginsActionDrop) h w)
  | None =>
    if PluginsAction_eqb (action pluginsState) PluginsActionReject then
      match deref h msg with
      | None => (seen, TurnPanic)
      | Some m =>
        match RefusedResponseFromMessage dns m
                (refusedCodeInResponses pluginsGlobals)
                (respondWithIPv4 pluginsGlobals)
                (respondWithIPv6 pluginsGlobals)
                (rejectTTL pluginsState) with
        | inr err => (seen, TurnReturn None err pluginsState h w)
        | inl synth =>
          let (synthAddr, h) := alloc h synth in
          (seen, TurnBreak (with_synthResponse pluginsState (Some synthAddr))
                           h w)
        end
      end
    else if negb (PluginsAction_eqb (action pluginsState) PluginsActionForward)
    then (seen, TurnBreak pluginsState h w)
    else (seen, TurnNext pluginsState h w)
  end.

(** Lines 296-310: the body of the loop of [ApplyResponsePlugins]; the
    log line reads [synth.Question[0]]. *)
Definition responseTurn (pluginsGlobals : PluginsGlobals W) (packet : bytes)
  (msg : addr) (plugin : Plugin W) (pluginsState : PluginsState)
  (h : Heap) (w : W) : Evaluation W * turn W :=
  let '(pluginsState, h, err, w) := Eval plugin pluginsState msg h w in
  let seen := {| ev_plugin := plugin; ev_err := err;
                 ev_action := action pluginsState |} in
  match err with
  | Some err =>
    (seen, TurnReturn (Some packet) err
                      (with_action pluginsState PluginsActionDrop) h w)
  | None =>
    if PluginsAction_eqb (action pluginsState) PluginsActionReject then
      match deref h msg with
      | None => (seen, TurnPanic)
      | Some m =>
        match RefusedResponseFromMessage dns m
                (refusedCodeInResponses pluginsGlobals)
                (respondWithIPv4 pluginsGlobals)
                (respondWithIPv6 pluginsGlobals)
                (rejectTTL pluginsState) with
        | inr err => (seen, TurnReturn None err pluginsState h w)
        | inl synth =>
          match Question synth with
          | [] => (seen, TurnPanic)
          | _ :: _ =>
            let (synthAddr, h) := alloc h synth in
            (seen, TurnBreak (with_synthResponse pluginsState (Some synthAddr))
                             h w)
          end
        end
      end
    else if negb (PluginsAction_eqb (action pluginsState) PluginsActionForward)
    then (seen, TurnBreak pluginsState h w)
    else (seen, TurnNext pluginsState h w)
  end.

(** A [for ... range] over modules with the given body: the modules
    evaluated, in order, and how the loop ended ([TurnNext]: it ran out
    of modules). *)
Fixpoint stageLoop
  (body : Plugin W -> PluginsState -> Heap -> W -> Evaluation W * turn W)
  (plugins : list (Plugin W)) (pluginsState : PluginsState) (h : Heap) (w : W)
  : list (Evaluation W) * turn W :=
  match plugins with
  | [] => ([], TurnNext pluginsState h w)
  | plugin :: rest =>
    match body plugin pluginsState h w with
    | (seen, TurnNext pluginsState h w) =>
      let (trace, t) := stageLoop body rest pluginsState h w in
      (seen :: trace, t)
    | (seen, t) => ([seen], t)
    end
  end.

(** The result of a stage: the packet ([None] for a nil slice) and the
    error, with the state, the store and the world as the stage leaves
    them. *)
Definition stageResult : Type :=
  outcome (option bytes * option error * PluginsState * Heap * W).

Definition ApplyQueryPlugins (pluginsState : PluginsState)
  (pluginsGlobals : PluginsGlobals W) (packet : bytes) (serverName : string)
  (h : Heap) (w : W) : list (Evaluation W) * stageResult :=
  if (len (queryPlugins pluginsGlobals) =? 0)
     && (len (loggingPlugins pluginsGlobals) =? 0)
  then ([], Returns (Some packet, None, pluginsState, h, w))
  else
    let pluginsState := with_serverName pluginsState serverName in
    let pluginsState := with_action pluginsState PluginsActionForward in
    match dns_Unpack dns packet with
    | inr err => ([], Returns (Some packet, Some err, pluginsState, h, w))
    | inl m =>
      if len (Question m) >? 1
      then ([], Returns (Some packet, Some ErrUnexpectedNumberOfQuestions,
                         pluginsState, h, w))
      else
        let (msg, h) := alloc h m in
        let pluginsState := with_questionMsg pluginsState (Some msg) in
        match stageLoop (queryTurn pluginsGlobals packet msg)
                        (queryPlugins pluginsGlobals) pluginsState h w with
        | (trace, TurnPanic) => (trace, Panics)
        | (trace, TurnReturn p err pluginsState h w) =>
          (trace, Returns (p, Some err, pluginsState, h, w))
        | (trace, TurnNext pluginsState h w)
        | (trace, TurnBreak pluginsState h w) =>
          match deref h msg with
          | None => (trace, Panics)
          | Some m =>
            match dns_PackBuffer dns m packet with
            | inr err =>
              (trace, Returns (Some packet, Some err, pluginsState, h, w))
            | inl packet2 =>
              (trace, Returns (Some packet2, None, pluginsState, h, w))
            end
          end
        end
    end.

(** Lines 283-292 *)
Definition returnCodeOf (rcode : Z) : PluginsReturnCode :=
  if rcode =? dns_RcodeSuccess then PluginsReturnCodePass
  else if rcode =? dns_RcodeNameError then PluginsReturnCodeNXDomain
  else if rcode =? dns_RcodeServerFailure then PluginsReturnCodeServerError
  else PluginsReturnCodeResponseError.

Definition ApplyResponsePlugins (pluginsState : PluginsState)
  (pluginsGlobals : PluginsGlobals W) (packet : bytes) (ttl : option Z)
  (h : Heap) (w : W) : list (Evaluation W) * stageResult :=
  if (len (responsePlugins pluginsGlobals) =? 0)
     && (len (loggingPlugins pluginsGlobals) =? 0)
  then ([], Returns (Some packet, None, pluginsState, h, w))
  else
    let pluginsState := with_action pluginsState PluginsActionForward in
    match dns_Unpack dns packet with
    | inr err =>
      let err :=
        if (len packet >=? MinDNSPacketSize ext) && HasTCFlag dns packet
        then None else Some err in
      ([], Returns (Some packet, err, pluginsState, h, w))
    | inl m =>
      let pluginsState :=
        with_returnCode pluginsState (returnCodeOf (Rcode dns packet)) in
      let (msg, h) := alloc h m in
      match stageLoop (responseTurn pluginsGlobals packet msg)
                      (responsePlugins pluginsGlobals) pluginsState h w with
      | (trace, TurnPanic) => (trace, Panics)
      | (trace, TurnReturn p err pluginsState h w) =>
        (trace, Returns (p, Some err, pluginsState, h, w))
      | (trace, TurnNext pluginsState h w)
      | (trace, TurnBreak pluginsState h w) =>
        match deref h msg with
        | None => (trace, Panics)
        | Some m =>
          let m := match ttl with
                   | Some ttl => setMaxTTL dns m ttl
                   | None => m
                   end in
          let h := update h msg m in
          match dns_PackBuffer dns m packet with
          | inr err =>
            (trace, Returns (Some packet, Some err, pluginsState, h, w))
          | inl packet2 =>
            (trace, Returns (Some packet2, None, pluginsState, h, w))
          end
        end
      end
    end.

(** Lines 334-336: the body of the loop of [ApplyLoggingPlugins]. *)
Definition loggingTurn (questionMsg : addr) (plugin : Plugin W)
  (pluginsState : PluginsState) (h : Heap) (w : W) : Evaluation W * turn W :=
  let '(pluginsState, h, err, w) := Eval plugin pluginsState questionMsg h w in
  let seen := {| ev_plugin := plugin; ev_err := err;
                 ev_action := action pluginsState |} in
  match err with
  | Some err => (seen, TurnReturn None err pluginsState h w)
  | None => (seen, TurnNext pluginsState h w)
  end.

(** The result of the logging stage: its error. *)
Definition loggingResult : Type :=
  outcome (option error * PluginsState * Heap * W).

Definition ApplyLoggingPlugins (pluginsState : PluginsState)
  (pluginsGlobals : PluginsGlobals W) (h : Heap) (w : W)
  : list (Evaluation W) * loggingResult :=
  if len (loggingPlugins pluginsGlobals) =? 0
  then ([], Returns (None, pluginsState, h, w))
  else
    let (now, w) := time_Now ext w in
    let pluginsState := with_requestEnd pluginsState now in
    match questionMsg pluginsState with
    | None =>
      ([], Returns (Some ErrUnexpectedNumberOfQuestions, pluginsState, h, w))
    | Some questionMsg =>
      match deref h questionMsg with
      | None => ([], Panics)
      | Some m =>
        if len (Question m) >? 1
        then ([], Returns (Some ErrUnexpectedNumberOfQuestions,
                           pluginsState, h, w))
        else
          match stageLoop (loggingTurn questionMsg)
                          (loggingPlugins pluginsGlobals) pluginsState h w with
          | (trace, TurnReturn _ err pluginsState h w) =>
            (trace, Returns (Some err, pluginsState, h, w))
          | (trace, TurnNext pluginsState h w)
          | (trace, TurnBreak pluginsState h w) =>
            (trace, Returns (None, pluginsState, h, w))
          | (trace, TurnPanic) => (trace, Panics)
          end
      end
    end.

End PluginsGo.

(** ** Vocabulary of the statements *)

Section Vocabulary.

Context {W : Type} (ext : Externals W).
Context {MA : Type} `{MovingAverage MA}.

Local Open Scope world_scope.

(** The errors of the attempts of one [refresh], in the order of the
    registry: what [refreshServer] returns for each entry, run from the
    pool that the attempts before it left. *)
Fixpoint refreshAttempts (proxy : Proxy) (snapshot : list RegisteredServer)
  (serversInfo : ServersInfo MA) : M W (list (option error)) :=
  match snapshot with
  | [] => ret []
  | registeredServer :: rest =>
    '(serversInfo, err) <-
      refreshServer ext proxy serversInfo (Name registeredServer)
                    (Stamp registeredServer) ;;
    errs <- refreshAttempts proxy rest serversInfo ;;
    ret (err :: errs)
  end.

Definition succeeded (errs : list (option error)) : Z :=
  len (filter (fun e => match e with None => true | Some _ => false end) errs).

(** The certificate pins of a stamp hold for a connection: there is no
    pin, or the hash of a peer certificate is one of the 32-byte pins. *)
Definition pinned (tls : ConnectionState) (stamp : ServerStamp) : Prop :=
  Hashes stamp = [] \/
  exists cert hash,
    In cert (PeerCertificates tls) /\ In hash (Hashes stamp) /\
    len hash = 32 /\ sha256_Sum256 ext (RawTBSCertificate cert) = hash.

(** A body that passes for the answer to the probe. *)
Definition plausible (respBody : bytes) : Prop :=
  MinDNSPacketSize ext <= len respBody <= MaxDNSPacketSize ext /\
  nth_error respBody 0 = Some xca /\ nth_error respBody 1 = Some xfe /\
  nth_error respBody 4 = Some x00 /\ nth_error respBody 5 = Some x01.

(** Lines 329-354 of [fetchDoHServerInfo]: all that comes before the
    answer is looked at. *)
Definition dohExchange (proxy : Proxy) (stamp : ServerStamp)
  : M W ((Response * Duration * bool) + error) :=
  _ <- dohSeedCache ext stamp ;;
  dohProbe ext proxy {| Scheme := "https"; Host := ProviderName stamp;
                        URLPath := Path stamp |}.

(** The first entry of a registry with the given name. *)
Definition firstNamed (registered : list RegisteredServer) (name : string)
  : option RegisteredServer :=
  find (fun r => String.eqb (Name r) name) registered.

(** An average that a sample below it pulls down, and not below the
    sample. *)
Definition averages (r : MA) : Prop :=
  forall x : Q,
    (x <= ewma_Value r)%Q ->
    (x <= ewma_Value (ewma_Add r x))%Q /\
    (ewma_Value (ewma_Add r x) <= ewma_Value r)%Q.

End Vocabulary.

(** The discipline of a stage, on the record of its run: the modules
    evaluated are the first ones of the sequence, in order; a module
    that returned an error or left an action other than [Forward] is
    the last one evaluated; and an error of a module comes back with
    the packet that was given and with the action set to [Drop]. *)
Definition stops_at_first_non_forward {W : Type} (plugins : list (Plugin W))
  (packet : bytes)
  (trace : list (Evaluation W))
  (result : outcome (option bytes * option error * PluginsState * Heap * W))
  : Prop :=
  (exists rest, plugins = map ev_plugin trace ++ rest) /\
  (forall pre ev post,
     trace = pre ++ ev :: post ->
     ev_err ev <> None \/ ev_action ev <> PluginsActionForward ->
     post = []) /\
  (forall ev err,
     In ev trace -> ev_err ev = Some err ->
     exists s h w,
       result = Returns (Some packet, Some err, s, h, w) /\
       action s = PluginsActionDrop).

(** The logging modules were iterated: the first one was evaluated, the
    modules evaluated are the first ones of the sequence, and either
    all of them were evaluated without an error and the stage returns
    none, or the last one evaluated returned an error and the stage
    returns it. *)
Definition iterated {W : Type} (plugins : list (Plugin W))
  (trace : list (Evaluation W))
  (result : outcome (option error * PluginsState * Heap * W)) : Prop :=
  trace <> [] /\
  ((map ev_plugin trace = plugins /\
    Forall (fun ev => ev_err ev = None) trace /\
    exists s h w, result = Returns (None, s, h, w)) \/
   (exists pre ev err rest,
      trace = pre ++ [ev] /\
      plugins = map ev_plugin trace ++ rest /\
      Forall (fun ev => ev_err ev = None) pre /\
      ev_err ev = Some err /\
      exists s h w, result = Returns (Some err, s, h, w))).

(** A turn that lets the loop go on saw neither an error nor an action
    other than [Forward]. *)
Definition turn_goes_on {W : Type}
  (body : Plugin W -> PluginsState -> Heap -> W -> Evaluation W * turn W)
  : Prop :=
  forall plugin s h w seen s' h' w',
    body plugin s h w = (seen, TurnNext s' h' w') ->
    ev_err seen = None /\ ev_action seen = PluginsActionForward.

(** A turn records the module it was given. *)
Definition turn_records {W : Type}
  (body : Plugin W -> PluginsState -> Heap -> W -> Evaluation W * turn W)
  : Prop :=
  forall plugin s h w, ev_plugin (fst (body plugin s h w)) = plugin.

(** A turn whose module returned an error returns with the packet, the
    error and the action [Drop]. *)
Definition turn_drops {W : Type} (packet : bytes)
  (body : Plugin W -> PluginsState -> Heap -> W -> Evaluation W * turn W)
  : Prop :=
  forall plugin s h w seen t err,
    body plugin s h w = (seen, t) -> ev_err seen = Some err ->
    exists s' h' w',
      t = TurnReturn (Some packet) err s' h' w' /\
      action s' = PluginsActionDrop.

(** ** A small world to run the code in

    The world is the number of calls made to the network so far. Three
    DoH servers answer the probe, one is down; two addresses resolve. *)

Definition sc_W : Type := nat.

Definition sc_reply : bytes :=
  [xca; xfe; x81; x80; x00; x01; x00; x00; x00; x00; x00; x01;
   x00; x00; x02; x00; x01;
   x00; x00; x29; x10; x00; x00; x00; x80; x00; x00; x00].

Definition sc_certificate : Certificate :=
  {| RawTBSCertificate := repeat x11 32; Subject := "CN=resolver" |}.

Definition sc_response (reply : bytes) : Response :=
  {| TLS := Some {| HandshakeComplete := true; NegotiatedProtocol := "h2";
                    PeerCertificates := [sc_certificate] |};
     RespBody := {| body_data := reply; body_err := None |} |}.

Definition sc_DoHQuery (useGet : bool) (url : URL) (body : bytes)
  (timeout : Duration) (w : sc_W)
  : ((Response * Duration) + error) * sc_W :=
  if String.eqb (Host url) "fast.example"
  then (inl (sc_response sc_reply, 10 * 1000000), S w)
  else if String.eqb (Host url) "slow.example"
  then (inl (sc_response sc_reply, 30 * 1000000), S w)
  else if String.eqb (Host url) "tie.example"
  then (inl (sc_response sc_reply, 30 * 1000000), S w)
  else if String.eqb (Host url) "tiny.example"
  then (inl (sc_response (firstn 12 sc_reply), 20 * 1000000), S w)
  else if String.eqb (Host url) "short.example"
  then (inl (sc_response (firstn 11 sc_reply), 20 * 1000000), S w)
  else (inr (ErrExternal "context deadline exceeded"), S w).

Definition sc_resolve (a : string) : (IP * Z) + error :=
  if String.eqb a "192.0.2.1:443" then inl ([xc0; x00; x02; x01], 443)
  else if String.eqb a "192.0.2.2:443" then inl ([xc0; x00; x02; x02], 443)
  else inr (ErrExternal "missing port in address").

Definition sc_ext : Externals sc_W :=
  {| MinDNSPacketSize := 12;
     MaxDNSPacketSize := 4096;
     MaxHTTPBodyLength := 4000000;
     stamps_NewServerStampFromString :=
       fun _ => inr (ErrExternal "stamps are expected to start with sdns://");
     net_ResolveUDPAddr := fun a w =>
       (match sc_resolve a with
        | inl (ip, port) => inl {| udp_IP := ip; udp_Port := port |}
        | inr e => inr e
        end, S w);
     net_ResolveTCPAddr := fun a w =>
       (match sc_resolve a with
        | inl (ip, port) => inl {| tcp_IP := ip; tcp_Port := port |}
        | inr e => inr e
        end, S w);
     rand_draw := fun w => (w, w);
     time_Now := fun w => (1000 * Second, w);
     sha256_Sum256 := fun b => firstn 32 (b ++ repeat x00 32);
     ExtractHostAndPort := fun s _ => (s, 443);
     ParseIP := fun _ => None;
     saveCachedIP := fun _ _ _ w => w;
     DoHQuery := sc_DoHQuery;
     FetchCurrentDNSCryptCert := fun _ _ _ _ _ _ _ _ _ w =>
       (inr (ErrExternal "no certificate"), S w) |}.

Definition sc_stamp (host : string) : ServerStamp :=
  {| ServerAddrStr := ""; ServerPk := []; Hashes := [];
     ProviderName := host; Path := "/dns-query";
     Proto := StampProtoTypeDoH |}.

Definition sc_proxy : Proxy :=
  {| Routes := None; RegisteredRelays := []; RegisteredServers := [];
     MainProto := "udp"; Timeout := 2500 * 1000000; ShowCerts := false |}.

Definition sc_registered (name host : string) : RegisteredServer :=
  {| Name := name; Stamp := sc_stamp host; Description := "" |}.

(** A registry of four, the first of which is down. *)
Definition sc_pool : ServersInfo VariableEWMA :=
  {| inner := [];
     registeredServers :=
       [sc_registered "down" "down.example";
        sc_registered "slow" "slow.example";
        sc_registered "fast" "fast.example";
        sc_registered "tie" "tie.example"];
     LBStrategy_ := DefaultLBStrategy; LBEstimator := true |}.

(** A registry whose failing entry comes before a live one. *)
Definition sc_pool_down_first : ServersInfo VariableEWMA :=
  {| inner := [];
     registeredServers :=
       [sc_registered "down" "down.example";
        sc_registered "fast" "fast.example"];
     LBStrategy_ := DefaultLBStrategy; LBEstimator := true |}.

(** A live server with a measured average. *)
Definition sc_live {MA : Type} `{MovingAverage MA} (name : string)
  (value : Q) (last : Time) : ServerInfo MA :=
  {| si_Proto := StampProtoTypeDoH; MagicQuery := []; si_ServerPk := [];
     SharedKey := []; CryptoConstruction := 0; si_Name := name;
     si_Timeout := 2500 * 1000000; si_URL := None; HostName := name;
     UDPAddr_ := None; TCPAddr_ := None;
     RelayUDPAddr := None; RelayTCPAddr := None;
     lastActionTS := last;
     rtt := Some (ewma_Set (ewma_NewMovingAverage RTTEwmaDecay) value);
     initialRtt := 0; useGet := false |}.

(** Two live servers with averages 10 and 200, the second one idle for
    two minutes. *)
Definition sc_two {MA : Type} `{MovingAverage MA} : list (ServerInfo MA) :=
  [sc_live "best" 10%Q (1000 * Second);
   sc_live "laggard" 200%Q (880 * Second)].

(** A route through a relay whose name is in both registries. *)
Definition sc_relay_stamp : ServerStamp :=
  {| ServerAddrStr := "192.0.2.1:443"; ServerPk := []; Hashes := [];
     ProviderName := ""; Path := ""; Proto := StampProtoTypeDNSCryptRelay |}.

Definition sc_server_stamp : ServerStamp :=
  {| ServerAddrStr := "192.0.2.2:443"; ServerPk := []; Hashes := [];
     ProviderName := "2.dnscrypt-cert.example"; Path := "";
     Proto := StampProtoTypeDNSCrypt |}.

Definition sc_routed_proxy : Proxy :=
  {| Routes := Some (fun name =>
                 if String.eqb name "resolver" then Some ["anon"] else None);
     RegisteredRelays :=
       [{| Name := "anon"; Stamp := sc_relay_stamp; Description := "" |}];
     RegisteredServers :=
       [{| Name := "anon"; Stamp := sc_server_stamp; Description := "" |}];
     MainProto := "udp"; Timeout := 2500 * 1000000; ShowCerts := false |}.

(** Modules that count their evaluations in the world: one lets the
    query pass, one rejects it, one fails. *)
Definition sc_pass : Plugin sc_W :=
  {| plugin_Name := "pass";
     Eval := fun s _ h w => ((s, h, None), S w) |}.

Definition sc_reject : Plugin sc_W :=
  {| plugin_Name := "reject";
     Eval := fun s _ h w =>
       ((with_action s PluginsActionReject, h, None), S w) |}.

Definition sc_fail : Plugin sc_W :=
  {| plugin_Name := "fail";
     Eval := fun s _ h w => ((s, h, Some (ErrExternal "disk full")), S w) |}.

Definition sc_question : DnsQuestion :=
  {| q_Name := "example.com."; Qtype := 1; Qclass := 1 |}.

(** A message with as many questions as the sixth byte of the packet
    says. *)
Definition sc_dns : DnsExternals :=
  {| dns_Unpack := fun p =>
       match nth_error p 5 with
       | Some c =>
         inl {| msg_Id := 0; msg_Rcode := 0;
                Question := repeat sc_question (N.to_nat (Byte.to_N c));
                Answer := [] |}
       | None => inr (ErrExternal "dns: overflow unpacking uint16")
       end;
     dns_PackBuffer := fun _ p => inl p;
     HasTCFlag := fun _ => false;
     Rcode := fun _ => 0;
     setMaxTTL := fun m _ => m;
     RefusedResponseFromMessage := fun m _ _ _ _ => inl m |}.

Definition sc_state : PluginsState :=
  {| sessionData := []; action := PluginsActionForward;
     maxUnencryptedUDPSafePayloadSize := 1252;
     originalMaxPayloadSize := 0; maxPayloadSize := 3840;
     clientProto := "udp"; clientAddr := None; synthResponse := None;
     dnssec := false; cacheSize := 0;
     cacheNegMinTTL := 0; cacheNegMaxTTL := 0;
     cacheMinTTL := 0; cacheMaxTTL := 0; rejectTTL := 600;
     questionMsg := None; requestStart := 0; requestEnd := 0;
     cacheHit := false; returnCode := PluginsReturnCodePass;
     serverName := "" |}.

Definition sc_globals (query response logging : list (Plugin sc_W))
  : PluginsGlobals sc_W :=
  {| queryPlugins := query; responsePlugins := response;
     loggingPlugins := logging; refusedCodeInResponses := true;
     respondWithIPv4 := None; respondWithIPv6 := None |}.

(** A parsed message without a question, and a state that points to it. *)
Definition sc_no_question : Msg :=
  {| msg_Id := 0; msg_Rcode := 0; Question := []; Answer := [] |}.

Definition sc_logged_state : PluginsState :=
  with_questionMsg sc_state (Some 0%nat).

(** A pool in which the server that is down is live from an earlier
    refresh. *)
Definition sc_pool_down_live : ServersInfo VariableEWMA :=
  {| inner := [sc_live "down" 25%Q 0];
     registeredServers := [sc_registered "down" "down.example"];
     LBStrategy_ := DefaultLBStrategy; LBEstimator := true |}.

(** ** serversInfo.go: selection and feedback *)

(** Modelled from the spec: [Min] and [Max], the repository's minimum
    and maximum on ints, which section 4.1 uses for the bounds of the
    strategies ([min(n,2)], [max(min(n,2), n/2)]); they live in a file
    that is not part of the sources at hand. Counts are never negative
    and are natural numbers here. *)
Definition Min (a b : nat) : nat := if (a <? b)%nat then a else b.
Definition Max (a b : nat) : nat := if (b <? a)%nat then a else b.

Definition with_lastActionTS {MA : Type} (s : ServerInfo MA) (t : Time)
  : ServerInfo MA :=
  {| si_Proto := si_Proto s; MagicQuery := MagicQuery s;
     si_ServerPk := si_ServerPk s; SharedKey := SharedKey s;
     CryptoConstruction := CryptoConstruction s; si_Name := si_Name s;
     si_Timeout := si_Timeout s; si_URL := si_URL s; HostName := HostName s;
     UDPAddr_ := UDPAddr_ s; TCPAddr_ := TCPAddr_ s;
     RelayUDPAddr := RelayUDPAddr s; RelayTCPAddr := RelayTCPAddr s;
     lastActionTS := t; rtt := rtt s;
     initialRtt := initialRtt s; useGet := useGet s |}.

Section SelectionGo.

Context {W : Type} (ext : Externals W).
Context {MA : Type} `{MovingAverage MA}.

Local Open Scope world_scope.

(** Lines 202-212 of [getOne]: the index drawn for a strategy in a pool
    of [serversCount] servers. *)
Definition getOneCandidate (strategy : LBStrategy) (serversCount : nat)
  : M W nat :=
  match strategy with
  | LBStrategyFirst => ret 0%nat
  | LBStrategyPH =>
    rand_Intn ext (Max (Min serversCount 2) (serversCount / 2))
  | LBStrategyRandom => rand_Intn ext serversCount
  | _ => rand_Intn ext (Min serversCount 2)
  end.

(** [getOne]: the server chosen ([None] for nil) and the pool as the
    estimator leaves it. The pointer returned is the one in the slot. *)
Definition getOne (serversInfo : ServersInfo MA)
  : M W (option (ServerInfo MA) * ServersInfo MA) :=
  let serversCount := List.length (inner serversInfo) in
  if (serversCount <=? 0)%nat then ret (None, serversInfo)
  else
    serversInfo <-
      (if LBEstimator serversInfo then estimatorUpdate ext serversInfo
       else ret serversInfo) ;;
    candidate <- getOneCandidate (LBStrategy_ serversInfo) serversCount ;;
    serverInfo <- index (inner serversInfo) candidate ;;
    ret (Some serverInfo, serversInfo).


Definition noticeBegin (serverInfo : ServerInfo MA) (proxy : Proxy)
  : M W (ServerInfo MA) :=
  now <- lift (time_Now ext) ;;
  ret (with_lastActionTS serverInfo now).

Definition noticeSuccess (serverInfo : ServerInfo MA) (proxy : Proxy)
  : M W (ServerInfo MA) :=
  now <- lift (time_Now ext) ;;
  let elapsed := time_Sub now (lastActionTS serverInfo) in
  let elapsedMs := milliseconds elapsed in
  if (elapsedMs >? 0) && (elapsed <? Timeout proxy)
  then rttAdd serverInfo (inject_Z elapsedMs)
  else ret serverInfo.

End SelectionGo.

(** ** More vocabulary *)

(** A computation that never ends the process, in whatever world. *)
Definition never_exits {W A : Type} (m : M W A) : Prop :=
  forall w, m w <> Exits.

(** A byte that [hex.DecodeString] takes for a digit. *)
Definition isHexDigit (c : byte) : bool :=
  match fromHexChar c with
  | Some _ => true
  | None => false
  end.

(** A public key of a stamp that [fetchDNSCryptServerInfo] accepts: 32
    raw bytes, or 64 hex digits once the colons are taken out. *)
Definition acceptableServerPk (pk : bytes) : Prop :=
  len pk = 32 \/
  (List.length (removeColons pk) = 64%nat /\
   forallb isHexDigit (removeColons pk) = true).

(** A server without its average: what the estimator must not touch. *)
Definition sansRtt {MA : Type} (s : ServerInfo MA) : ServerInfo MA :=
  with_rtt s None.

(** The bound of the draw of a strategy in a pool of [n] servers. *)
Definition strategyBound (strategy : LBStrategy) (n : nat) : nat :=
  match strategy with
  | LBStrategyFirst => 1
  | LBStrategyPH => Nat.max (Nat.min n 2) (n / 2)
  | LBStrategyRandom => n
  | _ => Nat.min n 2
  end.

(** The relay list that [route] finds for a server: under its own name,
    else under the wildcard. *)
Definition routeOf (proxy : Proxy) (name : string) : option (list string) :=
  match Routes proxy with
  | None => None
  | Some routes =>
    match routes name with
    | Some relayNames => Some relayNames
    | None => routes "*"
    end
  end.

(** An evaluation after which a stage goes on to the next module. *)
Definition passes {W : Type} (ev : Evaluation W) : Prop :=
  ev_err ev = None /\ ev_action ev = PluginsActionForward.

(** A stage that ran until it had a cause to stop: it evaluated every
    module of the sequence and each one passed, or it evaluated the
    first modules of the sequence, the last module it evaluated did not
    pass and all before it did. *)
Definition ran_until_cause {W : Type} (plugins : list (Plugin W))
  (trace : list (Evaluation W)) : Prop :=
  (map ev_plugin trace = plugins /\ Forall passes trace) \/
  (exists pre ev rest,
     trace = pre ++ [ev] /\ plugins = map ev_plugin trace ++ rest /\
     Forall passes pre /\ ~ passes ev).

(** A turn that does not let the loop go on saw an error or an action
    other than [Forward]. *)
Definition turn_stops {W : Type}
  (body : Plugin W -> PluginsState -> Heap -> W -> Evaluation W * turn W)
  : Prop :=
  forall plugin s h w seen t,
    body plugin s h w = (seen, t) ->
    (forall s' h' w', t <> TurnNext s' h' w') ->
    ~ passes seen.

(** ** plugins.go: initialisation *)

(** The plugin types that [InitPluginsGlobals] makes values of. *)
Inductive PluginKind : Type :=
| PluginQueryMeta
| PluginWhitelistName
| PluginFirefox
| PluginBlockName
| PluginBlockIPv6
| PluginCloak
| PluginGetSetPayloadSize
| PluginCache
| PluginForward
| PluginNxLog
| PluginBlockIP
| PluginCacheResponse
| PluginQueryLog.

(** [Proxy]: the fields read by [plugins.go], but for [pluginsGlobals],
    which the functions below take and give back. *)
Record PluginsProxy : Type := {
  QueryMeta : list string;
  WhitelistNameFile : string;
  BlockNameFile : string;
  PluginBlockIPv6_ : bool;
  CloakFile : string;
  Cache : bool;
  ForwardFile : string;
  NXLogFile : string;
  BlockIPFile : string;
  QueryLogFile : string;
  BlockedQueryResponse : string;
  CacheSize : Z;
  CacheNegMinTTL : Z;
  CacheNegMaxTTL : Z;
  CacheMinTTL : Z;
  CacheMaxTTL : Z;
  RejectTTL : Z
}.

(** What [plugins.go] calls and does not define, beside the DNS
    helpers: the plugin types with their [Init], which writes to the
    plugin it is called on; two string functions and the parser of IP
    addresses; three constants. *)
Record PluginLibrary (W : Type) : Type := {
  new : PluginKind -> Plugin W;
  Init : PluginKind -> Plugin W -> PluginsProxy -> W
         -> (Plugin W * option error) * W;
  strings_ToLower : string -> string;
  StringStripSpaces : string -> string;
  net_ParseIP : string -> option IP;
  MaxDNSUDPPacketSize : Z;
  ResponseOverhead : Z;
  MaxDNSUDPSafePacketSize : Z
}.

Arguments new {W} _ _.
Arguments Init {W} _ _ _ _ _.
Arguments strings_ToLower {W} _ _.
Arguments StringStripSpaces {W} _ _.
Arguments net_ParseIP {W} _ _.
Arguments MaxDNSUDPPacketSize {W} _.
Arguments ResponseOverhead {W} _.
Arguments MaxDNSUDPSafePacketSize {W} _.

(** [strings.HasPrefix], [strings.TrimPrefix], [strings.Split] on a
    comma and [strings.Trim] with the cutset of the two brackets. *)
Definition strings_HasPrefix (s prefix : string) : bool :=
  String.prefix prefix s.

Definition strings_TrimPrefix (s prefix : string) : string :=
  if strings_HasPrefix s prefix
  then String.substring (String.length prefix)
                        (String.length s - String.length prefix) s
  else s.

Fixpoint strings_SplitComma (s : string) : list string :=
  match s with
  | EmptyString => [EmptyString]
  | String c rest =>
    if Ascii.eqb c ","%char then EmptyString :: strings_SplitComma rest
    else match strings_SplitComma rest with
         | [] => [String c EmptyString]
         | first :: others => String c first :: others
         end
  end.

Definition isBracket (c : ascii) : bool :=
  Ascii.eqb c "["%char || Ascii.eqb c "]"%char.

Fixpoint trimLeftBrackets (s : string) : string :=
  match s with
  | EmptyString => EmptyString
  | String c rest => if isBracket c then trimLeftBrackets rest else s
  end.

Fixpoint trimRightBrackets (s : string) : string :=
  match s with
  | EmptyString => EmptyString
  | String c rest =>
    match trimRightBrackets rest with
    | EmptyString => if isBracket c then EmptyString
                     else String c EmptyString
    | kept => String c kept
    end
  end.

Definition strings_TrimBrackets (s : string) : string :=
  trimRightBrackets (trimLeftBrackets s).

Section PluginsInitGo.

Context {W : Type} (lib : PluginLibrary W).

(** Lines 159-203. The notices are not modelled. *)
Definition parseBlockedQueryResponse (blockedResponse : string)
  (pluginsGlobals : PluginsGlobals W) : PluginsGlobals W :=
  let blockedResponse :=
    StringStripSpaces lib (strings_ToLower lib blockedResponse) in
  if strings_HasPrefix blockedResponse "a:" then
    let blockedIPStrings := strings_SplitComma blockedResponse in
    let respondWithIPv4_ :=
      net_ParseIP lib (strings_TrimPrefix (nth 0 blockedIPStrings "") "a:") in
    match respondWithIPv4_ with
    | None =>
      {| queryPlugins := queryPlugins pluginsGlobals;
         responsePlugins := responsePlugins pluginsGlobals;
         loggingPlugins := loggingPlugins pluginsGlobals;
         refusedCodeInResponses := false;
         respondWithIPv4 := None;
         respondWithIPv6 := respondWithIPv6 pluginsGlobals |}
    | Some _ =>
      let respondWithIPv6_ :=
        if len blockedIPStrings >? 1 then
          if strings_HasPrefix (nth 1 blockedIPStrings "") "aaaa:" then
            let ipv6Response :=
              strings_TrimPrefix (nth 1 blockedIPStrings "") "aaaa:" in
            let ipv6Response :=
              if strings_HasPrefix ipv6Response "["
              then strings_TrimBrackets ipv6Response
              else ipv6Response in
            net_ParseIP lib ipv6Response
          else respondWithIPv6 pluginsGlobals
        else respondWithIPv6 pluginsGlobals in
      let respondWithIPv6_ :=
        match respondWithIPv6_ with
        | None => respondWithIPv4_
        | Some ip => Some ip
        end in
      {| queryPlugins := queryPlugins pluginsGlobals;
         responsePlugins := responsePlugins pluginsGlobals;
         loggingPlugins := loggingPlugins pluginsGlobals;
         refusedCodeInResponses := refusedCodeInResponses pluginsGlobals;
         respondWithIPv4 := respondWithIPv4_;
         respondWithIPv6 := respondWithIPv6_ |}
    end
  else
    {| queryPlugins := queryPlugins pluginsGlobals;
       responsePlugins := responsePlugins pluginsGlobals;
       loggingPlugins := loggingPlugins pluginsGlobals;
       refusedCodeInResponses := String.eqb blockedResponse "refused";
       respondWithIPv4 := respondWithIPv4 pluginsGlobals;
       respondWithIPv6 := respondWithIPv6 pluginsGlobals |}.

(** An [append] to the sequence under a condition. *)
Definition appendIf (condition : bool) (plugins : list PluginKind)
  (kind : PluginKind) : list PluginKind :=
  if condition then plugins ++ [kind] else plugins.

(** Lines 89-115 *)
Definition queryKinds (proxy : PluginsProxy) : list PluginKind :=
  let queryPlugins := [] in
  let queryPlugins :=
    appendIf (negb (len (QueryMeta proxy) =? 0)) queryPlugins
             PluginQueryMeta in
  let queryPlugins :=
    appendIf (negb (strlen (WhitelistNameFile proxy) =? 0)) queryPlugins
             PluginWhitelistName in
  let queryPlugins := queryPlugins ++ [PluginFirefox] in
  let queryPlugins :=
    appendIf (negb (strlen (BlockNameFile proxy) =? 0)) queryPlugins
             PluginBlockName in
  let queryPlugins :=
    appendIf (PluginBlockIPv6_ proxy) queryPlugins PluginBlockIPv6 in
  let queryPlugins :=
    appendIf (negb (strlen (CloakFile proxy) =? 0)) queryPlugins
             PluginCloak in
  let queryPlugins := queryPlugins ++ [PluginGetSetPayloadSize] in
  let queryPlugins := appendIf (Cache proxy) queryPlugins PluginCache in
  appendIf (negb (strlen (ForwardFile proxy) =? 0)) queryPlugins
           PluginForward.

(** Lines 117-126 *)
Definition responseKinds (proxy : PluginsProxy) : list PluginKind :=
  let responsePlugins := [] in
  let responsePlugins :=
    appendIf (negb (strlen (NXLogFile proxy) =? 0)) responsePlugins
             PluginNxLog in
  let responsePlugins :=
    appendIf (negb (strlen (BlockIPFile proxy) =? 0)) responsePlugins
             PluginBlockIP in
  appendIf (Cache proxy) responsePlugins PluginCacheResponse.

(** Lines 128-131 *)
Definition loggingKinds (proxy : PluginsProxy) : list PluginKind :=
  appendIf (negb (strlen (QueryLogFile proxy) =? 0)) [] PluginQueryLog.

(** One of the loops of lines 133-147: [Init] on each plugin in order,
    up to the first error; the plugins as [Init] left them. *)
Fixpoint initLoop (proxy : PluginsProxy)
  (plugins : list (PluginKind * Plugin W)) (w : W)
  : (list (Plugin W) + error) * W :=
  match plugins with
  | [] => (inl [], w)
  | (kind, plugin) :: rest =>
    let '(plugin, err, w) := Init lib kind plugin proxy w in
    match err with
    | Some err => (inr err, w)
    | None =>
      let (initialised, w) := initLoop proxy rest w in
      (match initialised with
       | inl plugins => inl (plugin :: plugins)
       | inr err => inr err
       end, w)
    end
  end.

Definition InitPluginsGlobals (proxy : PluginsProxy)
  (pluginsGlobals : PluginsGlobals W) (w : W)
  : (PluginsGlobals W * option error) * W :=
  let fresh := map (fun kind => (kind, new lib kind)) in
  let queryPlugins := fresh (queryKinds proxy) in
  let responsePlugins := fresh (responseKinds proxy) in
  let loggingPlugins := fresh (loggingKinds proxy) in
  match initLoop proxy queryPlugins w with
  | (inr err, w) => ((pluginsGlobals, Some err), w)
  | (inl queryPlugins, w) =>
    match initLoop proxy responsePlugins w with
    | (inr err, w) => ((pluginsGlobals, Some err), w)
    | (inl responsePlugins, w) =>
      match initLoop proxy loggingPlugins w with
      | (inr err, w) => ((pluginsGlobals, Some err), w)
      | (inl loggingPlugins, w) =>
        ((parseBlockedQueryResponse (BlockedQueryResponse proxy)
            {| queryPlugins := queryPlugins;
               responsePlugins := responsePlugins;
               loggingPlugins := loggingPlugins;
               refusedCodeInResponses :=
                 refusedCodeInResponses pluginsGlobals;
               respondWithIPv4 := respondWithIPv4 pluginsGlobals;
               respondWithIPv6 := respondWithIPv6 pluginsGlobals |},
          None), w)
      end
    end
  end.

(** Lines 214-230 *)
Definition NewPluginsState (proxy : PluginsProxy) (clientProto_ : string)
  (clientAddr_ : option string) (start : Time) : PluginsState :=
  {| sessionData := [];
     action := PluginsActionForward;
     maxUnencryptedUDPSafePayloadSize := MaxDNSUDPSafePacketSize lib;
     originalMaxPayloadSize := 0;
     maxPayloadSize := MaxDNSUDPPacketSize lib - ResponseOverhead lib;
     clientProto := clientProto_;
     clientAddr := clientAddr_;
     synthResponse := None;
     dnssec := false;
     cacheSize := CacheSize proxy;
     cacheNegMinTTL := CacheNegMinTTL proxy;
     cacheNegMaxTTL := CacheNegMaxTTL proxy;
     cacheMinTTL := CacheMinTTL proxy;
     cacheMaxTTL := CacheMaxTTL proxy;
     rejectTTL := RejectTTL proxy;
     questionMsg := None;
     requestStart := start;
     requestEnd := 0;
     cacheHit := false;
     returnCode := PluginsReturnCodePass;
     serverName := "" |}.

End PluginsInitGo.

(** The place of a plugin type in the order of lines 89-131. *)
Definition kindRank (kind : PluginKind) : nat :=
  match kind with
  | PluginQueryMeta => 0
  | PluginWhitelistName => 1
  | PluginFirefox => 2
  | PluginBlockName => 3
  | PluginBlockIPv6 => 4
  | PluginCloak => 5
  | PluginGetSetPayloadSize => 6
  | PluginCache => 7
  | PluginForward => 8
  | PluginNxLog => 9
  | PluginBlockIP => 10
  | PluginCacheResponse => 11
  | PluginQueryLog => 12
  end.

(** The blocked-response policy never has an IPv4 answer without an
    IPv6 one. *)
Definition ipv4_has_ipv6 {W : Type} (pluginsGlobals : PluginsGlobals W)
  : Prop :=
  respondWithIPv4 pluginsGlobals <> None ->
  respondWithIPv6 pluginsGlobals <> None.

(** Calls of [registerServer] for a list of servers, one after the
    other. *)
Definition registerAll {MA : Type} (serversInfo : ServersInfo MA)
  (servers : list (string * ServerStamp)) : ServersInfo MA :=
  fold_left (fun serversInfo server =>
               fst (registerServer serversInfo (fst server) (snd server)))
            servers serversInfo.

(** A pool in which every server has its average: [rtt] is not nil. *)
Definition measured {MA : Type} (pool : list (ServerInfo MA)) : Prop :=
  Forall (fun server => rtt server <> None) pool.

(** ** The small world, continued *)

(** The externals of the small world with a clock that is 15
    milliseconds later at each reading. *)
Definition sc_ticking_ext : Externals sc_W :=
  {| MinDNSPacketSize := MinDNSPacketSize sc_ext;
     MaxDNSPacketSize := MaxDNSPacketSize sc_ext;
     MaxHTTPBodyLength := MaxHTTPBodyLength sc_ext;
     stamps_NewServerStampFromString :=
       stamps_NewServerStampFromString sc_ext;
     net_ResolveUDPAddr := net_ResolveUDPAddr sc_ext;
     net_ResolveTCPAddr := net_ResolveTCPAddr sc_ext;
     rand_draw := rand_draw sc_ext;
     time_Now := fun w =>
       (1000 * Second + Z.of_nat w * (15 * 1000000), S w);
     sha256_Sum256 := sha256_Sum256 sc_ext;
     ExtractHostAndPort := ExtractHostAndPort sc_ext;
     ParseIP := ParseIP sc_ext;
     saveCachedIP := saveCachedIP sc_ext;
     DoHQuery := DoHQuery sc_ext;
     FetchCurrentDNSCryptCert := FetchCurrentDNSCryptCert sc_ext |}.

(** A pool with the two live servers, registered, under the strategy
    [P2], with the estimator on or off. *)
Definition sc_served (estimator : bool) : ServersInfo VariableEWMA :=
  {| inner := sc_two;
     registeredServers :=
       [sc_registered "best" "best.example";
        sc_registered "laggard" "laggard.example"];
     LBStrategy_ := LBStrategyP2; LBEstimator := estimator |}.

(** A stamp with one pin of four bytes. *)
Definition sc_short_pin_stamp : ServerStamp :=
  {| ServerAddrStr := ""; ServerPk := [];
     Hashes := [[x11; x11; x11; x11]];
     ProviderName := "fast.example"; Path := "/dns-query";
     Proto := StampProtoTypeDoH |}.

(** The plugins of the small world: every type gives the plugin that
    lets the query pass; [Init] counts in the world and fails for the
    cloaking plugin when the file of cloaking rules is [missing.txt];
    the options are in lower case and without spaces already; two
    addresses parse. *)
Definition sc_lib : PluginLibrary sc_W :=
  {| new := fun _ => sc_pass;
     Init := fun kind plugin proxy w =>
       ((plugin,
         match kind with
         | PluginCloak =>
           if String.eqb (CloakFile proxy) "missing.txt"
           then Some (ErrExternal
                        "open missing.txt: no such file or directory")
           else None
         | _ => None
         end), S w);
     strings_ToLower := fun s => s;
     StringStripSpaces := fun s => s;
     net_ParseIP := fun s =>
       if String.eqb s "192.0.2.1" then Some [xc0; x00; x02; x01]
       else if String.eqb s "2001:db8::1"
       then Some [x20; x01; x0d; xb8; x00; x00; x00; x00;
                  x00; x00; x00; x00; x00; x00; x00; x01]
       else None;
     MaxDNSUDPPacketSize := 4096;
     ResponseOverhead := 256;
     MaxDNSUDPSafePacketSize := 1252 |}.

(** A configuration with a block list, the cache and a query log, and
    the given file of cloaking rules. *)
Definition sc_plugins_proxy (cloakFile : string) : PluginsProxy :=
  {| QueryMeta := []; WhitelistNameFile := "";
     BlockNameFile := "blocked.txt"; PluginBlockIPv6_ := false;
     CloakFile := cloakFile; Cache := true; ForwardFile := "";
     NXLogFile := ""; BlockIPFile := ""; QueryLogFile := "query.log";
     BlockedQueryResponse := "a:192.0.2.1,aaaa:[2001:db8::1]";
     CacheSize := 512; CacheNegMinTTL := 60; CacheNegMaxTTL := 600;
     CacheMinTTL := 60; CacheMaxTTL := 86400; RejectTTL := 600 |}.

(** A packet of six bytes that announces one question, and one of two
    bytes that does not parse. *)
Definition sc_packet : bytes := [x00; x00; x01; x00; x00; x01].

Definition sc_truncated_packet : bytes := [x00; x00].

(** * Properties *)

(** ** Tactics *)

(** Division by two, in the form linear arithmetic takes. *)
Ltac halves :=
  unfold Qdiv in *; change (/ 2)%Q with (1 # 2)%Q in *.

(** A closed comparison of numbers, by computation. *)
Ltac by_computation :=
  vm_compute; solve [reflexivity | discriminate | intro; discriminate].

(** ** The monad and the comparisons *)

Lemma bind_Returns {W A B : Type} (m : M W A) (k : A -> M W B) (w : W)
  (b : B) (w' : W) :
  bind m k w = Returns (b, w') ->
  exists a w1, m w = Returns (a, w1) /\ k a w1 = Returns (b, w').
Proof.
  unfold bind. destruct (m w) as [[a w1]| |]; try discriminate.
  intros Hk. exists a, w1. split; [reflexivity | exact Hk].
Qed.

Lemma bind_eq {W A B : Type} (m : M W A) (k : A -> M W B) (w : W)
  (a : A) (w1 : W) :
  m w = Returns (a, w1) -> bind m k w = k a w1.
Proof. unfold bind. intros ->. reflexivity. Qed.

Lemma Qlt_bool_true (x y : Q) : Qlt_bool x y = true <-> (x < y)%Q.
Proof.
  unfold Qlt_bool. rewrite negb_true_iff. split.
  - intros Hb. apply Qnot_le_lt. intros Hle.
    apply Qle_bool_iff in Hle. congruence.
  - intros Hlt. destruct (Qle_bool y x) eqn:Hb; [| reflexivity].
    apply Qle_bool_iff in Hb. exfalso. exact (Qlt_not_le _ _ Hlt Hb).
Qed.

Lemma Qlt_bool_false (x y : Q) : Qlt_bool x y = false <-> (y <= x)%Q.
Proof.
  unfold Qlt_bool. rewrite negb_false_iff. apply Qle_bool_iff.
Qed.

Lemma last_cons {A : Type} (l : list A) (a d : A) :
  last (a :: l) d = last l a.
Proof.
  revert a d. induction l as [| b l IH]; intros a d; [reflexivity |].
  change (last (a :: b :: l) d) with (last (b :: l) d).
  rewrite (IH b d), (IH b a). reflexivity.
Qed.

(** ** The stable sort *)

Section StableSort.

Context {A : Type} (key : A -> Z).

Local Abbreviation less := (fun a b : A => key a <? key b).
Local Abbreviation ascending := (fun a b : A => key a <= key b).

Lemma insertStable_perm (x : A) (l : list A) :
  Permutation (x :: l) (insertStable less x l).
Proof.
  induction l as [| y l IH]; simpl; [apply Permutation_refl |].
  destruct (key y <? key x).
  - eapply perm_trans; [apply perm_swap |]. apply perm_skip. exact IH.
  - apply Permutation_refl.
Qed.

Lemma sort_SliceStable_perm (l : list A) :
  Permutation l (sort_SliceStable less l).
Proof.
  induction l as [| x l IH]; simpl; [apply perm_nil |].
  eapply perm_trans; [apply perm_skip; exact IH |].
  apply insertStable_perm.
Qed.

Lemma insertStable_sorted (x : A) (l : list A) :
  StronglySorted ascending l ->
  StronglySorted ascending (insertStable less x l).
Proof.
  induction 1 as [| y l Hs IH Hall]; simpl.
  - constructor; constructor.
  - destruct (key y <? key x) eqn:Hlt.
    + constructor; [exact IH |].
      apply Z.ltb_lt in Hlt.
      eapply Permutation_Forall; [apply insertStable_perm |].
      constructor; [lia | exact Hall].
    + apply Z.ltb_ge in Hlt.
      constructor; [constructor; assumption |].
      constructor; [exact Hlt |].
      eapply Forall_impl; [| exact Hall].
      simpl. intros z Hz. lia.
Qed.

Lemma sort_SliceStable_sorted (l : list A) :
  StronglySorted ascending (sort_SliceStable less l).
Proof.
  induction l as [| x l IH]; simpl; [constructor |].
  apply insertStable_sorted. exact IH.
Qed.

Lemma insertStable_filter (k : Z) (x : A) (l : list A) :
  filter (fun a => key a =? k) (insertStable less x l)
  = filter (fun a => key a =? k) (x :: l).
Proof.
  induction l as [| y l IH]; [reflexivity |].
  simpl insertStable. destruct (key y <? key x) eqn:Hlt; [| reflexivity].
  apply Z.ltb_lt in Hlt.
  simpl filter at 1. rewrite IH. simpl.
  destruct (key y =? k) eqn:Hy; destruct (key x =? k) eqn:Hx;
    try reflexivity.
  apply Z.eqb_eq in Hy. apply Z.eqb_eq in Hx. lia.
Qed.

Lemma sort_SliceStable_stable (k : Z) (l : list A) :
  filter (fun a => key a =? k) (sort_SliceStable less l)
  = filter (fun a => key a =? k) l.
Proof.
  induction l as [| x l IH]; [reflexivity |].
  simpl sort_SliceStable. rewrite insertStable_filter.
  simpl. rewrite IH. reflexivity.
Qed.

End StableSort.

(** ** The registry and the refresh cycle *)

Section PoolProperties.

Context {W : Type} (ext : Externals W).
Context {MA : Type} `{MovingAverage MA}.

(** [registerServer] keeps the names of the registry apart: it replaces
    the entry of a name that is there and appends only a name that is
    not. *)
Lemma registerReplace_names (registered : list RegisteredServer)
  (name : string) (stamp : ServerStamp) (replaced : list RegisteredServer) :
  registerReplace registered name
    {| Name := name; Stamp := stamp; Description := "" |} = Some replaced ->
  map Name replaced = map Name registered.
Proof.
  revert replaced. induction registered as [| r rest IH]; intros replaced.
  - discriminate.
  - simpl. destruct (String.eqb (Name r) name) eqn:Hn.
    + intros [= <-]. apply String.eqb_eq in Hn. simpl. congruence.
    + destruct (registerReplace rest name _) as [rest' |] eqn:Hr;
        [| discriminate].
      intros [= <-]. simpl. f_equal. apply IH. reflexivity.
Qed.

Lemma registerReplace_None (registered : list RegisteredServer)
  (name : string) (new : RegisteredServer) :
  registerReplace registered name new = None ->
  ~ In name (map Name registered).
Proof.
  induction registered as [| r rest IH]; simpl; [tauto |].
  destruct (String.eqb (Name r) name) eqn:Hn; [discriminate |].
  destruct (registerReplace rest name new); [discriminate |].
  intros _ [Heq | Hin].
  - apply String.eqb_neq in Hn. contradiction.
  - apply IH; [reflexivity | exact Hin].
Qed.

Lemma registerServer_keeps_names_apart (serversInfo : ServersInfo MA)
  (name : string) (stamp : ServerStamp) :
  NoDup (map Name (registeredServers serversInfo)) ->
  NoDup (map Name (registeredServers
                     (fst (registerServer serversInfo name stamp)))).
Proof.
  intros Hnd. unfold registerServer.
  destruct (registerReplace _ name _) as [replaced |] eqn:Hr; simpl.
  - rewrite (registerReplace_names _ _ _ _ Hr). exact Hnd.
  - rewrite map_app. simpl.
    apply registerReplace_None in Hr.
    apply NoDup_rev in Hnd. rewrite <- (rev_involutive (_ ++ _)).
    apply NoDup_rev. rewrite rev_app_distr. simpl.
    constructor; [| exact Hnd].
    rewrite <- in_rev. exact Hr.
Qed.

(** C8. A failed fetch leaves the pool alone: when [fetchServerInfo]
    returns an error for the name and the stamp, [refreshServer] returns
    this error and the very [ServersInfo] it was given, live pool and
    registry; a live entry of that name is thus kept as it was. *)
Theorem refreshServer_failure_is_atomic (proxy : Proxy)
  (serversInfo : ServersInfo MA) (name : string) (stamp : ServerStamp)
  (err : error) (w w' : W) :
  fetchServerInfo (MA := MA) ext proxy name stamp
    (isNewServer (inner serversInfo) name) w = Returns (inr err, w') ->
  refreshServer ext proxy serversInfo name stamp w
  = Returns ((serversInfo, Some err), w').
Proof.
  intros Hfetch. unfold refreshServer.
  rewrite (bind_eq _ _ _ _ _ Hfetch). reflexivity.
Qed.

Lemma refreshLoop_attempts (proxy : Proxy) (snapshot : list RegisteredServer) :
  forall (serversInfo : ServersInfo MA) (live0 : Z) (err0 : option error)
         (w : W) (serversInfo' : ServersInfo MA) (live : Z)
         (err : option error) (w' : W),
    refreshLoop ext proxy snapshot serversInfo live0 err0 w
    = Returns ((serversInfo', live, err), w') ->
    exists errs,
      refreshAttempts ext proxy snapshot serversInfo w = Returns (errs, w') /\
      List.length errs = List.length snapshot /\
      live = live0 + succeeded errs /\
      err = last errs err0.
Proof.
  induction snapshot as [| r rest IH];
    intros serversInfo live0 err0 w serversInfo' live err w' Hloop.
  - cbn in Hloop. injection Hloop as <- <- <- <-.
    exists []. cbn. repeat split. unfold succeeded, len. simpl. lia.
  - simpl in Hloop. apply bind_Returns in Hloop.
    destruct Hloop as ([s1 e1] & w1 & Hone & Hrest).
    apply IH in Hrest. destruct Hrest as (errs & Hatt & Hlen & Hlive & Herr).
    exists (e1 :: errs). repeat split.
    + simpl. rewrite (bind_eq _ _ _ _ _ Hone).
      rewrite (bind_eq _ _ _ _ _ Hatt). reflexivity.
    + simpl. congruence.
    + rewrite Hlive. unfold succeeded, len. simpl.
      destruct e1; simpl; lia.
    + rewrite last_cons. exact Herr.
Qed.

(** C2, as the code has it. [refresh] returns the number of attempts
    that succeeded and the error of the last attempt, be it nil: the
    error of an attempt is lost when a later attempt succeeds, and the
    error returned is not nil exactly when the attempt for the last
    entry of the registry fails. *)
Theorem refresh_returns_last_attempt (proxy : Proxy)
  (serversInfo serversInfo' : ServersInfo MA) (liveServers : Z)
  (err : option error) (w w' : W) :
  refresh ext proxy serversInfo w
  = Returns ((serversInfo', liveServers, err), w') ->
  exists errs,
    refreshAttempts ext proxy (registeredServers serversInfo) serversInfo w
    = Returns (errs, w') /\
    List.length errs = List.length (registeredServers serversInfo) /\
    liveServers = succeeded errs /\
    err = last errs None.
Proof.
  unfold refresh. intros Hrun. apply bind_Returns in Hrun.
  destruct Hrun as ([[s1 live1] err1] & w1 & Hloop & Hret).
  cbn in Hret. injection Hret as <- <- <- <-.
  apply refreshLoop_attempts in Hloop.
  destruct Hloop as (errs & Hatt & Hlen & Hlive & Herr).
  exists errs. repeat split; assumption.
Qed.

(** C5. Whatever the attempts of a [refresh] did, [refresh] goes on to
    the sort and returns what the attempts counted, and the live pool it
    leaves is the pool of the attempts sorted by [initialRtt]: in
    ascending order, with the same servers, and with the servers of
    equal [initialRtt] in the order they had before the sort. *)
Theorem refresh_sorts_live_pool (proxy : Proxy)
  (serversInfo attempted : ServersInfo MA) (liveServers : Z)
  (err : option error) (w w' : W) :
  refreshLoop ext proxy (registeredServers serversInfo) serversInfo 0 None w
  = Returns ((attempted, liveServers, err), w') ->
  exists serversInfo',
    refresh ext proxy serversInfo w
    = Returns ((serversInfo', liveServers, err), w') /\
    registeredServers serversInfo' = registeredServers attempted /\
    StronglySorted (fun a b => initialRtt a <= initialRtt b)
                   (inner serversInfo') /\
    Permutation (inner attempted) (inner serversInfo') /\
    forall k : Z,
      filter (fun s => initialRtt s =? k) (inner serversInfo')
      = filter (fun s => initialRtt s =? k) (inner attempted).
Proof.
  intros Hloop.
  exists (with_inner attempted
            (sort_SliceStable lessInitialRtt (inner attempted))).
  split; [unfold refresh; rewrite (bind_eq _ _ _ _ _ Hloop); reflexivity |].
  cbn [inner registeredServers with_inner]. unfold lessInitialRtt.
  split; [reflexivity |]. repeat split.
  - apply (sort_SliceStable_sorted initialRtt).
  - apply (sort_SliceStable_perm initialRtt).
  - intros k. apply (sort_SliceStable_stable initialRtt).
Qed.

End PoolProperties.

(** *** The refresh cycle in the small world *)

(** C1. One name, registered once and refreshed once with success, is
    in the registry twice: [refreshServer] appends to the registry
    whenever the name is not live yet, and does not look whether the
    registry has it, which [registerServer] does. *)
Theorem refresh_duplicates_registered_name :
  let registered :=
    fst (registerServer (@NewServersInfo VariableEWMA) "fast"
                        (sc_stamp "fast.example")) in
  map Name (registeredServers registered) = ["fast"] /\
  exists serversInfo w,
    refresh sc_ext sc_proxy registered 0%nat
    = Returns ((serversInfo, 1, None), w) /\
    map Name (registeredServers serversInfo) = ["fast"; "fast"] /\
    ~ NoDup (map Name (registeredServers serversInfo)).
Proof.
  split; [reflexivity |].
  eexists. eexists. split; [vm_compute; reflexivity |].
  split; [reflexivity |].
  cbn. intros Hnd. inversion Hnd as [| x l Hnotin _]; subst.
  apply Hnotin. left. reflexivity.
Qed.

(** The error of the first attempt is gone when the second attempt
    succeeds: one attempt of two fails and [refresh] returns a nil
    error. *)
Lemma refresh_forgets_earlier_error :
  exists serversInfo w,
    refreshAttempts sc_ext sc_proxy (registeredServers sc_pool_down_first)
                    sc_pool_down_first 0%nat
    = Returns ([Some (ErrExternal "context deadline exceeded"); None], w) /\
    refresh sc_ext sc_proxy sc_pool_down_first 0%nat
    = Returns ((serversInfo, 1, None), w).
Proof.
  eexists. eexists. split; vm_compute; reflexivity.
Qed.

Lemma refresh_returns_last_attempt_witness :
  exists serversInfo,
    refresh sc_ext sc_proxy sc_pool 0%nat
    = Returns ((serversInfo, 3, None), 8%nat) /\
    exists errs,
      refreshAttempts sc_ext sc_proxy (registeredServers sc_pool) sc_pool
                      0%nat = Returns (errs, 8%nat) /\
      List.length errs = List.length (registeredServers sc_pool) /\
      3 = succeeded errs /\
      None = last errs None.
Proof.
  eexists. split; [vm_compute; reflexivity |].
  eapply refresh_returns_last_attempt. vm_compute. reflexivity.
Defined.

Lemma refresh_sorts_live_pool_witness :
  exists attempted serversInfo,
    refreshLoop sc_ext sc_proxy (registeredServers sc_pool) sc_pool 0 None
                0%nat = Returns ((attempted, 3, None), 8%nat) /\
    map si_Name (inner attempted) = ["slow"; "fast"; "tie"] /\
    refresh sc_ext sc_proxy sc_pool 0%nat
    = Returns ((serversInfo, 3, None), 8%nat) /\
    map si_Name (inner serversInfo) = ["fast"; "slow"; "tie"] /\
    StronglySorted (fun a b => initialRtt a <= initialRtt b)
                   (inner serversInfo) /\
    Permutation (inner attempted) (inner serversInfo) /\
    forall k : Z,
      filter (fun s => initialRtt s =? k) (inner serversInfo)
      = filter (fun s => initialRtt s =? k) (inner attempted).
Proof.
  eexists.
  assert (Hloop :
    refreshLoop sc_ext sc_proxy (registeredServers sc_pool) sc_pool 0 None
                0%nat = Returns ((?[attempted], 3, None), 8%nat))
    by (vm_compute; reflexivity).
  destruct (refresh_sorts_live_pool sc_ext sc_proxy sc_pool _ _ _ _ _ Hloop)
    as (serversInfo & Hrun & _ & Hsorted & Hperm & Hstable).
  exists serversInfo.
  split; [exact Hloop |]. split; [reflexivity |].
  split; [exact Hrun |]. split; [| auto].
  assert (Hsame :
    Returns ((serversInfo, 3, None), 8%nat)
    = refresh sc_ext sc_proxy sc_pool 0%nat) by (symmetry; exact Hrun).
  vm_compute in Hsame. injection Hsame as ->. reflexivity.
Defined.

Lemma refreshServer_failure_is_atomic_witness :
  fetchServerInfo (MA := VariableEWMA) sc_ext sc_proxy "down"
    (sc_stamp "down.example")
    (isNewServer (inner sc_pool_down_live) "down") 0%nat
  = Returns (inr (ErrExternal "context deadline exceeded"), 2%nat) /\
  refreshServer sc_ext sc_proxy sc_pool_down_live "down"
                (sc_stamp "down.example") 0%nat
  = Returns ((sc_pool_down_live,
              Some (ErrExternal "context deadline exceeded")), 2%nat).
Proof.
  split; [vm_compute; reflexivity |].
  apply refreshServer_failure_is_atomic. vm_compute. reflexivity.
Defined.

(** ** The estimator *)

Lemma nth_error_update_same {A : Type} (l : list A) (i : nat) (x y : A) :
  nth_error l i = Some y -> nth_error (update l i x) i = Some x.
Proof.
  revert i. induction l as [| z l IH]; intros [| i]; simpl;
    try discriminate; auto.
Qed.

Lemma nth_error_update_other {A : Type} (l : list A) (i j : nat) (x : A) :
  i <> j -> nth_error (update l i x) j = nth_error l j.
Proof.
  revert i j. induction l as [| z l IH]; intros [| i] [| j] Hij; simpl;
    try reflexivity; try congruence.
  apply IH. congruence.
Qed.

Lemma update_split {A : Type} (l : list A) (i : nat) (x y : A) :
  nth_error l i = Some x ->
  exists l1 l2, l = l1 ++ x :: l2 /\ update l i y = l1 ++ y :: l2.
Proof.
  revert i. induction l as [| z l IH]; intros [| i]; simpl;
    try discriminate.
  - intros [= ->]. exists [], l. split; reflexivity.
  - intros Hi. destruct (IH i Hi) as (l1 & l2 & -> & Hup).
    exists (z :: l1), l2. simpl. rewrite Hup. split; reflexivity.
Qed.

Lemma swap_perm {A : Type} (l : list A) (i j : nat) :
  Permutation l (swap l i j).
Proof.
  unfold swap.
  destruct (nth_error l i) as [x |] eqn:Hi; [| apply Permutation_refl].
  destruct (nth_error l j) as [y |] eqn:Hj; [| apply Permutation_refl].
  destruct (update_split l i x y Hi) as (l1 & l2 & Hl & Hup).
  assert (Hj' : nth_error (update l i y) j = Some y).
  { destruct (Nat.eq_dec i j) as [<- | Hij].
    - eapply nth_error_update_same. exact Hi.
    - rewrite nth_error_update_other; assumption. }
  destruct (update_split (update l i y) j y x Hj') as (m1 & m2 & Hm & Hup').
  rewrite Hup'. rewrite Hup in Hm.
  assert (Hrest : Permutation (l1 ++ l2) (m1 ++ m2)).
  { apply (Permutation_cons_inv (a := y)).
    eapply perm_trans; [apply Permutation_middle |].
    rewrite Hm. apply Permutation_sym, Permutation_middle. }
  rewrite Hl.
  eapply perm_trans; [apply Permutation_sym, Permutation_middle |].
  eapply perm_trans; [apply perm_skip; exact Hrest |].
  apply Permutation_middle.
Qed.

(** The sample of the second chance is half the candidate's average
    whenever the candidate is at least four times slower. *)
Lemma second_chance_sample (c b : Q) :
  (0 < c)%Q -> (b * 4 <= c)%Q ->
  (MinF (MaxF (c / 2) (b * 2)) c == c / 2)%Q.
Proof.
  intros Hc Hb. unfold MaxF.
  destruct (Qlt_bool (b * 2) (c / 2)) eqn:Hmax; unfold MinF.
  - assert (Hlt : Qlt_bool (c / 2) c = true)
      by (apply Qlt_bool_true; halves; lra).
    rewrite Hlt. reflexivity.
  - apply Qlt_bool_false in Hmax.
    assert (Hlt : Qlt_bool (b * 2) c = true)
      by (apply Qlt_bool_true; halves; lra).
    rewrite Hlt. halves. lra.
Qed.

Section EstimatorProperties.

Context {W : Type} (ext : Externals W).
Context {MA : Type} `{MovingAverage MA}.

(** The second chance, step by step: with a best average that is not
    negative, a candidate at least four times slower and idle for more
    than a minute gets the sample added to its average, and nothing
    else in the pool moves. *)
Lemma estimatorChoose_second_chance (pool : list (ServerInfo MA))
  (candidate : nat) (c best : ServerInfo MA) (rc rb : MA) (now : Time)
  (w w' : W) :
  nth_error pool candidate = Some c -> rtt c = Some rc ->
  nth_error pool 0 = Some best -> rtt best = Some rb ->
  (0 <= ewma_Value rb)%Q ->
  (0 < ewma_Value rc)%Q ->
  (ewma_Value rb * 4 <= ewma_Value rc)%Q ->
  time_Now ext w = (now, w') ->
  time_Sub now (lastActionTS c) > 1 * Minute ->
  estimatorChoose ext pool candidate w
  = Returns
      ((update pool candidate
          (with_rtt c
             (Some (ewma_Add rc
                      (MinF (MaxF (ewma_Value rc / 2) (ewma_Value rb * 2))
                            (ewma_Value rc))))),
        true), w').
Proof.
  intros Hc Hrc Hb Hrb Hb0 Hc0 Hfour Hnow Hidle.
  assert (Hseed : Qlt_bool (ewma_Value rb) 0 = false)
    by (apply Qlt_bool_false; exact Hb0).
  assert (Hswap : Qlt_bool (ewma_Value rc) (ewma_Value rb) = false)
    by (apply Qlt_bool_false; lra).
  assert (Hpos : Qlt_bool 0 (ewma_Value rc) = true)
    by (apply Qlt_bool_true; exact Hc0).
  assert (Hslow : Qle_bool (ewma_Value rb * 4) (ewma_Value rc) = true)
    by (apply Qle_bool_iff; exact Hfour).
  assert (Hgt : (time_Sub now (lastActionTS c) >? 1 * Minute) = true)
    by (apply Z.gtb_lt; lia).
  unfold estimatorChoose, index, rttValue, rttAdd, time_Since, bind, ret.
  rewrite Hc, Hrc, Hb, Hrb, Hseed, Hswap, Hpos, Hslow. cbn [andb].
  rewrite Hc, Hnow, Hgt, Hrc. reflexivity.
Qed.


(** C4. When the candidate is not index 0, [cRtt > 0], [cRtt >= 4*bRtt]
    and the candidate was idle for more than 60 seconds, the candidate's
    average after the choice lies between [2*bRtt] and [cRtt]; it is not
    raised. The moving average is one that a lower sample pulls down and
    not below the sample. *)
Theorem estimatorUpdate_second_chance_bounds
  (pool : list (ServerInfo MA)) (candidate : nat) (c best : ServerInfo MA)
  (rc rb : MA) (now : Time) (w w' : W) :
  candidate <> 0%nat ->
  nth_error pool candidate = Some c -> rtt c = Some rc ->
  nth_error pool 0 = Some best -> rtt best = Some rb ->
  (0 < ewma_Value rc)%Q ->
  (ewma_Value rb * 4 <= ewma_Value rc)%Q ->
  time_Now ext w = (now, w') ->
  time_Sub now (lastActionTS c) > 1 * Minute ->
  averages rc ->
  exists pool' partialSort w'' c' rc',
    estimatorChoose ext pool candidate w
    = Returns ((pool', partialSort), w'') /\
    nth_error pool' candidate = Some c' /\
    rtt c' = Some rc' /\
    (ewma_Value rb * 2 <= ewma_Value rc')%Q /\
    (ewma_Value rc' <= ewma_Value rc)%Q.
Proof.
  intros Hcand Hc Hrc Hb Hrb Hc0 Hfour Hnow Hidle Havg.
  destruct (Qlt_bool (ewma_Value rb) 0) eqn:Hseed.
  - (* the best average is negative: it is seeded, nothing else moves *)
    apply Qlt_bool_true in Hseed.
    assert (Hswap : Qlt_bool (ewma_Value rc) (ewma_Value rc) = false)
      by (apply Qlt_bool_false; lra).
    assert (Hslow : Qle_bool (ewma_Value rc * 4) (ewma_Value rc) = false).
    { destruct (Qle_bool (ewma_Value rc * 4) (ewma_Value rc)) eqn:Hle;
        [| reflexivity].
      apply Qle_bool_iff in Hle. lra. }
    exists (update pool 0 (with_rtt best (Some (ewma_Set rb (ewma_Value rc))))),
           false, w, c, rc.
    split.
    + unfold estimatorChoose, index, rttValue, rttSet, bind, ret.
      rewrite Hc, Hrc, Hb, Hrb. apply Qlt_bool_true in Hseed.
      rewrite Hseed. cbn iota beta. rewrite Hswap, Hslow, andb_false_r.
      reflexivity.
    + split; [rewrite nth_error_update_other; [exact Hc | congruence] |].
      split; [exact Hrc |]. split; lra.
  - apply Qlt_bool_false in Hseed.
    pose proof (second_chance_sample _ _ Hc0 Hfour) as Hsample.
    set (sample := MinF (MaxF (ewma_Value rc / 2) (ewma_Value rb * 2))
                        (ewma_Value rc)) in *.
    assert (Hlow : (sample <= ewma_Value rc)%Q)
      by (clearbody sample; halves; lra).
    destruct (Havg sample Hlow) as [Hdown Hup].
    exists (update pool candidate
              (with_rtt c (Some (ewma_Add rc sample)))),
           true, w', (with_rtt c (Some (ewma_Add rc sample))),
           (ewma_Add rc sample).
    split; [eapply estimatorChoose_second_chance; eassumption |].
    split; [eapply nth_error_update_same; exact Hc |].
    split; [reflexivity |].
    split; [clearbody sample; halves; lra | exact Hup].
Qed.

(** The pass of adjacent swaps moves servers and changes none. *)
Lemma partialSortPass_perm (steps : nat) :
  forall (i : nat) (pool pool' : list (ServerInfo MA)) (w w' : W),
    partialSortPass (W := W) steps i pool w = Returns (pool', w') ->
    Permutation pool pool' /\ w' = w.
Proof.
  induction steps as [| steps IH]; intros i pool pool' w w'.
  - cbn. intros [= <- <-]. split; [apply Permutation_refl | reflexivity].
  - cbn [partialSortPass]. unfold bind, index, rttValue, ret, panic.
    destruct (nth_error pool (i - 1)) as [a |]; [| discriminate].
    destruct (rtt a) as [ra |]; [| discriminate].
    destruct (nth_error pool i) as [b |]; [| discriminate].
    destruct (rtt b) as [rb |]; [| discriminate].
    intros Hrest. apply IH in Hrest. destruct Hrest as [Hperm ->].
    split; [| reflexivity].
    destruct (Qlt_bool (ewma_Value rb) (ewma_Value ra)); [| exact Hperm].
    eapply perm_trans; [apply swap_perm | exact Hperm].
Qed.

(** [estimatorUpdate] as a whole: after the draw of a candidate other
    than 0, the pool it leaves has the servers that the choice left. *)
Lemma estimatorUpdate_after_choice (serversInfo serversInfo' : ServersInfo MA)
  (draw candidate : nat) (pool : list (ServerInfo MA)) (partialSort : bool)
  (w0 w w' w'' : W) :
  rand_draw ext w0 = (draw, w) ->
  Nat.modulo draw (List.length (inner serversInfo)) = candidate ->
  candidate <> 0%nat ->
  estimatorChoose ext (inner serversInfo) candidate w
  = Returns ((pool, partialSort), w') ->
  estimatorUpdate ext serversInfo w0 = Returns (serversInfo', w'') ->
  Permutation pool (inner serversInfo') /\ w'' = w'.
Proof.
  intros Hdraw Hmod Hcand Hchoose. unfold estimatorUpdate, bind, rand_Intn.
  destruct (List.length (inner serversInfo)) as [| n] eqn:Hlen;
    [discriminate |].
  unfold panic, ret. rewrite Hdraw, Hmod.
  destruct candidate as [| candidate]; [congruence |].
  cbn [Nat.eqb]. rewrite Hchoose.
  destruct partialSort.
  - destruct (partialSortPass _ _ pool w') as [[sorted w1] | |] eqn:Hpass;
      try discriminate.
    intros [= <- <-]. apply partialSortPass_perm in Hpass.
    destruct Hpass as [Hperm ->]. split; [exact Hperm | reflexivity].
  - intros [= <- <-]. split; [apply Permutation_refl | reflexivity].
Qed.

End EstimatorProperties.

(** The library's average, once warm and with a decay between 0 and 1,
    is pulled down by a lower sample and not below it. *)
Lemma VariableEWMA_averages (e : VariableEWMA) :
  WARMUP_SAMPLES < ve_count e ->
  (0 <= ve_decay e)%Q -> (ve_decay e <= 1)%Q ->
  averages e.
Proof.
  intros Hwarm Hd0 Hd1 x Hx. cbn in *.
  unfold VariableEWMA_Value, VariableEWMA_Add in *.
  assert (H1 : (ve_count e <? WARMUP_SAMPLES) = false)
    by (apply Z.ltb_ge; lia).
  assert (H2 : (ve_count e =? WARMUP_SAMPLES) = false)
    by (apply Z.eqb_neq; lia).
  assert (H3 : (ve_count e <=? WARMUP_SAMPLES) = false)
    by (apply Z.leb_gt; lia).
  rewrite H1, H2. cbn [ve_count ve_value]. rewrite H3 in *.
  split; nra.
Qed.

(** A positive value tells that the library's average is warm. *)
Lemma VariableEWMA_positive_averages (e : VariableEWMA) :
  (0 < ewma_Value e)%Q ->
  (0 <= ve_decay e)%Q -> (ve_decay e <= 1)%Q ->
  averages e.
Proof.
  intros Hpos. apply VariableEWMA_averages.
  cbn in Hpos. unfold VariableEWMA_Value in Hpos.
  destruct (ve_count e <=? WARMUP_SAMPLES) eqn:Hcount.
  - exfalso. revert Hpos. by_computation.
  - apply Z.leb_gt in Hcount. exact Hcount.
Qed.

(** The average of the specification, with [N] at least 1. *)
Lemma BrownEWMA_averages (e : BrownEWMA) :
  (1 <= be_N e)%Q -> averages e.
Proof.
  intros HN x Hx. cbn in *.
  assert (Hpos : (0 < be_N e)%Q) by lra.
  assert (Hmean :
    ((be_value e * (be_N e - 1) + x) / be_N e * be_N e
     == be_value e * (be_N e - 1) + x)%Q)
    by (field; intros Hz; rewrite Hz in Hpos; lra).
  set (mean := ((be_value e * (be_N e - 1) + x) / be_N e)%Q) in *.
  clearbody mean.
  assert (Hgap : (0 <= (be_value e - x) * (be_N e - 1))%Q)
    by (apply Qmult_le_0_compat; lra).
  split.
  - destruct (Qlt_le_dec mean x) as [Hlt | Hle]; [| exact Hle].
    assert (Hprod : (0 < (x - mean) * be_N e)%Q)
      by (apply Qmult_lt_0_compat; lra).
    nra.
  - destruct (Qlt_le_dec (be_value e) mean) as [Hlt | Hle]; [| exact Hle].
    assert (Hprod : (0 < (mean - be_value e) * be_N e)%Q)
      by (apply Qmult_lt_0_compat; lra).
    nra.
Qed.

(** *** The second chance in the small world *)



Lemma estimatorUpdate_second_chance_bounds_witness :
  exists pool' partialSort w'' c' rc',
    estimatorChoose sc_ext (@sc_two VariableEWMA _) 1 0%nat
    = Returns ((pool', partialSort), w'') /\
    nth_error pool' 1 = Some c' /\
    rtt c' = Some rc' /\
    (10 * 2 <= ewma_Value rc')%Q /\
    (ewma_Value rc' <= 200)%Q.
Proof.
  refine (estimatorUpdate_second_chance_bounds sc_ext
            (@sc_two VariableEWMA _) 1
            (sc_live "laggard" 200%Q (880 * Second))
            (sc_live "best" 10%Q (1000 * Second))
            (ewma_Set (ewma_NewMovingAverage RTTEwmaDecay) 200%Q)
            (ewma_Set (ewma_NewMovingAverage RTTEwmaDecay) 10%Q)
            (1000 * Second) 0%nat 0%nat _ _ _ _ _ _ _ _ _ _);
    try reflexivity; try by_computation.
  apply VariableEWMA_averages; by_computation.
Defined.

(** ** The relay of a route *)

Section RouteProperties.

Context {W : Type} (ext : Externals W).

Lemma routeLookup_firstNamed (registered : list RegisteredServer)
  (relayName : string) (candidate : option ServerStamp) :
  routeLookup registered relayName candidate
  = match firstNamed registered relayName with
    | Some r => Some (Stamp r)
    | None => candidate
    end.
Proof.
  unfold firstNamed. induction registered as [| r rest IH]; simpl;
    [reflexivity |].
  destruct (String.eqb (Name r) relayName); [reflexivity | exact IH].
Qed.

(** C6, as the code has it. When the chosen relay reference is neither a
    stamp nor an address that resolves, the stamp of the relay is looked
    up by name in the relay registry and then in the server registry,
    and the later lookup wins: the stamp that [route] resolves is the
    one of the first server of that name if the server registry has
    one, and the one of the first relay of that name only if it has
    none. *)
Theorem route_named_relay_server_registry_wins (proxy : Proxy)
  (name relayName : string) (stamp : ServerStamp)
  (routes : string -> option (list string)) (relayNames : list string)
  (draw : nat) (e1 e2 : error) (w w1 w2 : W) :
  Routes proxy = Some routes ->
  match routes name with
  | Some relayNames => Some relayNames
  | None => routes "*"
  end = Some relayNames ->
  rand_draw ext w = (draw, w1) ->
  nth_error relayNames (Nat.modulo draw (List.length relayNames))
  = Some relayName ->
  relayName <> "" ->
  stamps_NewServerStampFromString ext relayName = inr e1 ->
  net_ResolveUDPAddr ext relayName w1 = (inr e2, w2) ->
  route ext proxy name stamp w
  = relayResolve ext
      match firstNamed (RegisteredServers proxy) relayName with
      | Some server => Some (Stamp server)
      | None =>
        match firstNamed (RegisteredRelays proxy) relayName with
        | Some relay => Some (Stamp relay)
        | None => None
        end
      end relayName name w2.
Proof.
  intros Hroutes Hnames Hdraw Hnth Hnonempty Hparse Hresolve.
  unfold route. rewrite Hroutes, Hnames.
  assert (Hlen : (len relayNames >? 0) = true).
  { destruct relayNames as [| r rs];
      [rewrite nth_error_nil in Hnth; discriminate |].
    unfold len. apply Z.gtb_lt. simpl List.length. lia. }
  rewrite Hlen.
  assert (Hpick :
    bind (rand_Intn ext (List.length relayNames))
         (fun candidate => index relayNames candidate) w
    = Returns (relayName, w1)).
  { unfold bind, rand_Intn, index.
    destruct relayNames as [| r rs]; [discriminate |].
    cbn [List.length]. unfold bind. rewrite Hdraw.
    cbn [List.length] in Hnth. rewrite Hnth. reflexivity. }
  rewrite (bind_eq _ _ _ _ _ Hpick).
  assert (Hstr : (strlen relayName =? 0) = false).
  { destruct relayName; [congruence |]. unfold strlen.
    apply Z.eqb_neq. simpl String.length. lia. }
  rewrite Hstr.
  assert (Hcand :
    relayCandidate ext proxy relayName w1
    = Returns (routeLookup (RegisteredServers proxy) relayName
                 (routeLookup (RegisteredRelays proxy) relayName None), w2)).
  { unfold relayCandidate. rewrite Hparse.
    unfold bind, lift, ret. rewrite Hresolve. reflexivity. }
  rewrite (bind_eq _ _ _ _ _ Hcand).
  rewrite !routeLookup_firstNamed. reflexivity.
Qed.

End RouteProperties.

(** *** The route in the small world *)

(** A relay name that both registries have: [route] resolves the
    address of the server's stamp, 192.0.2.2, and not the address of
    the relay's stamp, 192.0.2.1. *)
Lemma route_prefers_server_registry :
  stamps_NewServerStampFromString sc_ext "anon"
  = inr (ErrExternal "stamps are expected to start with sdns://") /\
  fst (net_ResolveUDPAddr sc_ext "anon" 0%nat)
  = inr (ErrExternal "missing port in address") /\
  firstNamed (RegisteredRelays sc_routed_proxy) "anon"
  = Some {| Name := "anon"; Stamp := sc_relay_stamp; Description := "" |} /\
  relayCandidate sc_ext sc_routed_proxy "anon" 0%nat
  = Returns (Some sc_server_stamp, 1%nat) /\
  sc_server_stamp <> sc_relay_stamp /\
  route sc_ext sc_routed_proxy "resolver" sc_server_stamp 0%nat
  = Returns (inl (Some {| udp_IP := [xc0; x00; x02; x02]; udp_Port := 443 |},
                  Some {| tcp_IP := [xc0; x00; x02; x02]; tcp_Port := 443 |}),
             3%nat) /\
  relayResolve sc_ext (Some sc_relay_stamp) "anon" "resolver" 1%nat
  = Returns (inl (Some {| udp_IP := [xc0; x00; x02; x01]; udp_Port := 443 |},
                  Some {| tcp_IP := [xc0; x00; x02; x01]; tcp_Port := 443 |}),
             3%nat).
Proof.
  split; [reflexivity |]. split; [reflexivity |].
  split; [reflexivity |]. split; [reflexivity |].
  split; [discriminate |]. split; reflexivity.
Qed.

Lemma route_named_relay_server_registry_wins_witness :
  route sc_ext sc_routed_proxy "resolver" sc_server_stamp 0%nat
  = relayResolve sc_ext (Some sc_server_stamp) "anon" "resolver" 1%nat.
Proof.
  refine (route_named_relay_server_registry_wins sc_ext sc_routed_proxy
            "resolver" "anon" sc_server_stamp
            (fun name => if String.eqb name "resolver"
                         then Some ["anon"] else None)
            ["anon"] 0%nat
            (ErrExternal "stamps are expected to start with sdns://")
            (ErrExternal "missing port in address")
            0%nat 0%nat 1%nat _ _ _ _ _ _ _);
    try reflexivity.
  discriminate.
Defined.

(** ** The DoH probe *)

Lemma bytes_eqb_eq (a b : bytes) : bytes_eqb a b = true <-> a = b.
Proof.
  revert b. induction a as [| x a IH]; intros [| y b]; simpl;
    try (split; [discriminate | discriminate]); [tauto |].
  rewrite andb_true_iff, IH. split.
  - intros [Hxy ->]. apply Byte.byte_dec_bl in Hxy. congruence.
  - intros [= -> ->]. split; [apply Byte.byte_dec_lb |]; reflexivity.
Qed.

Lemma byte_eqb_eq (x y : byte) : Byte.eqb x y = true <-> x = y.
Proof.
  split; [apply Byte.byte_dec_bl | apply Byte.byte_dec_lb].
Qed.

Lemma pinHashes_found (h : bytes) (hashes : list bytes) (wantedHash : bytes) :
  fst (pinHashes h hashes wantedHash) = true <->
  exists hash, In hash hashes /\ len hash = 32 /\ h = hash.
Proof.
  revert wantedHash. induction hashes as [| hash rest IH]; intros wantedHash;
    simpl.
  - split; [discriminate | intros (? & [] & _)].
  - destruct (len hash =? 32) eqn:Hlen.
    + apply Z.eqb_eq in Hlen.
      destruct (bytes_eqb h hash) eqn:Heq.
      * apply bytes_eqb_eq in Heq. simpl. split; [| reflexivity].
        intros _. exists hash. auto.
      * rewrite IH. split.
        -- intros (x & Hin & Hx). exists x. auto.
        -- intros (x & [<- | Hin] & Hl & Hx).
           ++ apply bytes_eqb_eq in Hx. congruence.
           ++ exists x. auto.
    + apply Z.eqb_neq in Hlen. rewrite IH. split.
      * intros (x & Hin & Hx). exists x. auto.
      * intros (x & [<- | Hin] & Hl & Hx); [contradiction |].
        exists x. auto.
Qed.

Section ProbeProperties.

Context {W : Type} (ext : Externals W).
Context {MA : Type}.

Lemma pinCertificates_found (certs : list Certificate) (hashes : list bytes)
  (wantedHash : bytes) :
  fst (pinCertificates ext certs hashes wantedHash) = true <->
  exists cert hash,
    In cert certs /\ In hash hashes /\ len hash = 32 /\
    sha256_Sum256 ext (RawTBSCertificate cert) = hash.
Proof.
  revert wantedHash. induction certs as [| cert rest IH]; intros wantedHash;
    simpl.
  - split; [discriminate | intros (? & ? & [] & _)].
  - pose proof (pinHashes_found (sha256_Sum256 ext (RawTBSCertificate cert))
                                hashes wantedHash) as Hone.
    destruct (pinHashes _ hashes wantedHash) as [found wanted]. simpl in Hone.
    destruct found; simpl.
    + split; [| reflexivity]. intros _.
      destruct Hone as [Hone _]. destruct (Hone eq_refl) as (hash & Hin & Hl & Hh).
      exists cert, hash. auto.
    + rewrite IH. split.
      * intros (c & hash & Hc & Hrest). exists c, hash. auto.
      * intros (c & hash & [<- | Hc] & Hin & Hl & Hh).
        -- destruct Hone as [_ Hone].
           assert (false = true) by (apply Hone; exists hash; auto).
           discriminate.
        -- exists c, hash. auto.
Qed.

Lemma pins_checked (tls : ConnectionState) (stamp : ServerStamp) :
  (let (found, _) := pinCertificates ext (PeerCertificates tls)
                                     (Hashes stamp) (repeat x00 32) in
   negb found && (len (Hashes stamp) >? 0)) = false <->
  pinned ext tls stamp.
Proof.
  pose proof (pinCertificates_found (PeerCertificates tls) (Hashes stamp)
                                    (repeat x00 32)) as Hfound.
  destruct (pinCertificates _ _ _ _) as [found wanted]. simpl in Hfound.
  unfold pinned. rewrite <- Hfound.
  destruct found; simpl.
  - split; auto.
  - destruct (Hashes stamp) as [| hash rest]; simpl.
    + split; auto.
    + unfold len. simpl List.length. split.
      * rewrite Z.gtb_ltb. intros Hlt. apply Z.ltb_ge in Hlt. lia.
      * intros [Hnil | Hf]; discriminate.
Qed.

Lemma dohUnexpected_plausible (respBody : bytes) (w w' : W) :
  dohUnexpected ext respBody w = Returns (false, w') <->
  plausible ext respBody /\ w' = w.
Proof.
  unfold dohUnexpected, plausible, bind, index, ret, panic.
  rewrite Z.gtb_ltb.
  destruct (len respBody <? MinDNSPacketSize ext) eqn:Hmin; cbn [orb].
  { apply Z.ltb_lt in Hmin. split; [discriminate | intros [[? _] _]; lia]. }
  apply Z.ltb_ge in Hmin.
  destruct (MaxDNSPacketSize ext <? len respBody) eqn:Hmax; cbn [orb].
  { apply Z.ltb_lt in Hmax. split; [discriminate | intros [[? _] _]; lia]. }
  apply Z.ltb_ge in Hmax.
  destruct (nth_error respBody 0) as [b0 |];
    [| split; [discriminate | intros [(_ & ? & _) _]; discriminate]].
  destruct (Byte.eqb b0 xca) eqn:H0; cbn [negb];
    [apply byte_eqb_eq in H0; subst b0
    | split; [discriminate
             | intros [(_ & [= ->] & _) _]; discriminate]].
  destruct (nth_error respBody 1) as [b1 |];
    [| split; [discriminate | intros [(_ & _ & ? & _) _]; discriminate]].
  destruct (Byte.eqb b1 xfe) eqn:H1; cbn [negb];
    [apply byte_eqb_eq in H1; subst b1
    | split; [discriminate
             | intros [(_ & _ & [= ->] & _) _]; discriminate]].
  destruct (nth_error respBody 4) as [b4 |];
    [| split; [discriminate | intros [(_ & _ & _ & ? & _) _]; discriminate]].
  destruct (Byte.eqb b4 x00) eqn:H4; cbn [negb];
    [apply byte_eqb_eq in H4; subst b4
    | split; [discriminate
             | intros [(_ & _ & _ & [= ->] & _) _]; discriminate]].
  destruct (nth_error respBody 5) as [b5 |];
    [| split; [discriminate | intros [(_ & _ & _ & _ & ?) _]; discriminate]].
  destruct (Byte.eqb b5 x01) eqn:H5; cbn [negb].
  - apply byte_eqb_eq in H5. subst b5. split.
    + intros [= <-]. repeat split; auto.
    + intros [_ ->]. reflexivity.
  - split; [discriminate | intros [(_ & _ & _ & _ & [= ->]) _]; discriminate].
Qed.

Lemma dohUnexpected_total (respBody : bytes) (w : W) :
  dohUnexpected ext respBody w = Panics \/
  exists bad, dohUnexpected ext respBody w = Returns (bad, w).
Proof.
  unfold dohUnexpected, bind, index, ret, panic.
  destruct (_ || _); [right; eexists; reflexivity |].
  destruct (nth_error respBody 0); [| left; reflexivity].
  destruct (negb _); [right; eexists; reflexivity |].
  destruct (nth_error respBody 1); [| left; reflexivity].
  destruct (negb _); [right; eexists; reflexivity |].
  destruct (nth_error respBody 4); [| left; reflexivity].
  destruct (negb _); [right; eexists; reflexivity |].
  destruct (nth_error respBody 5); [| left; reflexivity].
  right; eexists; reflexivity.
Qed.

(** What [dohAccept] accepts, and that it leaves the world alone. *)
Lemma dohAccept_accepts (proxy : Proxy) (name : string) (stamp : ServerStamp)
  (url : URL) (resp : Response) (rtt : Duration) (useGet : bool) (w w' : W) :
  (exists info : ServerInfo MA,
     dohAccept ext proxy name stamp url resp rtt useGet w
     = Returns (inl info, w')) <->
  (exists tls respBody,
     TLS resp = Some tls /\ HandshakeComplete tls = true /\
     pinned ext tls stamp /\
     ReadAllLimit (RespBody resp) (MaxHTTPBodyLength ext) = inl respBody /\
     plausible ext respBody) /\ w' = w.
Proof.
  unfold dohAccept.
  destruct (TLS resp) as [tls |];
    [| split; [intros [? [=]] | intros [(? & ? & [=] & _) _]]].
  destruct (HandshakeComplete tls) eqn:Hhs; cbn [negb];
    [| split; [intros [? [=]]
              | intros [(? & ? & [= <-] & ? & _) _]; congruence]].
  pose proof (pins_checked tls stamp) as Hpins.
  destruct (pinCertificates _ _ _ _) as [found wanted].
  destruct (negb found && (len (Hashes stamp) >? 0)).
  { split; [intros [? [=]] |].
    intros [(? & ? & [= <-] & _ & Hp & _) _].
    apply Hpins in Hp. discriminate. }
  assert (Hpinned : pinned ext tls stamp) by (apply Hpins; reflexivity).
  destruct (ReadAllLimit _ _) as [respBody | err];
    [| split; [intros [? [=]] | intros [(? & ? & _ & _ & _ & [=] & _) _]]].
  pose proof (dohUnexpected_plausible respBody w w) as Hplausible.
  unfold bind.
  destruct (dohUnexpected_total respBody w) as [Hpanic | [bad Hbad]].
  { rewrite Hpanic in *. split; [intros [? [=]] |].
    intros [(? & ? & _ & _ & _ & [= <-] & Hp) _].
    assert (Panics = Returns (false, w)) by (apply Hplausible; auto).
    discriminate. }
  rewrite Hbad in *. destruct bad; cbn.
  - split; [intros [? [=]] |].
    intros [(? & ? & _ & _ & _ & [= <-] & Hp) _].
    assert (Returns (true, w) = Returns (false, w)) by (apply Hplausible; auto).
    discriminate.
  - split.
    + intros [info [= _ <-]]. split; [| reflexivity].
      exists tls, respBody.
      split; [reflexivity |]. split; [exact Hhs |].
      split; [exact Hpinned |]. split; [reflexivity |].
      exact (proj1 (proj1 Hplausible eq_refl)).
    + intros [_ ->]. eexists. reflexivity.
Qed.

(** C7. [fetchDoHServerInfo] returns a [ServerInfo] if and only if the
    exchange with the server gave an answer, the TLS handshake of the
    answer is complete, the stamp has no pin or a peer certificate's
    hash is one of its 32-byte pins, and the body, read up to
    [MaxHTTPBodyLength], has a length from [MinDNSPacketSize] to
    [MaxDNSPacketSize] and the bytes [0xca], [0xfe] at 0 and 1 and
    [0x00], [0x01] at 4 and 5. Hence: a body of exactly
    [MinDNSPacketSize] bytes with these four bytes is accepted, a body
    one byte shorter is refused with the error of the unexpected
    response, and without pins every answer with a complete handshake
    and such a body is accepted. *)
Theorem fetchDoHServerInfo_accepts_iff (proxy : Proxy) (name : string)
  (stamp : ServerStamp) (isNew : bool) (w : W) :
  ((exists (info : ServerInfo MA) w',
      fetchDoHServerInfo ext proxy name stamp isNew w
      = Returns (inl info, w')) <->
   (exists resp rtt useGet w' tls respBody,
      dohExchange ext proxy stamp w = Returns (inl (resp, rtt, useGet), w') /\
      TLS resp = Some tls /\ HandshakeComplete tls = true /\
      pinned ext tls stamp /\
      ReadAllLimit (RespBody resp) (MaxHTTPBodyLength ext) = inl respBody /\
      plausible ext respBody)) /\
  (forall resp rtt useGet w' tls respBody,
      dohExchange ext proxy stamp w = Returns (inl (resp, rtt, useGet), w') ->
      TLS resp = Some tls -> HandshakeComplete tls = true ->
      ReadAllLimit (RespBody resp) (MaxHTTPBodyLength ext) = inl respBody ->
      (pinned ext tls stamp ->
       len respBody = MinDNSPacketSize ext ->
       MinDNSPacketSize ext <= MaxDNSPacketSize ext ->
       nth_error respBody 0 = Some xca -> nth_error respBody 1 = Some xfe ->
       nth_error respBody 4 = Some x00 -> nth_error respBody 5 = Some x01 ->
       exists info : ServerInfo MA,
         fetchDoHServerInfo ext proxy name stamp isNew w
         = Returns (inl info, w')) /\
      (pinned ext tls stamp ->
       len respBody = MinDNSPacketSize ext - 1 ->
       fetchDoHServerInfo (MA := MA) ext proxy name stamp isNew w
       = Returns (inr ErrUnexpectedResponse, w')) /\
      (Hashes stamp = [] -> plausible ext respBody ->
       exists info : ServerInfo MA,
         fetchDoHServerInfo ext proxy name stamp isNew w
         = Returns (inl info, w'))).
Proof.
  assert (Hsplit : forall r w',
    fetchDoHServerInfo (MA := MA) ext proxy name stamp isNew w
    = Returns (r, w') <->
    exists p w1,
      dohExchange ext proxy stamp w = Returns (p, w1) /\
      match p with
      | inr err => r = inr err /\ w' = w1
      | inl (resp, rtt, useGet) =>
        dohAccept ext proxy name stamp
          {| Scheme := "https"; Host := ProviderName stamp;
             URLPath := Path stamp |} resp rtt useGet w1 = Returns (r, w')
      end).
  { intros r w'. unfold fetchDoHServerInfo, dohExchange, bind.
    destruct (dohSeedCache ext stamp w) as [[[] w0] | |];
      [| split; [discriminate | intros (? & ? & [=] & _)]
       | split; [discriminate | intros (? & ? & [=] & _)]].
    destruct (dohProbe ext proxy _ w0) as [[p w1] | |];
      [| split; [discriminate | intros (? & ? & [=] & _)]
       | split; [discriminate | intros (? & ? & [=] & _)]].
    split.
    - intros Hrun. exists p, w1. split; [reflexivity |].
      destruct p as [[[resp rtt] useGet] | err]; [exact Hrun |].
      cbn in Hrun. injection Hrun as <- <-. auto.
    - intros (p' & w1' & [= <- <-] & Hrest).
      destruct p as [[[resp rtt] useGet] | err]; [exact Hrest |].
      destruct Hrest as [-> ->]. reflexivity. }
  assert (Haccept : forall resp rtt useGet w' tls respBody,
    dohExchange ext proxy stamp w = Returns (inl (resp, rtt, useGet), w') ->
    TLS resp = Some tls -> HandshakeComplete tls = true ->
    pinned ext tls stamp ->
    ReadAllLimit (RespBody resp) (MaxHTTPBodyLength ext) = inl respBody ->
    plausible ext respBody ->
    exists info : ServerInfo MA,
      fetchDoHServerInfo ext proxy name stamp isNew w
      = Returns (inl info, w')).
  { intros resp rtt useGet w' tls respBody Hex Htls Hhs Hpin Hread Hpl.
    destruct (proj2 (dohAccept_accepts proxy name stamp
                       {| Scheme := "https"; Host := ProviderName stamp;
                          URLPath := Path stamp |} resp rtt useGet w' w'))
      as [info Hinfo].
    { split; [| reflexivity]. exists tls, respBody. auto. }
    exists info. apply Hsplit. exists (inl (resp, rtt, useGet)), w'. auto. }
  split; [split |].
  - intros (info & w' & Hrun). apply Hsplit in Hrun.
    destruct Hrun as ([[[resp rtt] useGet] | err] & w1 & Hex & Hrest);
      [| destruct Hrest as [[=] _]].
    destruct (proj1 (dohAccept_accepts _ _ _ _ _ _ _ _ _)
                    (ex_intro _ info Hrest))
      as [(tls & respBody & Htls & Hhs & Hpin & Hread & Hpl) ->].
    exists resp, rtt, useGet, w1, tls, respBody. auto 10.
  - intros (resp & rtt & useGet & w' & tls & respBody
            & Hex & Htls & Hhs & Hpin & Hread & Hpl).
    destruct (Haccept _ _ _ _ _ _ Hex Htls Hhs Hpin Hread Hpl) as [info Hi].
    exists info, w'. exact Hi.
  - intros resp rtt useGet w' tls respBody Hex Htls Hhs Hread.
    split; [| split].
    + intros Hpin Hlen Hminmax H0 H1 H4 H5.
      apply (Haccept _ _ _ _ _ _ Hex Htls Hhs Hpin Hread).
      unfold plausible. repeat split; auto; lia.
    + intros Hpin Hlen. apply Hsplit.
      exists (inl (resp, rtt, useGet)), w'. split; [exact Hex |].
      unfold dohAccept. rewrite Htls, Hhs. cbn [negb].
      apply pins_checked in Hpin.
      destruct (pinCertificates _ _ _ _) as [found wanted].
      rewrite Hpin, Hread. unfold dohUnexpected, bind.
      assert (Hshort : (len respBody <? MinDNSPacketSize ext) = true)
        by (apply Z.ltb_lt; lia).
      rewrite Hshort. reflexivity.
    + intros Hnil Hpl.
      apply (Haccept _ _ _ _ _ _ Hex Htls Hhs (or_introl Hnil) Hread Hpl).
Qed.

End ProbeProperties.

(** *** The probe in the small world *)

Lemma fetchDoHServerInfo_accepts_iff_witness :
  (exists (info : ServerInfo VariableEWMA) w',
     fetchDoHServerInfo sc_ext sc_proxy "tiny" (sc_stamp "tiny.example")
                        true 0%nat = Returns (inl info, w')) /\
  len (firstn 12 sc_reply) = MinDNSPacketSize sc_ext /\
  fetchDoHServerInfo (MA := VariableEWMA) sc_ext sc_proxy "short"
                     (sc_stamp "short.example") true 0%nat
  = Returns (inr ErrUnexpectedResponse, 2%nat).
Proof.
  split; [| split; [reflexivity |]].
  - apply (proj1 (fetchDoHServerInfo_accepts_iff
                    sc_ext sc_proxy "tiny" (sc_stamp "tiny.example")
                    true 0%nat)).
    exists (sc_response (firstn 12 sc_reply)), (20 * 1000000), false, 2%nat.
    eexists. exists (firstn 12 sc_reply).
    split; [reflexivity |]. split; [reflexivity |].
    split; [reflexivity |]. split; [left; reflexivity |].
    split; [reflexivity |].
    unfold plausible. repeat split; by_computation.
  - apply (proj2 (fetchDoHServerInfo_accepts_iff
                    sc_ext sc_proxy "short" (sc_stamp "short.example")
                    true 0%nat)
                 (sc_response (firstn 11 sc_reply)) (20 * 1000000) false
                 2%nat
                 {| HandshakeComplete := true; NegotiatedProtocol := "h2";
                    PeerCertificates := [sc_certificate] |}
                 (firstn 11 sc_reply));
      try reflexivity.
    left. reflexivity.
Defined.

(** ** The stages of the pipeline *)

Section StageProperties.

Context {W : Type} (ext : Externals W) (dns : DnsExternals).

Lemma stageLoop_prefix
  (body : Plugin W -> PluginsState -> Heap -> W -> Evaluation W * turn W)
  (plugins : list (Plugin W)) s h w :
  turn_records body ->
  exists rest, plugins = map ev_plugin (fst (stageLoop body plugins s h w))
                         ++ rest.
Proof.
  intros Hrec. revert s h w.
  induction plugins as [| plugin plugins IH]; intros s h w; simpl.
  - exists []. reflexivity.
  - pose proof (Hrec plugin s h w) as Hp.
    destruct (body plugin s h w) as [seen t]. simpl in Hp. subst plugin.
    destruct t as [s' h' w' | s' h' w' | p e s' h' w' |];
      try (exists plugins; reflexivity).
    destruct (IH s' h' w') as [rest Hrest].
    destruct (stageLoop body plugins s' h' w') as [trace t']. simpl in *.
    exists rest. congruence.
Qed.

Lemma stageLoop_stops
  (body : Plugin W -> PluginsState -> Heap -> W -> Evaluation W * turn W)
  (plugins : list (Plugin W)) s h w :
  turn_goes_on body ->
  forall pre ev post,
    fst (stageLoop body plugins s h w) = pre ++ ev :: post ->
    ev_err ev <> None \/ ev_action ev <> PluginsActionForward ->
    post = [].
Proof.
  intros Hgo. revert s h w.
  induction plugins as [| plugin plugins IH]; intros s h w pre ev post; simpl.
  - destruct pre; discriminate.
  - destruct (body plugin s h w) as [seen t] eqn:Hbody.
    destruct t as [s' h' w' | s' h' w' | p e s' h' w' |].
    2-4: (simpl; intros Heq _;
          destruct pre as [| x [| y pre]]; try discriminate;
          injection Heq as _ <-; reflexivity).
    specialize (IH s' h' w').
    destruct (stageLoop body plugins s' h' w') as [trace t']. simpl in *.
    destruct pre as [| x pre].
    + intros [= <- <-] Hstop. destruct (Hgo _ _ _ _ _ _ _ _ Hbody).
      destruct Hstop; contradiction.
    + intros [= <- Htrace]. apply (IH pre ev post Htrace).
Qed.

Lemma stageLoop_drops (packet : bytes)
  (body : Plugin W -> PluginsState -> Heap -> W -> Evaluation W * turn W)
  (plugins : list (Plugin W)) s h w :
  turn_goes_on body -> turn_drops packet body ->
  forall ev err,
    In ev (fst (stageLoop body plugins s h w)) -> ev_err ev = Some err ->
    exists s' h' w',
      snd (stageLoop body plugins s h w)
      = TurnReturn (Some packet) err s' h' w' /\
      action s' = PluginsActionDrop.
Proof.
  intros Hgo Hdrop. revert s h w.
  induction plugins as [| plugin plugins IH]; intros s h w ev err; simpl.
  - intros [].
  - destruct (body plugin s h w) as [seen t] eqn:Hbody.
    destruct t as [s' h' w' | s' h' w' | p e s' h' w' |].
    2-4: (simpl; intros [<- | []] Herr;
          exact (Hdrop _ _ _ _ _ _ _ Hbody Herr)).
    specialize (IH s' h' w' ev err).
    destruct (stageLoop body plugins s' h' w') as [trace t']. simpl in *.
    intros [<- | Hin] Herr.
    + destruct (Hgo _ _ _ _ _ _ _ _ Hbody). congruence.
    + apply IH; assumption.
Qed.

Lemma PluginsAction_eqb_eq (a b : PluginsAction) :
  PluginsAction_eqb a b = true <-> a = b.
Proof. destruct a, b; simpl; split; congruence. Qed.

Lemma queryTurn_goes_on (globals : PluginsGlobals W) packet msg :
  turn_goes_on (queryTurn dns globals packet msg).
Proof.
  intros plugin s h w seen s' h' w'. unfold queryTurn.
  destruct (Eval plugin s msg h w) as [[[s1 h1] [err |]] w1];
    [intros [=] |].
  destruct (PluginsAction_eqb (action s1) PluginsActionReject).
  - destruct (deref h1 msg); [| intros [=]].
    destruct (RefusedResponseFromMessage _ _ _ _ _ _); [| intros [=]].
    destruct (alloc h1 _). intros [=].
  - destruct (PluginsAction_eqb (action s1) PluginsActionForward) eqn:Hf;
      cbn [negb]; intros [= <- <- <- <-]; simpl.
    split; [reflexivity | apply PluginsAction_eqb_eq; exact Hf].
Qed.

Lemma responseTurn_goes_on (globals : PluginsGlobals W) packet msg :
  turn_goes_on (responseTurn dns globals packet msg).
Proof.
  intros plugin s h w seen s' h' w'. unfold responseTurn.
  destruct (Eval plugin s msg h w) as [[[s1 h1] [err |]] w1];
    [intros [=] |].
  destruct (PluginsAction_eqb (action s1) PluginsActionReject).
  - destruct (deref h1 msg); [| intros [=]].
    destruct (RefusedResponseFromMessage _ _ _ _ _ _) as [synth |];
      [| intros [=]].
    destruct (Question synth); [intros [=] |].
    destruct (alloc h1 _). intros [=].
  - destruct (PluginsAction_eqb (action s1) PluginsActionForward) eqn:Hf;
      cbn [negb]; intros [= <- <- <- <-]; simpl.
    split; [reflexivity | apply PluginsAction_eqb_eq; exact Hf].
Qed.

Lemma queryTurn_records (globals : PluginsGlobals W) packet msg :
  turn_records (queryTurn dns globals packet msg).
Proof.
  intros plugin s h w. unfold queryTurn.
  destruct (Eval plugin s msg h w) as [[[s1 h1] [err |]] w1];
    [reflexivity |].
  destruct (PluginsAction_eqb (action s1) PluginsActionReject).
  - destruct (deref h1 msg); [| reflexivity].
    destruct (RefusedResponseFromMessage _ _ _ _ _ _); [| reflexivity].
    destruct (alloc h1 _). reflexivity.
  - destruct (negb _); reflexivity.
Qed.

Lemma responseTurn_records (globals : PluginsGlobals W) packet msg :
  turn_records (responseTurn dns globals packet msg).
Proof.
  intros plugin s h w. unfold responseTurn.
  destruct (Eval plugin s msg h w) as [[[s1 h1] [err |]] w1];
    [reflexivity |].
  destruct (PluginsAction_eqb (action s1) PluginsActionReject).
  - destruct (deref h1 msg); [| reflexivity].
    destruct (RefusedResponseFromMessage _ _ _ _ _ _) as [synth |];
      [| reflexivity].
    destruct (Question synth); [reflexivity |].
    destruct (alloc h1 _). reflexivity.
  - destruct (negb _); reflexivity.
Qed.

Lemma queryTurn_drops (globals : PluginsGlobals W) packet msg :
  turn_drops packet (queryTurn dns globals packet msg).
Proof.
  intros plugin s h w seen t err. unfold queryTurn.
  destruct (Eval plugin s msg h w) as [[[s1 h1] [e |]] w1].
  - intros [= <- <-] [= <-]. eexists. eexists. eexists.
    split; reflexivity.
  - destruct (PluginsAction_eqb (action s1) PluginsActionReject).
    + destruct (deref h1 msg); [| intros [= <- _]; discriminate].
      destruct (RefusedResponseFromMessage _ _ _ _ _ _);
        [| intros [= <- _]; discriminate].
      destruct (alloc h1 _). intros [= <- _]; discriminate.
    + destruct (negb _); intros [= <- _]; discriminate.
Qed.

Lemma responseTurn_drops (globals : PluginsGlobals W) packet msg :
  turn_drops packet (responseTurn dns globals packet msg).
Proof.
  intros plugin s h w seen t err. unfold responseTurn.
  destruct (Eval plugin s msg h w) as [[[s1 h1] [e |]] w1].
  - intros [= <- <-] [= <-]. eexists. eexists. eexists.
    split; reflexivity.
  - destruct (PluginsAction_eqb (action s1) PluginsActionReject).
    + destruct (deref h1 msg); [| intros [= <- _]; discriminate].
      destruct (RefusedResponseFromMessage _ _ _ _ _ _) as [synth |];
        [| intros [= <- _]; discriminate].
      destruct (Question synth); [intros [= <- _]; discriminate |].
      destruct (alloc h1 _). intros [= <- _]; discriminate.
    + destruct (negb _); intros [= <- _]; discriminate.
Qed.

End StageProperties.

Section PipelineProperties.

Context {W : Type} (ext : Externals W) (dns : DnsExternals).

(** C9. In the query stage and in the response stage alike, the modules
    evaluated are the first ones of the stage's sequence, in order, and
    a module whose [Eval] returned an error or left [state.action]
    other than [Forward] is the last one evaluated: no module after it
    is. When the [Eval] of a module returns an error, the stage returns
    the packet it was given and this error, with [state.action] set to
    [Drop]. *)
Theorem stages_stop_at_first_non_forward (pluginsState : PluginsState)
  (pluginsGlobals : PluginsGlobals W) (packet : bytes) (serverName : string)
  (ttl : option Z) (h : Heap) (w : W) :
  stops_at_first_non_forward (queryPlugins pluginsGlobals) packet
    (fst (ApplyQueryPlugins dns pluginsState pluginsGlobals packet
                            serverName h w))
    (snd (ApplyQueryPlugins dns pluginsState pluginsGlobals packet
                            serverName h w)) /\
  stops_at_first_non_forward (responsePlugins pluginsGlobals) packet
    (fst (ApplyResponsePlugins ext dns pluginsState pluginsGlobals packet
                               ttl h w))
    (snd (ApplyResponsePlugins ext dns pluginsState pluginsGlobals packet
                               ttl h w)).
Proof.
  assert (Hnone : forall (plugins : list (Plugin W)) result,
    stops_at_first_non_forward plugins packet [] result).
  { intros plugins result. split; [exists plugins; reflexivity |].
    split; [intros [| ? ?] ? ? [=] | intros ? ? []]. }
  assert (Hloop : forall
    (body : Plugin W -> PluginsState -> Heap -> W -> Evaluation W * turn W)
    plugins s0 h0 w0 result,
    turn_goes_on body -> turn_records body -> turn_drops packet body ->
    (forall err s' h' w',
       snd (stageLoop body plugins s0 h0 w0)
       = TurnReturn (Some packet) err s' h' w' ->
       result = Returns (Some packet, Some err, s', h', w')) ->
    stops_at_first_non_forward plugins packet
      (fst (stageLoop body plugins s0 h0 w0)) result).
  { intros body plugins s0 h0 w0 result Hgo Hrec Hdrop Hres.
    split; [apply stageLoop_prefix; exact Hrec |].
    split; [apply stageLoop_stops; exact Hgo |].
    intros ev err Hin Herr.
    destruct (stageLoop_drops packet body plugins s0 h0 w0 Hgo Hdrop
                              ev err Hin Herr) as (s' & h' & w' & Ht & Ha).
    exists s', h', w'. split; [apply Hres; exact Ht | exact Ha]. }
  split.
  - unfold ApplyQueryPlugins.
    destruct (_ && _); [apply Hnone |].
    destruct (dns_Unpack dns packet) as [m | err]; [| apply Hnone].
    destruct (len (Question m) >? 1); [apply Hnone |].
    destruct (alloc h m) as [msg h1].
    set (body := queryTurn dns pluginsGlobals packet msg).
    set (s1 := with_questionMsg _ _).
    pose proof (Hloop body (queryPlugins pluginsGlobals) s1 h1 w) as Hrun.
    destruct (stageLoop body (queryPlugins pluginsGlobals) s1 h1 w)
      as [trace t].
    simpl in Hrun.
    assert (Hturns : turn_goes_on body /\ turn_records body
                     /\ turn_drops packet body).
    { split; [apply queryTurn_goes_on |].
      split; [apply queryTurn_records | apply queryTurn_drops]. }
    destruct Hturns as (Hgo & Hrec & Hdrop).
    destruct t as [s' h' w' | s' h' w' | p e s' h' w' |]; simpl.
    + destruct (deref h' msg) as [m' |];
        [destruct (dns_PackBuffer dns m' packet) |];
        apply Hrun; auto; discriminate.
    + destruct (deref h' msg) as [m' |];
        [destruct (dns_PackBuffer dns m' packet) |];
        apply Hrun; auto; discriminate.
    + apply Hrun; auto. intros err s2 h2 w2 [= -> -> -> -> ->]. reflexivity.
    + apply Hrun; auto. discriminate.
  - unfold ApplyResponsePlugins.
    destruct (_ && _); [apply Hnone |].
    destruct (dns_Unpack dns packet) as [m | err]; [| apply Hnone].
    destruct (alloc h m) as [msg h1].
    set (body := responseTurn dns pluginsGlobals packet msg).
    set (s1 := with_returnCode _ _).
    pose proof (Hloop body (responsePlugins pluginsGlobals) s1 h1 w) as Hrun.
    destruct (stageLoop body (responsePlugins pluginsGlobals) s1 h1 w)
      as [trace t].
    simpl in Hrun.
    assert (Hturns : turn_goes_on body /\ turn_records body
                     /\ turn_drops packet body).
    { split; [apply responseTurn_goes_on |].
      split; [apply responseTurn_records | apply responseTurn_drops]. }
    destruct Hturns as (Hgo & Hrec & Hdrop).
    destruct t as [s' h' w' | s' h' w' | p e s' h' w' |]; simpl.
    + destruct (deref h' msg) as [m' |];
        [destruct (dns_PackBuffer dns _ packet) |];
        apply Hrun; auto; discriminate.
    + destruct (deref h' msg) as [m' |];
        [destruct (dns_PackBuffer dns _ packet) |];
        apply Hrun; auto; discriminate.
    + apply Hrun; auto. intros err s2 h2 w2 [= -> -> -> -> ->]. reflexivity.
    + apply Hrun; auto. discriminate.
Qed.

End PipelineProperties.

Section LoggingProperties.

Context {W : Type} (ext : Externals W).

Lemma loggingLoop_iterated (questionMsg : addr) (plugins : list (Plugin W)) :
  plugins <> [] ->
  forall s h w,
    let run := stageLoop (loggingTurn questionMsg) plugins s h w in
    fst run <> [] /\
    ((map ev_plugin (fst run) = plugins /\
      Forall (fun ev => ev_err ev = None) (fst run) /\
      exists s' h' w', snd run = TurnNext s' h' w') \/
     (exists pre ev err rest,
        fst run = pre ++ [ev] /\
        plugins = map ev_plugin (fst run) ++ rest /\
        Forall (fun ev => ev_err ev = None) pre /\
        ev_err ev = Some err /\
        exists s' h' w', snd run = TurnReturn None err s' h' w')).
Proof.
  induction plugins as [| plugin plugins IH]; [congruence |].
  intros _ s h w. cbv zeta. cbn [stageLoop].
  assert (Hturn :
    (exists s1 h1 w1 err,
       loggingTurn questionMsg plugin s h w
       = ({| ev_plugin := plugin; ev_err := Some err;
             ev_action := action s1 |}, TurnReturn None err s1 h1 w1)) \/
    (exists s1 h1 w1,
       loggingTurn questionMsg plugin s h w
       = ({| ev_plugin := plugin; ev_err := None;
             ev_action := action s1 |}, TurnNext s1 h1 w1))).
  { unfold loggingTurn.
    destruct (Eval plugin s questionMsg h w) as [[[s1 h1] [err |]] w1].
    - left. exists s1, h1, w1, err. reflexivity.
    - right. exists s1, h1, w1. reflexivity. }
  destruct Hturn as [(s1 & h1 & w1 & err & ->) | (s1 & h1 & w1 & ->)].
  - simpl. split; [discriminate |]. right.
    exists [], {| ev_plugin := plugin; ev_err := Some err;
                  ev_action := action s1 |}, err, plugins.
    repeat split; auto. eexists. eexists. eexists. reflexivity.
  - destruct plugins as [| next plugins].
    + simpl. split; [discriminate |]. left.
      repeat split; auto. eexists. eexists. eexists. reflexivity.
    + assert (Hne : next :: plugins <> []) by discriminate.
      specialize (IH Hne s1 h1 w1). cbv zeta in IH.
      destruct (stageLoop (loggingTurn questionMsg) (next :: plugins)
                          s1 h1 w1) as [trace t].
      simpl in *. split; [discriminate |].
      destruct IH as [_ [(Hall & Hok & Hend)
                        | (pre & ev & err & rest & Htr & Hpl & Hok & He & Hend)]].
      * left. repeat split; auto. congruence.
      * right.
        exists ({| ev_plugin := plugin; ev_err := None;
                   ev_action := action s1 |} :: pre), ev, err, rest.
        repeat split; auto; simpl; congruence.
Qed.

(** C10, as the code has it. With a logging sequence that is not empty,
    [ApplyLoggingPlugins] wants a parsed question message with at most
    one question: it returns the error of the number of questions,
    without evaluating a module, when [questionMsg] is nil or the
    message has more than one question; with one question or with none
    it iterates the logging modules, and returns the error of the first
    module that fails, or none. *)
Theorem ApplyLoggingPlugins_requires_at_most_one_question
  (pluginsState : PluginsState) (pluginsGlobals : PluginsGlobals W)
  (h : Heap) (w : W) :
  loggingPlugins pluginsGlobals <> [] ->
  let stamped := with_requestEnd pluginsState (fst (time_Now ext w)) in
  let refused :=
    ([], Returns (Some ErrUnexpectedNumberOfQuestions, stamped, h,
                  snd (time_Now ext w))) in
  let run := ApplyLoggingPlugins ext pluginsState pluginsGlobals h w in
  (questionMsg pluginsState = None -> run = refused) /\
  (forall a m,
     questionMsg pluginsState = Some a -> deref h a = Some m ->
     (len (Question m) > 1 -> run = refused) /\
     (len (Question m) <= 1 ->
      iterated (loggingPlugins pluginsGlobals) (fst run) (snd run))).
Proof.
  intros Hne stamped refused run. subst stamped refused run.
  unfold ApplyLoggingPlugins.
  assert (Hlen : (len (loggingPlugins pluginsGlobals) =? 0) = false).
  { destruct (loggingPlugins pluginsGlobals); [congruence |].
    unfold len. apply Z.eqb_neq. simpl List.length. lia. }
  rewrite Hlen. destruct (time_Now ext w) as [now w1].
  cbn [fst snd questionMsg with_requestEnd].
  split.
  - intros ->. reflexivity.
  - intros a m -> Hm. rewrite Hm. split.
    + intros Hgt. apply Z.gtb_gt in Hgt.
      rewrite Hgt. reflexivity.
    + intros Hle.
      assert (Hgt : (len (Question m) >? 1) = false)
        by (rewrite Z.gtb_ltb; apply Z.ltb_ge; lia).
      rewrite Hgt.
      pose proof (loggingLoop_iterated a (loggingPlugins pluginsGlobals) Hne
                    (with_requestEnd pluginsState now) h w1) as Hrun.
      cbv zeta in Hrun.
      destruct (stageLoop (loggingTurn a) (loggingPlugins pluginsGlobals)
                          (with_requestEnd pluginsState now) h w1)
        as [trace t].
      simpl in Hrun. destruct Hrun as [Hnonempty Hcases].
      unfold iterated.
      destruct Hcases
        as [(Hall & Hok & s' & h' & w' & ->)
           | (pre & ev & err & rest & Htr & Hpl & Hok & He
              & s' & h' & w' & ->)];
        simpl; (split; [exact Hnonempty |]).
      * left. repeat split; auto. eexists. eexists. eexists. reflexivity.
      * right. exists pre, ev, err, rest. repeat split; auto.
        eexists. eexists. eexists. reflexivity.
Qed.

End LoggingProperties.

(** *** The stages in the small world *)

(** Of three query modules the second rejects: two are evaluated, the
    third never is. *)
Example query_stage_stops_after_reject :
  map (fun ev => plugin_Name (ev_plugin ev))
      (fst (ApplyQueryPlugins sc_dns sc_state
              (sc_globals [sc_pass; sc_reject; sc_pass] [] [])
              sc_reply "fast" [] 0%nat))
  = ["pass"; "reject"].
Proof. reflexivity. Qed.

(** Of three response modules the first fails: it alone is evaluated,
    and the stage returns the packet it was given with the error. *)
Example response_stage_stops_after_error :
  exists s h,
    ApplyResponsePlugins sc_ext sc_dns sc_state
      (sc_globals [] [sc_fail; sc_pass; sc_pass] [])
      sc_reply None [] 0%nat
    = ([{| ev_plugin := sc_fail; ev_err := Some (ErrExternal "disk full");
           ev_action := PluginsActionForward |}],
       Returns (Some sc_reply, Some (ErrExternal "disk full"), s, h, 1%nat)) /\
    action s = PluginsActionDrop.
Proof. eexists. eexists. split; reflexivity. Qed.

(** A parsed message without a question: the logging stage returns no
    error and evaluates its module. *)
Lemma logging_accepts_no_question :
  len (Question sc_no_question) = 0 /\
  deref [sc_no_question] 0%nat = Some sc_no_question /\
  questionMsg sc_logged_state = Some 0%nat /\
  exists s,
    ApplyLoggingPlugins sc_ext sc_logged_state
      (sc_globals [] [] [sc_pass]) [sc_no_question] 0%nat
    = ([{| ev_plugin := sc_pass; ev_err := None;
           ev_action := PluginsActionForward |}],
       Returns (None, s, [sc_no_question], 1%nat)).
Proof.
  split; [reflexivity |]. split; [reflexivity |]. split; [reflexivity |].
  eexists. reflexivity.
Qed.

Lemma ApplyLoggingPlugins_requires_at_most_one_question_witness :
  iterated [sc_pass]
    (fst (ApplyLoggingPlugins sc_ext sc_logged_state
            (sc_globals [] [] [sc_pass]) [sc_no_question] 0%nat))
    (snd (ApplyLoggingPlugins sc_ext sc_logged_state
            (sc_globals [] [] [sc_pass]) [sc_no_question] 0%nat)).
Proof.
  refine (proj2 (proj2 (ApplyLoggingPlugins_requires_at_most_one_question
                          sc_ext sc_logged_state
                          (sc_globals [] [] [sc_pass]) [sc_no_question]
                          0%nat _)
                       0%nat sc_no_question _ _) _).
  - discriminate.
  - reflexivity.
  - reflexivity.
  - by_computation.
Defined.

(** * More properties of the pool *)

Section RegistryProperties.

Context {MA : Type}.

Lemma firstNamed_app (l1 l2 : list RegisteredServer) (name : string) :
  firstNamed (l1 ++ l2) name
  = match firstNamed l1 name with
    | Some r => Some r
    | None => firstNamed l2 name
    end.
Proof.
  unfold firstNamed. induction l1 as [| r l1 IH]; simpl; [reflexivity |].
  destruct (String.eqb (Name r) name); [reflexivity | exact IH].
Qed.

Lemma registerReplace_lookup (registered replaced : list RegisteredServer)
  (name : string) (stamp : ServerStamp) :
  registerReplace registered name
    {| Name := name; Stamp := stamp; Description := "" |} = Some replaced ->
  firstNamed replaced name
  = Some {| Name := name; Stamp := stamp; Description := "" |} /\
  (forall other, other <> name ->
     firstNamed replaced other = firstNamed registered other) /\
  List.length replaced = List.length registered /\
  firstNamed registered name <> None.
Proof.
  revert replaced. unfold firstNamed.
  induction registered as [| r rest IH]; intros replaced; simpl;
    [discriminate |].
  destruct (String.eqb (Name r) name) eqn:Hn.
  - intros [= <-]. simpl. rewrite String.eqb_refl.
    apply String.eqb_eq in Hn.
    split; [reflexivity |]. split; [| split; [reflexivity | discriminate]].
    intros other Hother.
    assert (Ho : String.eqb name other = false)
      by (apply String.eqb_neq; congruence).
    rewrite Hn, Ho. reflexivity.
  - destruct (registerReplace rest name _) as [rest' |] eqn:Hr;
      [| discriminate].
    intros [= <-]. destruct (IH rest' eq_refl) as (Hl & Ho & Hlen & Hin).
    simpl. rewrite Hn. split; [exact Hl |].
    split; [| split; [congruence | exact Hin]].
    intros other Hother. rewrite (Ho other Hother). reflexivity.
Qed.

Lemma registerReplace_missing (registered : list RegisteredServer)
  (name : string) (new : RegisteredServer) :
  registerReplace registered name new = None ->
  firstNamed registered name = None.
Proof.
  unfold firstNamed. induction registered as [| r rest IH]; simpl;
    [reflexivity |].
  destruct (String.eqb (Name r) name); [discriminate |].
  destruct (registerReplace rest name new); [discriminate |]. exact IH.
Qed.

(** X1. Registering and looking up. After [registerServer] the first
    (and, in a registry without duplicates, only) entry of the name
    carries the stamp just given, the entries of every other name are
    as before, the registry has grown by one exactly when the name was
    not in it, the live pool is untouched and the error is nil. *)
Theorem registerServer_then_lookup (serversInfo : ServersInfo MA)
  (name : string) (stamp : ServerStamp) :
  let registered := fst (registerServer serversInfo name stamp) in
  snd (registerServer serversInfo name stamp) = None /\
  inner registered = inner serversInfo /\
  firstNamed (registeredServers registered) name
  = Some {| Name := name; Stamp := stamp; Description := "" |} /\
  (forall other, other <> name ->
     firstNamed (registeredServers registered) other
     = firstNamed (registeredServers serversInfo) other) /\
  List.length (registeredServers registered)
  = match firstNamed (registeredServers serversInfo) name with
    | Some _ => List.length (registeredServers serversInfo)
    | None => S (List.length (registeredServers serversInfo))
    end.
Proof.
  unfold registerServer.
  destruct (registerReplace _ name _) as [replaced |] eqn:Hr;
    cbn [fst snd registeredServers inner with_registeredServers].
  - destruct (registerReplace_lookup _ _ _ _ Hr) as (Hl & Ho & Hlen & Hin).
    repeat split; auto.
    destruct (firstNamed (registeredServers serversInfo) name);
      [exact Hlen | congruence].
  - apply registerReplace_missing in Hr.
    rewrite !firstNamed_app, Hr. unfold firstNamed at 1. simpl.
    rewrite String.eqb_refl. repeat split; auto.
    + intros other Hother. rewrite firstNamed_app.
      destruct (firstNamed (registeredServers serversInfo) other);
        [reflexivity |].
      unfold firstNamed. simpl.
      assert (Ho : String.eqb name other = false)
        by (apply String.eqb_neq; congruence).
      rewrite Ho. reflexivity.
    + rewrite length_app. simpl. lia.
Qed.

End RegistryProperties.

(** ** The public key of a DNSCrypt stamp *)

Lemma list_pair_ind {A : Type} (P : list A -> Prop) :
  P [] -> (forall a, P [a]) ->
  (forall a b l, P l -> P (a :: b :: l)) ->
  forall l, P l.
Proof.
  intros Hnil Hone Hstep l.
  assert (Hboth : P l /\ forall a, P (a :: l)).
  { induction l as [| b l [IHl IHcons]]; [split; auto |].
    split; [apply IHcons |]. intros a. apply Hstep. exact IHl. }
  exact (proj1 Hboth).
Qed.

Lemma fromHexChar_bound (c : byte) (n : N) :
  fromHexChar c = Some n -> (n < 16)%N.
Proof.
  unfold fromHexChar.
  destruct ((48 <=? Byte.to_N c)%N && (Byte.to_N c <=? 57)%N) eqn:H1.
  { apply andb_true_iff in H1. destruct H1 as [Ha Hb].
    apply N.leb_le in Ha, Hb. intros [= <-]. lia. }
  destruct ((97 <=? Byte.to_N c)%N && (Byte.to_N c <=? 102)%N) eqn:H2.
  { apply andb_true_iff in H2. destruct H2 as [Ha Hb].
    apply N.leb_le in Ha, Hb. intros [= <-]. lia. }
  destruct ((65 <=? Byte.to_N c)%N && (Byte.to_N c <=? 70)%N) eqn:H3;
    [| discriminate].
  apply andb_true_iff in H3. destruct H3 as [Ha Hb].
  apply N.leb_le in Ha, Hb. intros [= <-]. lia.
Qed.

(** [hex.DecodeString] succeeds exactly on an even number of hex
    digits, and gives one byte for two of them. *)
Lemma hex_DecodeString_digits (src : bytes) :
  ((exists dst, hex_DecodeString src = Some dst) <->
   Nat.even (List.length src) = true /\ forallb isHexDigit src = true) /\
  (forall dst, hex_DecodeString src = Some dst ->
     List.length src = (2 * List.length dst)%nat).
Proof.
  induction src as [| a | a b rest [IHiff IHlen]] using list_pair_ind.
  - split; [| intros dst [= <-]; reflexivity].
    split; [auto | intros _; exists []; reflexivity].
  - split; [| discriminate].
    split; [intros [dst [=]] | intros [[=] _]].
  - cbn [hex_DecodeString List.length forallb]. unfold isHexDigit at 1 2.
    change (Nat.even (S (S (List.length rest))))
      with (Nat.even (List.length rest)).
    destruct (fromHexChar a) as [x |] eqn:Ha;
      [| split; [split; [intros [? [=]] | intros [_ [=]]] | discriminate]].
    destruct (fromHexChar b) as [y |] eqn:Hb;
      [| split; [split; [intros [? [=]] | intros [_ [=]]] | discriminate]].
    apply fromHexChar_bound in Ha, Hb.
    destruct (Byte.of_N (x * 16 + y)) as [c |] eqn:Hc.
    2: { apply Byte.of_N_None_iff in Hc. lia. }
    cbn [andb].
    destruct (hex_DecodeString rest) as [r |].
    + split.
      * split; [intros _; apply IHiff; exists r; reflexivity |].
        intros _. exists (c :: r). reflexivity.
      * intros dst [= <-]. rewrite (IHlen r eq_refl). simpl. lia.
    + split; [| discriminate]. split; [intros [? [=]] |].
      intros Hok. apply IHiff in Hok. destruct Hok as [? [=]].
Qed.

Section PublicKeyProperties.

Context {W : Type}.

Lemma normalizeServerPk_cases (stamp : ServerStamp) (w : W) :
  ((exists stamp', normalizeServerPk stamp w = Returns (stamp', w)) <->
   acceptableServerPk (ServerPk stamp)) /\
  (normalizeServerPk stamp w = Exits <->
   ~ acceptableServerPk (ServerPk stamp)) /\
  (forall stamp' w',
     normalizeServerPk stamp w = Returns (stamp', w') ->
     w' = w /\ len (ServerPk stamp') = 32 /\
     ServerAddrStr stamp' = ServerAddrStr stamp /\
     Hashes stamp' = Hashes stamp /\
     ProviderName stamp' = ProviderName stamp /\
     Path stamp' = Path stamp /\ Proto stamp' = Proto stamp /\
     (len (ServerPk stamp) = 32 -> stamp' = stamp)).
Proof.
  unfold normalizeServerPk, acceptableServerPk, ed25519_PublicKeySize,
    fatal, ret.
  destruct (len (ServerPk stamp) =? 32) eqn:Hraw; cbn [negb].
  { apply Z.eqb_eq in Hraw. split; [| split].
    - split; [auto | intros _; exists stamp; reflexivity].
    - split; [discriminate | intros Hno; exfalso; apply Hno; auto].
    - intros stamp' w' [= <- <-]. repeat split; auto. }
  apply Z.eqb_neq in Hraw.
  destruct (hex_DecodeString_digits (removeColons (ServerPk stamp)))
    as [Hiff Hlen].
  destruct (hex_DecodeString (removeColons (ServerPk stamp)))
    as [serverPk |] eqn:Hdec.
  - specialize (Hlen serverPk eq_refl).
    assert (Hdigits : forallb isHexDigit (removeColons (ServerPk stamp))
                      = true)
      by (apply Hiff; exists serverPk; reflexivity).
    destruct (len serverPk =? 32) eqn:Hdecoded; cbn [negb].
    + apply Z.eqb_eq in Hdecoded. unfold len in Hdecoded.
      split; [| split].
      * split; [intros _; right; split; [lia | exact Hdigits] |].
        intros _. eexists. reflexivity.
      * split; [discriminate |]. intros Hno. exfalso. apply Hno.
        right. split; [lia | exact Hdigits].
      * intros stamp' w' [= <- <-]. cbn. unfold len.
        repeat split; auto; try lia. intros Habs. contradiction.
    + apply Z.eqb_neq in Hdecoded. unfold len in Hdecoded.
      split; [| split].
      * split; [intros [? [=]] |]. intros [Habs | [H64 _]];
          [contradiction | lia].
      * split; [| reflexivity]. intros _ [Habs | [H64 _]];
          [contradiction | lia].
      * discriminate.
  - split; [| split].
    + split; [intros [? [=]] |]. intros [Habs | [H64 Hd]];
        [contradiction |].
      assert (Hsome : exists dst, None = Some dst)
        by (apply Hiff; split; [rewrite H64; reflexivity | exact Hd]).
      destruct Hsome as [? [=]].
    + split; [| reflexivity]. intros _ [Habs | [H64 Hd]];
        [contradiction |].
      assert (Hsome : exists dst, None = Some dst)
        by (apply Hiff; split; [rewrite H64; reflexivity | exact Hd]).
      destruct Hsome as [? [=]].
    + discriminate.
Qed.

(** X2. The public key of a DNSCrypt stamp. [normalizeServerPk], the
    head of [fetchDNSCryptServerInfo], returns exactly for a key of 32
    raw bytes or of 64 hex digits with any number of colons among them,
    and ends the process for every other key. When it returns, the key
    it hands on is 32 bytes long, the other fields of the stamp and the
    world are as they were, and a key of 32 bytes is handed on as it
    is. *)
Theorem normalizeServerPk_accepts (stamp : ServerStamp) (w : W) :
  ((exists stamp', normalizeServerPk stamp w = Returns (stamp', w)) <->
   acceptableServerPk (ServerPk stamp)) /\
  (normalizeServerPk stamp w = Exits <->
   ~ acceptableServerPk (ServerPk stamp)) /\
  (forall stamp' w',
     normalizeServerPk stamp w = Returns (stamp', w') ->
     w' = w /\ len (ServerPk stamp') = 32 /\
     ServerAddrStr stamp' = ServerAddrStr stamp /\
     Hashes stamp' = Hashes stamp /\
     ProviderName stamp' = ProviderName stamp /\
     Path stamp' = Path stamp /\ Proto stamp' = Proto stamp /\
     (len (ServerPk stamp) = 32 -> stamp' = stamp)).
Proof. exact (normalizeServerPk_cases stamp w). Qed.

End PublicKeyProperties.

(** ** What a fetch can do *)

Lemma never_exits_ret {W A : Type} (a : A) : never_exits (W := W) (ret a).
Proof. intros w. discriminate. Qed.

Lemma never_exits_lift {W A : Type} (f : W -> A * W) : never_exits (lift f).
Proof. intros w. discriminate. Qed.

Lemma never_exits_panic {W A : Type} : never_exits (W := W) (A := A) panic.
Proof. intros w. discriminate. Qed.

Lemma never_exits_bind {W A B : Type} (m : M W A) (k : A -> M W B) :
  never_exits m -> (forall a, never_exits (k a)) -> never_exits (bind m k).
Proof.
  intros Hm Hk w. unfold bind. specialize (Hm w).
  destruct (m w) as [[a w1] | |]; [apply Hk | congruence | discriminate].
Qed.

Lemma never_exits_index {W A : Type} (l : list A) (i : nat) :
  never_exits (W := W) (index l i).
Proof.
  unfold index. destruct (nth_error l i);
    [apply never_exits_ret | apply never_exits_panic].
Qed.

Lemma never_exits_rand_Intn {W : Type} (ext : Externals W) (n : nat) :
  never_exits (rand_Intn ext n).
Proof.
  unfold rand_Intn. destruct n; [apply never_exits_panic |].
  intros w. destruct (rand_draw ext w). discriminate.
Qed.

Create HintDb never_exits.

#[local] Hint Resolve never_exits_ret never_exits_lift never_exits_panic
  never_exits_index never_exits_rand_Intn : never_exits.

Ltac never_exits_step :=
  match goal with
  | |- never_exits (bind _ _) => apply never_exits_bind; [| intros ?]
  | |- never_exits (match ?x with _ => _ end) => destruct x
  | |- never_exits (if ?b then _ else _) => destruct b
  | |- never_exits (let (_, _) := ?x in _) => destruct x
  | |- never_exits _ => solve [auto with never_exits]
  end.

Section FetchProperties.

Context {W : Type} (ext : Externals W).
Context {MA : Type}.

Lemma route_never_exits (proxy : Proxy) (name : string) (stamp : ServerStamp) :
  never_exits (route ext proxy name stamp).
Proof.
  unfold route, relayCandidate, relayResolve. repeat never_exits_step.
Qed.

Lemma dohAccept_never_exits (proxy : Proxy) (name : string)
  (stamp : ServerStamp) (url : URL) (resp : Response) (rtt : Duration)
  (useGet : bool) :
  never_exits (dohAccept (MA := MA) ext proxy name stamp url resp rtt useGet).
Proof.
  unfold dohAccept, dohUnexpected. repeat never_exits_step.
Qed.

Lemma fetchDoHServerInfo_never_exits (proxy : Proxy) (name : string)
  (stamp : ServerStamp) (isNew : bool) :
  never_exits (fetchDoHServerInfo (MA := MA) ext proxy name stamp isNew).
Proof.
  unfold fetchDoHServerInfo, dohSeedCache, dohProbe.
  repeat never_exits_step; try apply dohAccept_never_exits.
  intros w. discriminate.
Qed.

Lemma dohAccept_result (proxy : Proxy) (name : string) (stamp : ServerStamp)
  (url : URL) (resp : Response) (rtt' : Duration) (useGet : bool)
  (info : ServerInfo MA) (w w' : W) :
  dohAccept ext proxy name stamp url resp rtt' useGet w
  = Returns (inl info, w') ->
  info = {| si_Proto := StampProtoTypeDoH;
            MagicQuery := []; si_ServerPk := [];
            SharedKey := []; CryptoConstruction := 0;
            si_Name := name; si_Timeout := Timeout proxy;
            si_URL := Some url; HostName := ProviderName stamp;
            UDPAddr_ := None; TCPAddr_ := None;
            RelayUDPAddr := None; RelayTCPAddr := None;
            lastActionTS := 0; rtt := None;
            initialRtt := milliseconds rtt'; useGet := useGet |}.
Proof.
  unfold dohAccept.
  destruct (TLS resp) as [tls |]; [| discriminate].
  destruct (negb (HandshakeComplete tls)); [discriminate |].
  destruct (pinCertificates _ _ _ _) as [found wanted].
  destruct (negb found && _); [discriminate |].
  destruct (ReadAllLimit _ _) as [respBody |]; [| discriminate].
  unfold bind.
  destruct (dohUnexpected ext respBody w) as [[[|] w1] | |];
    try discriminate.
  intros [= <- _]. reflexivity.
Qed.

Lemma fetchServerInfo_returns (proxy : Proxy) (name : string)
  (stamp : ServerStamp) (isNew : bool) (info : ServerInfo MA) (w w' : W) :
  fetchServerInfo ext proxy name stamp isNew w = Returns (inl info, w') ->
  si_Name info = name /\
  si_Proto info = Proto stamp /\
  si_Timeout info = Timeout proxy /\
  rtt info = None /\ lastActionTS info = 0 /\
  ((Proto stamp = StampProtoTypeDoH /\
    HostName info = ProviderName stamp /\
    si_URL info = Some {| Scheme := "https"; Host := ProviderName stamp;
                          URLPath := Path stamp |} /\
    UDPAddr_ info = None /\ TCPAddr_ info = None) \/
   (Proto stamp = StampProtoTypeDNSCrypt /\
    si_URL info = None /\ useGet info = false /\
    UDPAddr_ info <> None /\ TCPAddr_ info <> None /\
    ((RelayUDPAddr info = None /\ RelayTCPAddr info = None) \/
     (RelayUDPAddr info <> None /\ RelayTCPAddr info <> None)))).
Proof.
  unfold fetchServerInfo.
  destruct (Proto stamp) eqn:Hproto; try discriminate.
  - (* DNSCrypt *)
    unfold fetchDNSCryptServerInfo. intros Hrun.
    apply bind_Returns in Hrun. destruct Hrun as (stamp' & w1 & _ & Hrun).
    apply bind_Returns in Hrun.
    destruct Hrun as ([[relayUDP relayTCP] | err] & w2 & Hroute & Hrun);
      [| discriminate].
    apply bind_Returns in Hrun.
    destruct Hrun as ([[certInfo rtt0] | err] & w3 & _ & Hrun);
      [| discriminate].
    apply bind_Returns in Hrun.
    destruct Hrun as ([udp | err] & w4 & _ & Hrun); [| discriminate].
    apply bind_Returns in Hrun.
    destruct Hrun as ([tcp | err] & w5 & _ & Hrun); [| discriminate].
    injection Hrun as <- _. cbn.
    repeat (split; [reflexivity |]). right.
    repeat (split; [reflexivity || discriminate |]).
    (* the relay addresses come in pairs *)
    clear - Hroute. unfold route in Hroute.
    destruct (Routes proxy) as [routes |];
      [| injection Hroute as <- <- _; left; split; reflexivity].
    destruct (match routes name with
              | Some relayNames => Some relayNames
              | None => routes "*"
              end) as [relayNames |];
      [| injection Hroute as <- <- _; left; split; reflexivity].
    apply bind_Returns in Hroute.
    destruct Hroute as (relayName & w3 & _ & Hroute).
    destruct (strlen relayName =? 0); [discriminate |].
    apply bind_Returns in Hroute.
    destruct Hroute as (candidate & w4 & _ & Hroute).
    unfold relayResolve in Hroute.
    destruct candidate as [candidate |]; [| discriminate].
    destruct (_ || _); [| discriminate].
    apply bind_Returns in Hroute.
    destruct Hroute as ([u | err] & w5 & _ & Hroute); [| discriminate].
    apply bind_Returns in Hroute.
    destruct Hroute as ([t | err] & w6 & _ & Hroute); [| discriminate].
    injection Hroute as <- <- _. right. split; discriminate.
  - (* DoH *)
    unfold fetchDoHServerInfo. intros Hrun.
    apply bind_Returns in Hrun. destruct Hrun as ([] & w1 & _ & Hrun).
    apply bind_Returns in Hrun.
    destruct Hrun as ([[[resp rtt0] get] | err] & w2 & _ & Hrun);
      [| discriminate].
    apply dohAccept_result in Hrun. subst info. cbn.
    repeat (split; [reflexivity |]). left.
    repeat split; reflexivity.
Qed.

(** X3. What a fetched server looks like. When [fetchServerInfo]
    returns a server, the stamp is a DNSCrypt or a DoH stamp, the server
    has the protocol of the stamp, the name it was asked for and the
    timeout of the proxy, and its average and its last action are not
    set yet; a DoH server has the provider name as host name and as the
    host of its URL, a DNSCrypt server has both its addresses. *)
Theorem fetchServerInfo_result (proxy : Proxy) (name : string)
  (stamp : ServerStamp) (isNew : bool) (info : ServerInfo MA) (w w' : W) :
  fetchServerInfo ext proxy name stamp isNew w = Returns (inl info, w') ->
  si_Name info = name /\
  si_Proto info = Proto stamp /\
  si_Timeout info = Timeout proxy /\
  rtt info = None /\ lastActionTS info = 0 /\
  ((Proto stamp = StampProtoTypeDoH /\
    HostName info = ProviderName stamp /\
    si_URL info = Some {| Scheme := "https"; Host := ProviderName stamp;
                          URLPath := Path stamp |} /\
    UDPAddr_ info = None /\ TCPAddr_ info = None) \/
   (Proto stamp = StampProtoTypeDNSCrypt /\
    si_URL info = None /\ useGet info = false /\
    UDPAddr_ info <> None /\ TCPAddr_ info <> None /\
    ((RelayUDPAddr info = None /\ RelayTCPAddr info = None) \/
     (RelayUDPAddr info <> None /\ RelayTCPAddr info <> None)))).
Proof. apply fetchServerInfo_returns. Qed.

End FetchProperties.

Lemma bind_Exits {W A B : Type} (m : M W A) (k : A -> M W B) (w : W) :
  bind m k w = Exits ->
  m w = Exits \/ exists a w1, m w = Returns (a, w1) /\ k a w1 = Exits.
Proof.
  unfold bind. destruct (m w) as [[a w1] | |]; try discriminate; auto.
  intros Hk. right. exists a, w1. auto.
Qed.

Section FatalProperties.

Context {W : Type} (ext : Externals W).
Context {MA : Type} `{MovingAverage MA}.

Lemma fetchServerInfo_exits (proxy : Proxy) (name : string)
  (stamp : ServerStamp) (isNew : bool) (w : W) :
  fetchServerInfo (MA := MA) ext proxy name stamp isNew w = Exits <->
  Proto stamp = StampProtoTypeDNSCrypt /\
  ~ acceptableServerPk (ServerPk stamp).
Proof.
  unfold fetchServerInfo.
  destruct (Proto stamp) eqn:Hproto;
    try (split; [discriminate | intros [[=] _]]).
  - destruct (normalizeServerPk_cases (W := W) stamp w)
      as (_ & Hexits & _).
    rewrite <- Hexits. unfold fetchDNSCryptServerInfo. split.
    + intros Hrun. apply bind_Exits in Hrun.
      destruct Hrun as [Hnorm | (stamp' & w1 & _ & Hrest)];
        [split; [reflexivity | exact Hnorm] |].
      exfalso.
      match type of Hrest with
      | ?m w1 = Exits =>
        assert (Hne : never_exits m)
          by (repeat never_exits_step; apply route_never_exits)
      end.
      exact (Hne w1 Hrest).
    + intros [_ Hnorm]. unfold bind. rewrite Hnorm. reflexivity.
  - split; [| intros [[=] _]]. intros Hrun. exfalso.
    exact (fetchDoHServerInfo_never_exits ext proxy name stamp isNew w Hrun).
Qed.

(** X4. The one fatal path. [refreshServer] ends the process exactly
    for a DNSCrypt stamp whose public key is neither 32 raw bytes nor
    64 hex digits; the check of the server's name against the name
    asked for never fails, because both fetches name the server as they
    were asked to. *)
Theorem refreshServer_exits_only_on_bad_key (proxy : Proxy)
  (serversInfo : ServersInfo MA) (name : string) (stamp : ServerStamp)
  (w : W) :
  refreshServer ext proxy serversInfo name stamp w = Exits <->
  Proto stamp = StampProtoTypeDNSCrypt /\
  ~ acceptableServerPk (ServerPk stamp).
Proof.
  rewrite <- (fetchServerInfo_exits proxy name stamp
                (isNewServer (inner serversInfo) name) w).
  unfold refreshServer, bind.
  destruct (fetchServerInfo ext proxy name stamp _ w)
    as [[[info | err] w1] | |] eqn:Hfetch;
    try (split; [discriminate || reflexivity | discriminate || reflexivity]).
  apply fetchServerInfo_returns in Hfetch.
  destruct Hfetch as (Hname & _). rewrite Hname, String.eqb_refl.
  cbn [negb]. destruct (replaceLive _ _ _) as [replaced [|]];
    split; discriminate.
Qed.

End FatalProperties.

(** ** What a refresh keeps *)

Section RefreshInvariants.

Context {W : Type} (ext : Externals W).
Context {MA : Type} `{MovingAverage MA}.

Lemma replaceLive_flag (pool : list (ServerInfo MA)) (name : string)
  (new : ServerInfo MA) :
  snd (replaceLive pool name new) = isNewServer pool name.
Proof.
  unfold isNewServer. induction pool as [| old rest IH]; simpl;
    [reflexivity |].
  destruct (String.eqb (si_Name old) name); [reflexivity |].
  destruct (replaceLive rest name new). simpl in *. exact IH.
Qed.

Lemma replaceLive_names (pool : list (ServerInfo MA)) (name : string)
  (new : ServerInfo MA) :
  si_Name new = name ->
  snd (replaceLive pool name new) = false ->
  map si_Name (fst (replaceLive pool name new)) = map si_Name pool.
Proof.
  intros Hname. induction pool as [| old rest IH]; simpl; [discriminate |].
  destruct (String.eqb (si_Name old) name) eqn:Hold.
  - intros _. simpl. apply String.eqb_eq in Hold. congruence.
  - destruct (replaceLive rest name new) as [rest' flag]. simpl in *.
    intros Hflag. rewrite (IH Hflag). reflexivity.
Qed.

Lemma isNewServer_names (pool : list (ServerInfo MA)) (name : string) :
  isNewServer pool name = true <-> ~ In name (map si_Name pool).
Proof.
  unfold isNewServer. rewrite negb_true_iff.
  induction pool as [| old rest IH]; simpl; [tauto |].
  destruct (String.eqb (si_Name old) name) eqn:Hold; simpl.
  - apply String.eqb_eq in Hold. split; [discriminate | tauto].
  - apply String.eqb_neq in Hold. rewrite IH. tauto.
Qed.

(** The three ways [refreshServer] returns: with the error of the fetch
    and nothing changed; with the server of that name replaced where it
    was; with the server and its registration appended. *)
Lemma refreshServer_cases (proxy : Proxy) (serversInfo : ServersInfo MA)
  (name : string) (stamp : ServerStamp) (serversInfo' : ServersInfo MA)
  (err : option error) (w w' : W) :
  refreshServer ext proxy serversInfo name stamp w
  = Returns ((serversInfo', err), w') ->
  LBStrategy_ serversInfo' = LBStrategy_ serversInfo /\
  LBEstimator serversInfo' = LBEstimator serversInfo /\
  ((err <> None /\ serversInfo' = serversInfo) \/
   (err = None /\ In name (map si_Name (inner serversInfo)) /\
    In name (map si_Name (inner serversInfo')) /\
    map si_Name (inner serversInfo') = map si_Name (inner serversInfo) /\
    registeredServers serversInfo' = registeredServers serversInfo) \/
   (err = None /\ ~ In name (map si_Name (inner serversInfo)) /\
    map si_Name (inner serversInfo')
    = map si_Name (inner serversInfo) ++ [name] /\
    registeredServers serversInfo'
    = registeredServers serversInfo
      ++ [{| Name := name; Stamp := stamp; Description := "" |}])).
Proof.
  unfold refreshServer. intros Hrun. apply bind_Returns in Hrun.
  destruct Hrun as ([info | e] & w1 & Hfetch & Hrun).
  2: { injection Hrun as <- <- _. split; [reflexivity |].
       split; [reflexivity |]. left. split; [discriminate | reflexivity]. }
  apply fetchServerInfo_returns in Hfetch. destruct Hfetch as (Hname & _).
  rewrite Hname, String.eqb_refl in Hrun. cbn [negb] in Hrun.
  set (new := with_rtt info _) in Hrun.
  assert (Hnew : si_Name new = name) by exact Hname.
  pose proof (replaceLive_flag (inner serversInfo) name new) as Hflag.
  pose proof (replaceLive_names (inner serversInfo) name new Hnew) as Hnames.
  destruct (replaceLive (inner serversInfo) name new) as [replaced isNew].
  simpl in Hflag, Hnames. subst isNew.
  destruct (isNewServer (inner serversInfo) name) eqn:Hfresh.
  - injection Hrun as <- <- _. cbn.
    split; [reflexivity |]. split; [reflexivity |]. right. right.
    apply isNewServer_names in Hfresh.
    split; [reflexivity |]. split; [exact Hfresh |].
    split; [| reflexivity]. rewrite map_app. simpl. congruence.
  - injection Hrun as <- <- _. cbn.
    split; [reflexivity |]. split; [reflexivity |]. right. left.
    assert (Hin : In name (map si_Name (inner serversInfo))).
    { destruct (in_dec string_dec name (map si_Name (inner serversInfo)))
        as [Hin | Hout]; [exact Hin |].
      apply isNewServer_names in Hout. congruence. }
    rewrite (Hnames eq_refl). auto.
Qed.

(** What every [refreshServer] that returns keeps, the loop of [refresh]
    keeps. *)
Lemma refreshLoop_invariant (P : ServersInfo MA -> Prop) (proxy : Proxy) :
  (forall serversInfo name stamp serversInfo' err w w',
     P serversInfo ->
     refreshServer ext proxy serversInfo name stamp w
     = Returns ((serversInfo', err), w') ->
     P serversInfo') ->
  forall snapshot serversInfo live0 err0 w serversInfo' live err w',
    P serversInfo ->
    refreshLoop ext proxy snapshot serversInfo live0 err0 w
    = Returns ((serversInfo', live, err), w') ->
    P serversInfo'.
Proof.
  intros Hstep snapshot.
  induction snapshot as [| r rest IH];
    intros serversInfo live0 err0 w serversInfo' live err w' HP Hrun.
  - cbn in Hrun. injection Hrun as <- _ _ _. exact HP.
  - simpl in Hrun. apply bind_Returns in Hrun.
    destruct Hrun as ([s1 e1] & w1 & Hone & Hrest).
    eapply IH; [| exact Hrest]. eapply Hstep; eassumption.
Qed.

Lemma refresh_invariant (P : ServersInfo MA -> Prop) (proxy : Proxy) :
  (forall serversInfo name stamp serversInfo' err w w',
     P serversInfo ->
     refreshServer ext proxy serversInfo name stamp w
     = Returns ((serversInfo', err), w') ->
     P serversInfo') ->
  (forall serversInfo pool,
     P serversInfo -> Permutation (inner serversInfo) pool ->
     P (with_inner serversInfo pool)) ->
  forall serversInfo serversInfo' live err w w',
    P serversInfo ->
    refresh ext proxy serversInfo w = Returns ((serversInfo', live, err), w') ->
    P serversInfo'.
Proof.
  intros Hstep Hsort serversInfo serversInfo' live err w w' HP Hrun.
  unfold refresh in Hrun. apply bind_Returns in Hrun.
  destruct Hrun as ([[s1 l1] e1] & w1 & Hloop & Hret).
  cbn in Hret. injection Hret as <- _ _ _.
  apply Hsort; [| apply (sort_SliceStable_perm initialRtt)].
  eapply refreshLoop_invariant; eassumption.
Qed.

(** X5. One slot per name. If no two live servers have the same name
    before a [refresh], none have after it, whatever the registry holds
    and whatever the attempts do. *)
Theorem refresh_keeps_live_names_apart (proxy : Proxy)
  (serversInfo serversInfo' : ServersInfo MA) (liveServers : Z)
  (err : option error) (w w' : W) :
  NoDup (map si_Name (inner serversInfo)) ->
  refresh ext proxy serversInfo w
  = Returns ((serversInfo', liveServers, err), w') ->
  NoDup (map si_Name (inner serversInfo')).
Proof.
  apply (refresh_invariant (fun s => NoDup (map si_Name (inner s)))).
  - intros s name stamp s' e w0 w1 Hnd Hrun.
    apply refreshServer_cases in Hrun.
    destruct Hrun as (_ & _ & [[_ ->] | [(_ & _ & _ & Hsame & _)
                                        | (_ & Hout & Happ & _)]]).
    + exact Hnd.
    + rewrite Hsame. exact Hnd.
    + rewrite Happ. apply NoDup_rev in Hnd.
      rewrite <- (rev_involutive (_ ++ _)). apply NoDup_rev.
      rewrite rev_app_distr. simpl. constructor; [| exact Hnd].
      rewrite <- in_rev. exact Hout.
  - intros s pool Hnd Hperm. cbn.
    eapply Permutation_NoDup; [| exact Hnd].
    apply Permutation_map. exact Hperm.
Qed.

(** X6. Every live server is registered. If every live name is in the
    registry, it is so after [registerServer] and after a [refresh]. *)
Theorem live_names_stay_registered (proxy : Proxy)
  (serversInfo : ServersInfo MA) :
  incl (map si_Name (inner serversInfo))
       (map Name (registeredServers serversInfo)) ->
  (forall name stamp,
     let registered := fst (registerServer serversInfo name stamp) in
     incl (map si_Name (inner registered))
          (map Name (registeredServers registered))) /\
  (forall serversInfo' liveServers err w w',
     refresh ext proxy serversInfo w
     = Returns ((serversInfo', liveServers, err), w') ->
     incl (map si_Name (inner serversInfo'))
          (map Name (registeredServers serversInfo'))).
Proof.
  intros Hincl. split.
  - intros name stamp. unfold registerServer.
    destruct (registerReplace _ name _) as [replaced |] eqn:Hr; cbn.
    + rewrite (registerReplace_names _ _ _ _ Hr). exact Hincl.
    + rewrite map_app. apply incl_appl. exact Hincl.
  - intros serversInfo' liveServers err w w'. revert Hincl.
    apply (refresh_invariant
             (fun s => incl (map si_Name (inner s))
                            (map Name (registeredServers s)))).
    + intros s name stamp s' e w0 w1 Hin Hrun.
      apply refreshServer_cases in Hrun.
      destruct Hrun as (_ & _ & [[_ ->] | [(_ & _ & _ & Hsame & Hreg)
                                          | (_ & _ & Happ & Hreg)]]).
      * exact Hin.
      * rewrite Hsame, Hreg. exact Hin.
      * rewrite Happ, Hreg, map_app. simpl.
        apply incl_app; [apply incl_appl; exact Hin |].
        apply incl_appr. apply incl_refl.
    + intros s pool Hin Hperm. cbn. intros n Hn. apply Hin.
      eapply Permutation_in; [| exact Hn].
      apply Permutation_sym, Permutation_map. exact Hperm.
Qed.

(** X7. A refresh only adds. After a [refresh] every name that was live
    is still live, the live pool is not shorter, the registry is the old
    registry with entries appended, every appended entry is the
    registration of a live server, and the strategy and the estimator
    switch are as before. *)
Theorem refresh_only_adds (proxy : Proxy)
  (serversInfo serversInfo' : ServersInfo MA) (liveServers : Z)
  (err : option error) (w w' : W) :
  refresh ext proxy serversInfo w
  = Returns ((serversInfo', liveServers, err), w') ->
  incl (map si_Name (inner serversInfo)) (map si_Name (inner serversInfo')) /\
  (List.length (inner serversInfo) <= List.length (inner serversInfo'))%nat /\
  (exists added,
     registeredServers serversInfo'
     = registeredServers serversInfo ++ added /\
     incl (map Name added) (map si_Name (inner serversInfo'))) /\
  LBStrategy_ serversInfo' = LBStrategy_ serversInfo /\
  LBEstimator serversInfo' = LBEstimator serversInfo.
Proof.
  apply (refresh_invariant
           (fun s =>
              incl (map si_Name (inner serversInfo)) (map si_Name (inner s)) /\
              (List.length (inner serversInfo) <= List.length (inner s))%nat /\
              (exists added,
                 registeredServers s = registeredServers serversInfo ++ added /\
                 incl (map Name added) (map si_Name (inner s))) /\
              LBStrategy_ s = LBStrategy_ serversInfo /\
              LBEstimator s = LBEstimator serversInfo)).
  - intros s name stamp s' e w0 w1
      (Hin & Hlen & (added & Hreg & Hadded) & Hst & Hes) Hrun.
    apply refreshServer_cases in Hrun.
    destruct Hrun as (Hst' & Hes' & [[_ ->] | [(_ & _ & _ & Hsame & Hreg')
                                              | (_ & _ & Happ & Hreg')]]).
    + repeat split; auto. exists added. auto.
    + assert (Hl : List.length (inner s') = List.length (inner s))
        by (rewrite <- (length_map si_Name), Hsame, length_map; reflexivity).
      rewrite Hsame, Hl. repeat split; auto; try congruence.
      exists added. split; [congruence | exact Hadded].
    + assert (Hl : List.length (inner s') = S (List.length (inner s))).
      { rewrite <- (length_map si_Name), Happ, length_app, length_map.
        simpl. lia. }
      rewrite Happ, Hl. repeat split; try congruence.
      * apply incl_appl. exact Hin.
      * lia.
      * exists (added ++ [{| Name := name; Stamp := stamp;
                             Description := "" |}]).
        split; [rewrite Hreg', Hreg, app_assoc; reflexivity |].
        rewrite map_app. simpl.
        apply incl_app; [apply incl_appl; exact Hadded |].
        apply incl_appr. apply incl_refl.
  - intros s pool (Hin & Hlen & (added & Hreg & Hadded) & Hst & Hes) Hperm.
    cbn. assert (Hnames : Permutation (map si_Name (inner s))
                                      (map si_Name pool))
      by (apply Permutation_map; exact Hperm).
    repeat split; auto.
    + intros n Hn. eapply Permutation_in; [exact Hnames | apply Hin; exact Hn].
    + rewrite <- (Permutation_length Hperm). exact Hlen.
    + exists added. split; [exact Hreg |].
      intros n Hn. eapply Permutation_in; [exact Hnames | apply Hadded; exact Hn].
  - repeat split; auto using incl_refl.
    exists []. split; [rewrite app_nil_r; reflexivity | intros ? []].
Qed.

End RefreshInvariants.

Section RefreshCount.

Context {W : Type} (ext : Externals W).
Context {MA : Type} `{MovingAverage MA}.

Lemma succeeded_bounds (errs : list (option error)) :
  0 <= succeeded errs <= len errs /\
  (succeeded errs = 0 -> Forall (fun e => e <> None) errs) /\
  (succeeded errs = len errs -> Forall (fun e => e = None) errs).
Proof.
  unfold succeeded, len. induction errs as [| e errs IH].
  - cbn. repeat split; try lia; constructor.
  - destruct IH as (Hb & Hzero & Hall).
    destruct e as [e |]; cbn [filter List.length];
      rewrite ?Nat2Z.inj_succ; repeat split; try lia.
    + intros Hz. constructor; [discriminate | apply Hzero; exact Hz].
    + intros Hz. constructor; [reflexivity | apply Hall; lia].
Qed.

(** X8. The count of a refresh. The number that [refresh] returns lies
    between 0 and the number of registered servers. With a registry
    that is not empty, a count of 0 comes with an error, and a count
    equal to the size of the registry comes without one. *)
Theorem refresh_count_bounds (proxy : Proxy)
  (serversInfo serversInfo' : ServersInfo MA) (liveServers : Z)
  (err : option error) (w w' : W) :
  refresh ext proxy serversInfo w
  = Returns ((serversInfo', liveServers, err), w') ->
  0 <= liveServers <= len (registeredServers serversInfo) /\
  (registeredServers serversInfo <> [] -> liveServers = 0 -> err <> None) /\
  (liveServers = len (registeredServers serversInfo) -> err = None).
Proof.
  unfold refresh. intros Hrun. apply bind_Returns in Hrun.
  destruct Hrun as ([[s1 live1] err1] & w1 & Hloop & Hret).
  cbn in Hret. injection Hret as _ <- <- _.
  apply refreshLoop_attempts in Hloop.
  destruct Hloop as (errs & _ & Hlen & -> & ->).
  destruct (succeeded_bounds errs) as (Hb & Hzero & Hall).
  unfold len in *. rewrite <- Hlen. cbn [Z.add].
  split; [exact Hb |]. split.
  - intros Hne Hz. specialize (Hzero Hz).
    destruct errs as [| e errs] using rev_ind.
    + destruct (registeredServers serversInfo); [congruence | discriminate].
    + rewrite last_last. apply Forall_app in Hzero.
      destruct Hzero as [_ Hlast]. inversion Hlast. assumption.
  - intros Hfull. specialize (Hall Hfull).
    destruct errs as [| e errs] using rev_ind; [reflexivity |].
    rewrite last_last. apply Forall_app in Hall.
    destruct Hall as [_ Hlast]. inversion Hlast. assumption.
Qed.

End RefreshCount.

(** * More properties of the estimator and of the selection *)

Lemma update_map_same {A B : Type} (f : A -> B) (l : list A) (i : nat)
  (x y : A) :
  nth_error l i = Some x -> f y = f x -> map f (update l i y) = map f l.
Proof.
  revert i. induction l as [| z l IH]; intros [| i]; simpl;
    try discriminate.
  - intros [= ->] Hf. congruence.
  - intros Hi Hf. rewrite (IH i Hi Hf). reflexivity.
Qed.

Lemma update_length {A : Type} (l : list A) (i : nat) (x : A) :
  List.length (update l i x) = List.length l.
Proof.
  revert i. induction l as [| z l IH]; intros [| i]; simpl; auto.
Qed.

Section EstimatorFrame.

Context {W : Type} (ext : Externals W).
Context {MA : Type} `{MovingAverage MA}.

Lemma estimatorChoose_keeps_servers (pool pool' : list (ServerInfo MA))
  (candidate : nat) (partialSort : bool) (w w' : W) :
  estimatorChoose ext pool candidate w = Returns ((pool', partialSort), w') ->
  Permutation (map sansRtt pool) (map sansRtt pool').
Proof.
  unfold estimatorChoose. intros Hrun.
  apply bind_Returns in Hrun. destruct Hrun as (c & w1 & Hc & Hrun).
  apply bind_Returns in Hrun. destruct Hrun as (vc & w2 & _ & Hrun).
  apply bind_Returns in Hrun. destruct Hrun as (best & w3 & Hb & Hrun).
  apply bind_Returns in Hrun. destruct Hrun as (vb & w4 & _ & Hrun).
  apply bind_Returns in Hrun.
  destruct Hrun as ([vb' seeded] & w5 & Hseed & Hrun).
  assert (Hseeded : map sansRtt seeded = map sansRtt pool).
  { unfold index in Hb. destruct (nth_error pool 0) as [b0 |] eqn:Hb0;
      [| discriminate].
    injection Hb as <- _.
    destruct (Qlt_bool vb 0).
    - apply bind_Returns in Hseed.
      destruct Hseed as (best' & w6 & Hset & Hret).
      injection Hret as _ <- _.
      unfold rttSet in Hset. destruct (rtt b0); [| discriminate].
      injection Hset as <- _.
      eapply update_map_same; [exact Hb0 | reflexivity].
    - injection Hseed as _ <- _. reflexivity. }
  rewrite <- Hseeded. clear Hseeded Hseed Hc Hb.
  destruct (Qlt_bool vc vb').
  { injection Hrun as <- _ _. apply Permutation_map, swap_perm. }
  destruct (_ && _); [| injection Hrun as <- _ _; apply Permutation_refl].
  apply bind_Returns in Hrun. destruct Hrun as (c' & w6 & Hc' & Hrun).
  apply bind_Returns in Hrun. destruct Hrun as (since & w7 & _ & Hrun).
  destruct (since >? 1 * Minute);
    [| injection Hrun as <- _ _; apply Permutation_refl].
  apply bind_Returns in Hrun. destruct Hrun as (c'' & w8 & Hadd & Hrun).
  injection Hrun as <- _ _.
  unfold index in Hc'.
  destruct (nth_error seeded candidate) as [c0 |] eqn:Hc0; [| discriminate].
  injection Hc' as <- _.
  unfold rttAdd in Hadd. destruct (rtt c0); [| discriminate].
  injection Hadd as <- _.
  erewrite update_map_same; [apply Permutation_refl | exact Hc0 |].
  reflexivity.
Qed.

Lemma estimatorUpdate_frame
  (serversInfo serversInfo' : ServersInfo MA) (w w' : W) :
  estimatorUpdate ext serversInfo w = Returns (serversInfo', w') ->
  Permutation (map sansRtt (inner serversInfo))
              (map sansRtt (inner serversInfo')) /\
  List.length (inner serversInfo') = List.length (inner serversInfo) /\
  registeredServers serversInfo' = registeredServers serversInfo /\
  LBStrategy_ serversInfo' = LBStrategy_ serversInfo /\
  LBEstimator serversInfo' = LBEstimator serversInfo.
Proof.
  intros Hrun.
  assert (Hperm : Permutation (map sansRtt (inner serversInfo))
                              (map sansRtt (inner serversInfo')) /\
          registeredServers serversInfo' = registeredServers serversInfo /\
          LBStrategy_ serversInfo' = LBStrategy_ serversInfo /\
          LBEstimator serversInfo' = LBEstimator serversInfo).
  { unfold estimatorUpdate in Hrun. apply bind_Returns in Hrun.
    destruct Hrun as (candidate & w1 & _ & Hrun).
    destruct (Nat.eqb candidate 0).
    { injection Hrun as <- _. repeat split. apply Permutation_refl. }
    apply bind_Returns in Hrun.
    destruct Hrun as ([pool partialSort] & w2 & Hchoose & Hrun).
    apply estimatorChoose_keeps_servers in Hchoose.
    destruct partialSort.
    - apply bind_Returns in Hrun.
      destruct Hrun as (sorted & w3 & Hpass & Hret).
      injection Hret as <- _. apply partialSortPass_perm in Hpass.
      destruct Hpass as [Hpass _]. cbn. repeat split.
      eapply perm_trans; [exact Hchoose |].
      apply Permutation_map. exact Hpass.
    - injection Hrun as <- _. cbn. repeat split. exact Hchoose. }
  destruct Hperm as (Hperm & Hreg & Hst & Hes).
  repeat split; auto.
  rewrite <- (length_map sansRtt (inner serversInfo')),
    <- (Permutation_length Hperm), length_map. reflexivity.
Qed.

(** X9. The estimator moves servers and changes averages, nothing
    else. Whenever [estimatorUpdate] returns, the live pool has the
    same servers as before up to their order and their averages (so as
    many, with the same names, addresses and keys), and the registry,
    the strategy and the estimator switch are untouched. *)
Theorem estimatorUpdate_keeps_servers
  (serversInfo serversInfo' : ServersInfo MA) (w w' : W) :
  estimatorUpdate ext serversInfo w = Returns (serversInfo', w') ->
  Permutation (map sansRtt (inner serversInfo))
              (map sansRtt (inner serversInfo')) /\
  List.length (inner serversInfo') = List.length (inner serversInfo) /\
  registeredServers serversInfo' = registeredServers serversInfo /\
  LBStrategy_ serversInfo' = LBStrategy_ serversInfo /\
  LBEstimator serversInfo' = LBEstimator serversInfo.
Proof. apply estimatorUpdate_frame. Qed.

(** X10. A faster candidate goes to the front. With a best average that
    is not negative and a candidate whose average is lower, the choice
    swaps the two slots, asks for the partial sort and does not read
    the clock: the candidate is at index 0 and the former best at the
    candidate's index. *)
Theorem estimatorChoose_promotes_faster (pool : list (ServerInfo MA))
  (candidate : nat) (c best : ServerInfo MA) (rc rb : MA) (w : W) :
  nth_error pool candidate = Some c -> rtt c = Some rc ->
  nth_error pool 0 = Some best -> rtt best = Some rb ->
  (0 <= ewma_Value rb)%Q ->
  (ewma_Value rc < ewma_Value rb)%Q ->
  exists pool',
    estimatorChoose ext pool candidate w = Returns ((pool', true), w) /\
    nth_error pool' 0 = Some c /\
    nth_error pool' candidate = Some best /\
    forall i, i <> 0%nat -> i <> candidate ->
      nth_error pool' i = nth_error pool i.
Proof.
  intros Hc Hrc Hb Hrb Hb0 Hlt.
  assert (Hseed : Qlt_bool (ewma_Value rb) 0 = false)
    by (apply Qlt_bool_false; exact Hb0).
  assert (Hswap : Qlt_bool (ewma_Value rc) (ewma_Value rb) = true)
    by (apply Qlt_bool_true; exact Hlt).
  exists (swap pool candidate 0). split.
  - unfold estimatorChoose, index, rttValue, bind, ret.
    rewrite Hc, Hrc, Hb, Hrb, Hseed, Hswap. reflexivity.
  - unfold swap. rewrite Hc, Hb.
    destruct (Nat.eq_dec candidate 0) as [-> | Hne].
    + assert (c = best) by congruence. subst best.
      split; [| split].
      * eapply nth_error_update_same.
        eapply nth_error_update_same. exact Hc.
      * eapply nth_error_update_same.
        eapply nth_error_update_same. exact Hc.
      * intros i Hi _. rewrite !nth_error_update_other; auto.
    + split; [| split].
      * eapply nth_error_update_same.
        rewrite nth_error_update_other; [exact Hb | exact Hne].
      * rewrite nth_error_update_other; [| congruence].
        eapply nth_error_update_same. exact Hc.
      * intros i Hi Hic. rewrite !nth_error_update_other; auto.
Qed.

(** X11. A negative best average is seeded, not beaten. When the average
    at index 0 is negative, the choice sets it to the candidate's
    average and stops there, however fast or slow the candidate is: no
    swap, no second chance, no partial sort, no reading of the clock,
    and every other slot as it was. *)
Theorem estimatorChoose_seeds_negative_best (pool : list (ServerInfo MA))
  (candidate : nat) (c best : ServerInfo MA) (rc rb : MA) (w : W) :
  nth_error pool candidate = Some c -> rtt c = Some rc ->
  nth_error pool 0 = Some best -> rtt best = Some rb ->
  (ewma_Value rb < 0)%Q ->
  estimatorChoose ext pool candidate w
  = Returns
      ((update pool 0
          (with_rtt best (Some (ewma_Set rb (ewma_Value rc)))), false), w) /\
  forall i, i <> 0%nat ->
    nth_error (update pool 0
                 (with_rtt best (Some (ewma_Set rb (ewma_Value rc))))) i
    = nth_error pool i.
Proof.
  intros Hc Hrc Hb Hrb Hneg. split.
  - assert (Hseed : Qlt_bool (ewma_Value rb) 0 = true)
      by (apply Qlt_bool_true; exact Hneg).
    assert (Hswap : Qlt_bool (ewma_Value rc) (ewma_Value rc) = false)
      by (apply Qlt_bool_false; lra).
    assert (Hchance : Qlt_bool 0 (ewma_Value rc)
                      && Qle_bool (ewma_Value rc * 4) (ewma_Value rc)
                      = false).
    { destruct (Qlt_bool 0 (ewma_Value rc)) eqn:Hpos; [| reflexivity].
      apply Qlt_bool_true in Hpos. cbn [andb].
      destruct (Qle_bool _ _) eqn:Hle; [| reflexivity].
      apply Qle_bool_iff in Hle. lra. }
    unfold estimatorChoose, index, rttValue, rttSet, bind, ret.
    rewrite Hc, Hrc, Hb, Hrb, Hseed. cbn iota beta.
    rewrite Hswap, Hchance. reflexivity.
  - intros i Hi. apply nth_error_update_other. congruence.
Qed.

End EstimatorFrame.

Lemma Min_min (a b : nat) : Min a b = Nat.min a b.
Proof.
  unfold Min. destruct (a <? b)%nat eqn:Hab.
  - apply Nat.ltb_lt in Hab. lia.
  - apply Nat.ltb_ge in Hab. lia.
Qed.

Lemma Max_max (a b : nat) : Max a b = Nat.max a b.
Proof.
  unfold Max. destruct (b <? a)%nat eqn:Hab.
  - apply Nat.ltb_lt in Hab. lia.
  - apply Nat.ltb_ge in Hab. lia.
Qed.

Lemma strategyBound_range (strategy : LBStrategy) (n : nat) :
  (0 < n)%nat -> (0 < strategyBound strategy n <= n)%nat.
Proof.
  intros Hn.
  assert (n / 2 <= n)%nat by (apply Nat.Div0.div_le_upper_bound; lia).
  destruct strategy; cbn [strategyBound]; lia.
Qed.

Section SelectionProperties.

Context {W : Type} (ext : Externals W).
Context {MA : Type} `{MovingAverage MA}.

Lemma rand_Intn_below (n : nat) (w : W) :
  (0 < n)%nat ->
  exists r w', rand_Intn ext n w = Returns (r, w') /\ (r < n)%nat.
Proof.
  intros Hn. unfold rand_Intn. destruct n as [| n]; [lia |].
  destruct (rand_draw ext w) as [r w'].
  exists (Nat.modulo r (S n)), w'. split; [reflexivity |].
  apply Nat.mod_upper_bound. discriminate.
Qed.

Lemma getOneCandidate_below (strategy : LBStrategy) (n : nat) (w : W) :
  (0 < n)%nat ->
  exists i w',
    getOneCandidate ext strategy n w = Returns (i, w') /\
    (i < strategyBound strategy n)%nat.
Proof.
  intros Hn. pose proof (strategyBound_range strategy n Hn) as Hb.
  unfold getOneCandidate.
  destruct strategy; cbn [strategyBound] in *;
    rewrite ?Max_max, ?Min_min;
    try (apply rand_Intn_below; lia).
  exists 0%nat, w. split; [reflexivity | lia].
Qed.

(** X12. [getOne] serves from the pool. [getOne] returns nil exactly
    for an empty pool, and then touches neither the pool nor the world.
    Otherwise the server it returns sits in the pool it leaves, at an
    index below the bound of the strategy: index 0 for [First], an
    index below [min(n,2)] for [P2] and for no strategy, below
    [max(min(n,2), n/2)] for [PH], below [n] for [Random]. *)
Theorem getOne_serves_from_pool (serversInfo serversInfo' : ServersInfo MA)
  (served : option (ServerInfo MA)) (w w' : W) :
  getOne ext serversInfo w = Returns ((served, serversInfo'), w') ->
  match served with
  | None => inner serversInfo = [] /\ serversInfo' = serversInfo /\ w' = w
  | Some serverInfo =>
    inner serversInfo <> [] /\
    exists i,
      nth_error (inner serversInfo') i = Some serverInfo /\
      (i < strategyBound (LBStrategy_ serversInfo)
                         (List.length (inner serversInfo')))%nat /\
      (i < List.length (inner serversInfo'))%nat
  end.
Proof.
  unfold getOne.
  destruct (inner serversInfo) as [| s0 pool0] eqn:Hpool.
  { cbn. intros [= <- <- <-]. auto. }
  cbn [List.length Nat.leb]. intros Hrun.
  apply bind_Returns in Hrun. destruct Hrun as (s1 & w1 & Hest & Hrun).
  assert (Hframe : List.length (inner s1) = S (List.length pool0) /\
                   LBStrategy_ s1 = LBStrategy_ serversInfo).
  { destruct (LBEstimator serversInfo).
    - apply estimatorUpdate_frame in Hest.
      destruct Hest as (_ & Hlen & _ & Hst & _).
      rewrite Hlen, Hpool. auto.
    - injection Hest as <- _. rewrite Hpool. auto. }
  destruct Hframe as [Hlen Hst].
  apply bind_Returns in Hrun. destruct Hrun as (i & w2 & Hcand & Hrun).
  apply bind_Returns in Hrun. destruct Hrun as (s & w3 & Hidx & Hret).
  injection Hret as <- <- _.
  split; [discriminate |]. exists i.
  unfold index in Hidx.
  destruct (nth_error (inner s1) i) as [x |] eqn:Hnth; [| discriminate].
  injection Hidx as <- _.
  split; [reflexivity |].
  split; [| apply nth_error_Some; congruence].
  destruct (getOneCandidate_below (LBStrategy_ s1) (S (List.length pool0)) w1)
    as (i' & w2' & Hc' & Hbound); [lia |].
  rewrite Hc' in Hcand. injection Hcand as <- _.
  rewrite Hlen, <- Hst. exact Hbound.
Qed.


Lemma milliseconds_positive (d : Duration) :
  (milliseconds d >? 0) = (1000000 <=? d).
Proof.
  unfold milliseconds.
  destruct (Z.leb_spec 1000000 d) as [Hge | Hlt].
  - apply Z.gtb_lt. rewrite Z.quot_div_nonneg by lia.
    apply Z.div_str_pos. lia.
  - rewrite Z.gtb_ltb. apply Z.ltb_ge.
    destruct (Z.le_gt_cases 0 d) as [Hpos | Hneg].
    + rewrite Z.quot_small by lia. lia.
    + replace d with (- (- d)) by lia.
      rewrite Z.quot_opp_l by lia.
      rewrite Z.quot_div_nonneg by lia.
      pose proof (Z.div_pos (- d) 1000000). lia.
Qed.

(** X14. What a success measures. After [noticeBegin] and then
    [noticeSuccess], with the clock read at [t0] and at [t1], the
    server has [t0] as its last action; its average got the elapsed
    time in whole milliseconds as one sample exactly when the elapsed
    time is at least one millisecond and less than the timeout of the
    proxy, and is untouched otherwise. *)
Theorem noticeSuccess_measures (serverInfo : ServerInfo MA) (proxy : Proxy)
  (r : MA) (t0 t1 : Time) (w w1 w2 : W) :
  rtt serverInfo = Some r ->
  time_Now ext w = (t0, w1) -> time_Now ext w1 = (t1, w2) ->
  let elapsed := time_Sub t1 t0 in
  (1000000 <= elapsed < Timeout proxy ->
   bind (noticeBegin ext serverInfo proxy)
        (fun begun => noticeSuccess ext begun proxy) w
   = Returns (with_rtt (with_lastActionTS serverInfo t0)
                (Some (ewma_Add r (inject_Z (Z.quot elapsed 1000000)))),
              w2)) /\
  (elapsed < 1000000 \/ Timeout proxy <= elapsed ->
   bind (noticeBegin ext serverInfo proxy)
        (fun begun => noticeSuccess ext begun proxy) w
   = Returns (with_lastActionTS serverInfo t0, w2)).
Proof.
  intros Hr Hnow0 Hnow1 elapsed. subst elapsed.
  unfold noticeBegin, noticeSuccess, bind, lift, ret.
  rewrite Hnow0, Hnow1. cbn [lastActionTS with_lastActionTS].
  rewrite milliseconds_positive. split.
  - intros [Hlow Hhigh].
    assert (H1 : (1000000 <=? time_Sub t1 t0) = true) by (apply Z.leb_le; lia).
    assert (H2 : (time_Sub t1 t0 <? Timeout proxy) = true)
      by (apply Z.ltb_lt; lia).
    rewrite H1, H2. cbn [andb]. unfold rttAdd, ret, milliseconds.
    cbn [rtt with_lastActionTS]. rewrite Hr. reflexivity.
  - intros [Hlow | Hhigh].
    + assert (H1 : (1000000 <=? time_Sub t1 t0) = false)
        by (apply Z.leb_gt; lia).
      rewrite H1. reflexivity.
    + assert (H2 : (time_Sub t1 t0 <? Timeout proxy) = false)
        by (apply Z.ltb_ge; lia).
      rewrite H2, andb_false_r. reflexivity.
Qed.

End SelectionProperties.

(** * More properties of the relay resolver and of the DoH probe *)

Section RouteOutcomes.

Context {W : Type} (ext : Externals W).

(** X15. A route is never dropped silently. For a server without a
    route, under its name or under the wildcard, [route] answers "no
    relay" and touches nothing. For a server with a route it never
    answers "no relay": it returns both relay addresses or an error. *)
Theorem route_never_drops_a_route (proxy : Proxy) (name : string)
  (stamp : ServerStamp) (w : W) :
  (routeOf proxy name = None ->
   route ext proxy name stamp w = Returns (inl (None, None), w)) /\
  (routeOf proxy name <> None ->
   forall relayUDPAddr relayTCPAddr w',
     route ext proxy name stamp w
     = Returns (inl (relayUDPAddr, relayTCPAddr), w') ->
     relayUDPAddr <> None /\ relayTCPAddr <> None).
Proof.
  unfold routeOf, route. destruct (Routes proxy) as [routes |].
  2: { split; [reflexivity | congruence]. }
  destruct (match routes name with
            | Some relayNames => Some relayNames
            | None => routes "*"
            end) as [relayNames |].
  2: { split; [reflexivity | congruence]. }
  split; [discriminate |]. intros _ u t w' Hrun.
  apply bind_Returns in Hrun. destruct Hrun as (relayName & w1 & _ & Hrun).
  destruct (strlen relayName =? 0); [discriminate |].
  apply bind_Returns in Hrun. destruct Hrun as (candidate & w2 & _ & Hrun).
  unfold relayResolve in Hrun.
  destruct candidate as [candidate |]; [| discriminate].
  destruct (_ || _); [| discriminate].
  apply bind_Returns in Hrun.
  destruct Hrun as ([ua | err] & w3 & _ & Hrun); [| discriminate].
  apply bind_Returns in Hrun.
  destruct Hrun as ([ta | err] & w4 & _ & Hrun); [| discriminate].
  injection Hrun as <- <- _. split; discriminate.
Qed.

End RouteOutcomes.

Section ProbeOutcomes.

Context {W : Type} (ext : Externals W).
Context {MA : Type}.

Lemma dohUnexpected_in_range (respBody : bytes) (w : W) :
  6 <= MinDNSPacketSize ext ->
  exists bad, dohUnexpected ext respBody w = Returns (bad, w).
Proof.
  intros Hmin. unfold dohUnexpected.
  destruct (len respBody <? MinDNSPacketSize ext) eqn:Hlen; cbn [orb].
  { exists true. reflexivity. }
  destruct (len respBody >? MaxDNSPacketSize ext);
    [exists true; reflexivity |].
  apply Z.ltb_ge in Hlen. unfold len in Hlen.
  assert (Hsix : (6 <= List.length respBody)%nat) by lia.
  assert (Hat : forall i, (i < 6)%nat ->
                  exists b, nth_error respBody i = Some b).
  { intros i Hi. destruct (nth_error respBody i) as [b |] eqn:Hb;
      [exists b; reflexivity |].
    apply nth_error_None in Hb. lia. }
  unfold bind, index, ret.
  destruct (Hat 0%nat) as [b0 ->]; [lia |].
  destruct (negb (Byte.eqb b0 xca)); [exists true; reflexivity |].
  destruct (Hat 1%nat) as [b1 ->]; [lia |].
  destruct (negb (Byte.eqb b1 xfe)); [exists true; reflexivity |].
  destruct (Hat 4%nat) as [b4 ->]; [lia |].
  destruct (negb (Byte.eqb b4 x00)); [exists true; reflexivity |].
  destruct (Hat 5%nat) as [b5 ->]; [lia |].
  eexists. reflexivity.
Qed.

(** X16. Every answer gets a verdict. With [MinDNSPacketSize] at least
    6, [dohAccept] always returns, leaves the world alone and reads no
    byte out of range. Its verdict goes by rank: a handshake that is
    missing or not complete gives the handshake error whatever the pins
    and the body; then pins that do not hold give the certificate
    error whatever the body; then an error of the read is returned as
    it is; and only then a body that is not plausible gives the error
    of the unexpected response. *)
Theorem dohAccept_verdict (proxy : Proxy) (name : string)
  (stamp : ServerStamp) (url : URL) (resp : Response) (rtt : Duration)
  (useGet : bool) (w : W) :
  6 <= MinDNSPacketSize ext ->
  exists verdict : ServerInfo MA + error,
    dohAccept ext proxy name stamp url resp rtt useGet w
    = Returns (verdict, w) /\
    (TLS resp = None -> verdict = inr ErrTLSHandshakeFailed) /\
    (forall tls, TLS resp = Some tls ->
       (HandshakeComplete tls = false ->
        verdict = inr ErrTLSHandshakeFailed) /\
       (HandshakeComplete tls = true ->
        (~ pinned ext tls stamp ->
         exists wantedHash,
           verdict = inr (ErrCertificateHashNotFound wantedHash name)) /\
        (pinned ext tls stamp ->
         match ReadAllLimit (RespBody resp) (MaxHTTPBodyLength ext) with
         | inr err => verdict = inr err
         | inl respBody =>
           (plausible ext respBody -> exists info, verdict = inl info) /\
           (~ plausible ext respBody -> verdict = inr ErrUnexpectedResponse)
         end))).
Proof.
  intros Hmin. unfold dohAccept.
  destruct (TLS resp) as [tls |];
    [| eexists; split; [reflexivity |]; split; [reflexivity | discriminate]].
  destruct (HandshakeComplete tls) eqn:Hhs; cbn [negb].
  2: { eexists. split; [reflexivity |]. split; [discriminate |].
       intros tls' [= <-]. split; [reflexivity | congruence]. }
  pose proof (pins_checked ext tls stamp) as Hpins.
  destruct (pinCertificates _ _ _ _) as [found wanted].
  destruct (negb found && _).
  { eexists. split; [reflexivity |]. split; [discriminate |].
    intros tls' [= <-]. split; [congruence |]. intros _. split.
    - intros _. eexists. reflexivity.
    - intros Hp. apply Hpins in Hp. discriminate. }
  assert (Hpinned : pinned ext tls stamp) by (apply Hpins; reflexivity).
  destruct (ReadAllLimit _ _) as [respBody | err].
  2: { eexists. split; [reflexivity |]. split; [discriminate |].
       intros tls' [= <-]. split; [congruence |]. intros _.
       split; [contradiction | reflexivity]. }
  destruct (dohUnexpected_in_range respBody w Hmin) as [bad Hbad].
  pose proof (dohUnexpected_plausible ext respBody w w) as Hpl.
  unfold bind. rewrite Hbad in *. destruct bad.
  - eexists. split; [reflexivity |]. split; [discriminate |].
    intros tls' [= <-]. split; [congruence |]. intros _.
    split; [contradiction |]. intros _. split.
    + intros Hp.
      assert (Returns (true, w) = Returns (false, w))
        by (apply Hpl; auto).
      discriminate.
    + reflexivity.
  - eexists. split; [reflexivity |]. split; [discriminate |].
    intros tls' [= <-]. split; [congruence |]. intros _.
    split; [contradiction |]. intros _. split.
    + intros _. eexists. reflexivity.
    + intros Hno. exfalso. apply Hno. apply Hpl. reflexivity.
Qed.

Lemma pinHashes_malformed (h : bytes) (hashes : list bytes)
  (wantedHash : bytes) :
  Forall (fun hash => len hash <> 32) hashes ->
  pinHashes h hashes wantedHash = (false, wantedHash).
Proof.
  induction 1 as [| hash rest Hhash _ IH]; simpl; [reflexivity |].
  apply Z.eqb_neq in Hhash. rewrite Hhash. exact IH.
Qed.

Lemma pinCertificates_malformed (certs : list Certificate)
  (hashes : list bytes) (wantedHash : bytes) :
  Forall (fun hash => len hash <> 32) hashes ->
  pinCertificates ext certs hashes wantedHash = (false, wantedHash).
Proof.
  intros Hbad. induction certs as [| cert rest IH]; simpl; [reflexivity |].
  rewrite (pinHashes_malformed _ _ _ Hbad). exact IH.
Qed.

(** X17. Pins of the wrong length match nothing. A stamp that has pins,
    none of them 32 bytes long, refuses every server whose handshake is
    complete, whatever its certificates and its body: the certificate
    error is returned, with the hash of 32 zero bytes in it. *)
Theorem dohAccept_refuses_malformed_pins (proxy : Proxy) (name : string)
  (stamp : ServerStamp) (url : URL) (resp : Response) (rtt : Duration)
  (useGet : bool) (tls : ConnectionState) (w : W) :
  Hashes stamp <> [] ->
  Forall (fun hash => len hash <> 32) (Hashes stamp) ->
  TLS resp = Some tls -> HandshakeComplete tls = true ->
  dohAccept (MA := MA) ext proxy name stamp url resp rtt useGet w
  = Returns (inr (ErrCertificateHashNotFound (repeat x00 32) name), w).
Proof.
  intros Hne Hbad Htls Hhs. unfold dohAccept.
  rewrite Htls, Hhs. cbn [negb].
  rewrite (pinCertificates_malformed _ _ _ Hbad).
  assert (Hlen : (len (Hashes stamp) >? 0) = true).
  { destruct (Hashes stamp); [congruence |].
    unfold len. apply Z.gtb_lt. simpl List.length. lia. }
  rewrite Hlen. reflexivity.
Qed.

End ProbeOutcomes.

(** * More properties of the stages *)

Section StageCompleteness.

Context {W : Type} (ext : Externals W) (dns : DnsExternals).

Lemma stageLoop_ran_until_cause
  (body : Plugin W -> PluginsState -> Heap -> W -> Evaluation W * turn W)
  (plugins : list (Plugin W)) :
  turn_goes_on body -> turn_records body -> turn_stops body ->
  forall s h w,
    ran_until_cause plugins (fst (stageLoop body plugins s h w)).
Proof.
  intros Hgo Hrec Hstop.
  induction plugins as [| plugin plugins IH]; intros s h w.
  - left. split; [reflexivity | constructor].
  - cbn [stageLoop].
    pose proof (Hrec plugin s h w) as Hp.
    destruct (body plugin s h w) as [seen t] eqn:Hbody. simpl in Hp.
    assert (Hcause : (exists s' h' w', t = TurnNext s' h' w') \/
                     ~ passes seen).
    { destruct t as [s' h' w' | s' h' w' | p e s' h' w' |];
        [left; eauto | right | right | right];
        apply (Hstop _ _ _ _ _ _ Hbody); discriminate. }
    destruct Hcause as [(s' & h' & w' & ->) | Hno].
    + specialize (IH s' h' w').
      destruct (stageLoop body plugins s' h' w') as [trace t'].
      simpl in *.
      assert (Hpass : passes seen) by exact (Hgo _ _ _ _ _ _ _ _ Hbody).
      destruct IH
        as [[Hall Hok] | (pre & ev & rest & -> & Hseq & Hok & Hno)].
      * left. split; [simpl; congruence | constructor; assumption].
      * right. exists (seen :: pre), ev, rest.
        split; [reflexivity |].
        split; [cbn [app map]; rewrite Hp, Hseq; reflexivity |].
        split; [constructor; assumption | exact Hno].
    + right. exists [], seen, plugins.
      destruct t as [s' h' w' | s' h' w' | p e s' h' w' |]; simpl.
      * exfalso. apply Hno. exact (Hgo _ _ _ _ _ _ _ _ Hbody).
      * rewrite Hp. repeat split; auto.
      * rewrite Hp. repeat split; auto.
      * rewrite Hp. repeat split; auto.
Qed.

Lemma queryTurn_stops (globals : PluginsGlobals W) packet msg :
  turn_stops (queryTurn dns globals packet msg).
Proof.
  intros plugin s h w seen t. unfold queryTurn, passes.
  destruct (Eval plugin s msg h w) as [[[s1 h1] [err |]] w1].
  - intros [= <- _] _ [Habs _]. discriminate.
  - destruct (PluginsAction_eqb (action s1) PluginsActionReject) eqn:Hr.
    + apply PluginsAction_eqb_eq in Hr. intros Hbody _ [_ Hact].
      assert (Hseen : ev_action seen = action s1).
      { destruct (deref h1 msg); [| injection Hbody as <- _; reflexivity].
        destruct (RefusedResponseFromMessage _ _ _ _ _ _);
          [| injection Hbody as <- _; reflexivity].
        destruct (alloc h1 _). injection Hbody as <- _. reflexivity. }
      congruence.
    + destruct (PluginsAction_eqb (action s1) PluginsActionForward) eqn:Hf;
        cbn [negb]; intros [= <- <-] Hnot.
      * exfalso. eapply Hnot. reflexivity.
      * intros [_ Hact]. simpl in Hact.
        apply PluginsAction_eqb_eq in Hact. congruence.
Qed.

Lemma responseTurn_stops (globals : PluginsGlobals W) packet msg :
  turn_stops (responseTurn dns globals packet msg).
Proof.
  intros plugin s h w seen t. unfold responseTurn, passes.
  destruct (Eval plugin s msg h w) as [[[s1 h1] [err |]] w1].
  - intros [= <- _] _ [Habs _]. discriminate.
  - destruct (PluginsAction_eqb (action s1) PluginsActionReject) eqn:Hr.
    + apply PluginsAction_eqb_eq in Hr. intros Hbody _ [_ Hact].
      assert (Hseen : ev_action seen = action s1).
      { destruct (deref h1 msg); [| injection Hbody as <- _; reflexivity].
        destruct (RefusedResponseFromMessage _ _ _ _ _ _) as [synth |];
          [| injection Hbody as <- _; reflexivity].
        destruct (Question synth);
          [injection Hbody as <- _; reflexivity |].
        destruct (alloc h1 _). injection Hbody as <- _. reflexivity. }
      congruence.
    + destruct (PluginsAction_eqb (action s1) PluginsActionForward) eqn:Hf;
        cbn [negb]; intros [= <- <-] Hnot.
      * exfalso. eapply Hnot. reflexivity.
      * intros [_ Hact]. simpl in Hact.
        apply PluginsAction_eqb_eq in Hact. congruence.
Qed.

(** X18. A stage skips no module without a cause. Once the packet is
    parsed (and, in the query stage, has at most one question), the
    stage evaluates the modules of its sequence in order until one of
    them returns an error or leaves an action other than [Forward]: it
    evaluates them all when all pass, and otherwise the one that did
    not pass is the last one evaluated. *)
Theorem stages_run_until_cause (pluginsState : PluginsState)
  (pluginsGlobals : PluginsGlobals W) (packet : bytes) (serverName : string)
  (ttl : option Z) (m : Msg) (h : Heap) (w : W) :
  dns_Unpack dns packet = inl m ->
  (loggingPlugins pluginsGlobals <> [] \/ queryPlugins pluginsGlobals <> [] ->
   len (Question m) <= 1 ->
   ran_until_cause (queryPlugins pluginsGlobals)
     (fst (ApplyQueryPlugins dns pluginsState pluginsGlobals packet
                             serverName h w))) /\
  (loggingPlugins pluginsGlobals <> []
   \/ responsePlugins pluginsGlobals <> [] ->
   ran_until_cause (responsePlugins pluginsGlobals)
     (fst (ApplyResponsePlugins ext dns pluginsState pluginsGlobals packet
                                ttl h w))).
Proof.
  intros Hparse.
  assert (Hempty : forall (a b : list (Plugin W)),
            b <> [] \/ a <> [] -> (len a =? 0) && (len b =? 0) = false).
  { intros a b [Hb | Ha].
    - destruct b; [congruence |]. unfold len. simpl List.length.
      rewrite andb_false_iff. right. apply Z.eqb_neq. lia.
    - destruct a; [congruence |]. unfold len. simpl List.length.
      rewrite andb_false_iff. left. apply Z.eqb_neq. lia. }
  split.
  - intros Hsome Hone. unfold ApplyQueryPlugins.
    rewrite (Hempty _ _ Hsome), Hparse.
    assert (Hq : (len (Question m) >? 1) = false)
      by (rewrite Z.gtb_ltb; apply Z.ltb_ge; lia).
    rewrite Hq. destruct (alloc h m) as [msg h1].
    set (body := queryTurn dns pluginsGlobals packet msg).
    set (s1 := with_questionMsg _ _).
    pose proof (stageLoop_ran_until_cause body (queryPlugins pluginsGlobals)
                  (queryTurn_goes_on dns pluginsGlobals packet msg)
                  (queryTurn_records dns pluginsGlobals packet msg)
                  (queryTurn_stops pluginsGlobals packet msg) s1 h1 w) as Hrun.
    destruct (stageLoop body (queryPlugins pluginsGlobals) s1 h1 w)
      as [trace t].
    simpl in Hrun.
    destruct t as [s' h' w' | s' h' w' | p e s' h' w' |]; simpl;
      try exact Hrun;
      destruct (deref h' msg) as [m' |];
      try destruct (dns_PackBuffer dns m' packet); exact Hrun.
  - intros Hsome. unfold ApplyResponsePlugins.
    rewrite (Hempty _ _ Hsome), Hparse.
    destruct (alloc h m) as [msg h1].
    set (body := responseTurn dns pluginsGlobals packet msg).
    set (s1 := with_returnCode _ _).
    pose proof (stageLoop_ran_until_cause body
                  (responsePlugins pluginsGlobals)
                  (responseTurn_goes_on dns pluginsGlobals packet msg)
                  (responseTurn_records dns pluginsGlobals packet msg)
                  (responseTurn_stops pluginsGlobals packet msg) s1 h1 w)
      as Hrun.
    destruct (stageLoop body (responsePlugins pluginsGlobals) s1 h1 w)
      as [trace t].
    simpl in Hrun.
    destruct t as [s' h' w' | s' h' w' | p e s' h' w' |]; simpl;
      try exact Hrun;
      destruct (deref h' msg) as [m' |];
      try destruct (dns_PackBuffer dns _ packet); exact Hrun.
Qed.

End StageCompleteness.

Section StageComposition.

Context {W : Type} (ext : Externals W) (dns : DnsExternals).

Lemma ApplyLoggingPlugins_iterates (pluginsState : PluginsState)
  (pluginsGlobals : PluginsGlobals W) (h : Heap) (w : W) (a : addr)
  (m : Msg) :
  loggingPlugins pluginsGlobals <> [] ->
  questionMsg pluginsState = Some a -> deref h a = Some m ->
  len (Question m) <= 1 ->
  iterated (loggingPlugins pluginsGlobals)
    (fst (ApplyLoggingPlugins ext pluginsState pluginsGlobals h w))
    (snd (ApplyLoggingPlugins ext pluginsState pluginsGlobals h w)).
Proof.
  intros Hne Hq Hm Hle. unfold ApplyLoggingPlugins.
  assert (Hlen : (len (loggingPlugins pluginsGlobals) =? 0) = false).
  { destruct (loggingPlugins pluginsGlobals); [congruence |].
    unfold len. apply Z.eqb_neq. simpl List.length. lia. }
  rewrite Hlen. destruct (time_Now ext w) as [now w1].
  cbn [questionMsg with_requestEnd]. rewrite Hq, Hm.
  assert (Hgt : (len (Question m) >? 1) = false)
    by (rewrite Z.gtb_ltb; apply Z.ltb_ge; lia).
  rewrite Hgt.
  pose proof (loggingLoop_iterated a (loggingPlugins pluginsGlobals) Hne
                (with_requestEnd pluginsState now) h w1) as Hrun.
  cbv zeta in Hrun.
  destruct (stageLoop (loggingTurn a) (loggingPlugins pluginsGlobals)
                      (with_requestEnd pluginsState now) h w1) as [trace t].
  simpl in Hrun. destruct Hrun as [Hnonempty Hcases]. unfold iterated.
  destruct Hcases
    as [(Hall & Hok & s' & h' & w' & ->)
       | (pre & ev & err & rest & Htr & Hpl & Hok & He & s' & h' & w' & ->)];
    simpl; (split; [exact Hnonempty |]).
  - left. repeat split; auto. eexists. eexists. eexists. reflexivity.
  - right. exists pre, ev, err, rest. repeat split; auto.
    eexists. eexists. eexists. reflexivity.
Qed.

(** X19. What the query stage leaves to the logging stage. With a
    logging module configured and a state whose [questionMsg] is nil: a
    packet that does not parse, or that has more than one question, is
    returned with the error by the query stage without a module being
    evaluated, and the logging stage that follows refuses it with the
    error of the number of questions, again without evaluating a
    module; a packet that parses with at most one question, with no
    query module configured, leaves a state on which the logging stage
    iterates its modules. *)
Theorem logging_after_query_stage (pluginsState : PluginsState)
  (pluginsGlobals : PluginsGlobals W) (packet : bytes) (serverName : string)
  (h : Heap) (w : W) :
  loggingPlugins pluginsGlobals <> [] ->
  questionMsg pluginsState = None ->
  (forall err,
     (dns_Unpack dns packet = inr err \/
      exists m, dns_Unpack dns packet = inl m /\ len (Question m) > 1 /\
                err = ErrUnexpectedNumberOfQuestions) ->
     exists queried logged,
       ApplyQueryPlugins dns pluginsState pluginsGlobals packet serverName
                         h w
       = ([], Returns (Some packet, Some err, queried, h, w)) /\
       ApplyLoggingPlugins ext queried pluginsGlobals h w
       = ([], Returns (Some ErrUnexpectedNumberOfQuestions, logged, h,
                       snd (time_Now ext w)))) /\
  (forall m,
     dns_Unpack dns packet = inl m -> len (Question m) <= 1 ->
     queryPlugins pluginsGlobals = [] ->
     exists p err queried,
       ApplyQueryPlugins dns pluginsState pluginsGlobals packet serverName
                         h w
       = ([], Returns (p, err, queried, h ++ [m], w)) /\
       questionMsg queried = Some (List.length h) /\
       iterated (loggingPlugins pluginsGlobals)
         (fst (ApplyLoggingPlugins ext queried pluginsGlobals (h ++ [m]) w))
         (snd (ApplyLoggingPlugins ext queried pluginsGlobals (h ++ [m]) w))).
Proof.
  intros Hne Hnil.
  assert (Hlen : (len (loggingPlugins pluginsGlobals) =? 0) = false).
  { destruct (loggingPlugins pluginsGlobals); [congruence |].
    unfold len. apply Z.eqb_neq. simpl List.length. lia. }
  assert (Hrefused : forall queried,
    questionMsg queried = None ->
    exists logged,
      ApplyLoggingPlugins ext queried pluginsGlobals h w
      = ([], Returns (Some ErrUnexpectedNumberOfQuestions, logged, h,
                      snd (time_Now ext w)))).
  { intros queried Hq. unfold ApplyLoggingPlugins. rewrite Hlen.
    destruct (time_Now ext w) as [now w1].
    cbn [questionMsg with_requestEnd snd]. rewrite Hq.
    eexists. reflexivity. }
  split.
  - intros err Hbad. unfold ApplyQueryPlugins.
    rewrite Hlen, andb_false_r.
    destruct Hbad as [Herr | (m & Hm & Hmany & ->)].
    + rewrite Herr. eexists.
      destruct (Hrefused (with_action (with_serverName pluginsState
                                         serverName) PluginsActionForward))
        as [logged Hlogged]; [exact Hnil |].
      exists logged. split; [reflexivity | exact Hlogged].
    + rewrite Hm.
      assert (Hgt : (len (Question m) >? 1) = true)
        by (apply Z.gtb_gt; exact Hmany).
      rewrite Hgt. eexists.
      destruct (Hrefused (with_action (with_serverName pluginsState
                                         serverName) PluginsActionForward))
        as [logged Hlogged]; [exact Hnil |].
      exists logged. split; [reflexivity | exact Hlogged].
  - intros m Hm Hone Hnoquery. unfold ApplyQueryPlugins.
    rewrite Hlen, andb_false_r, Hm.
    assert (Hgt : (len (Question m) >? 1) = false)
      by (rewrite Z.gtb_ltb; apply Z.ltb_ge; lia).
    rewrite Hgt, Hnoquery. cbn [alloc stageLoop].
    assert (Hderef : deref (h ++ [m]) (List.length h) = Some m).
    { unfold deref. rewrite nth_error_app2 by lia.
      rewrite Nat.sub_diag. reflexivity. }
    rewrite Hderef.
    set (queried := with_questionMsg _ _).
    assert (Hq : questionMsg queried = Some (List.length h)) by reflexivity.
    destruct (dns_PackBuffer dns m packet) as [packet2 | err];
      eexists; eexists; exists queried;
      (split; [reflexivity |]); (split; [exact Hq |]);
      eapply ApplyLoggingPlugins_iterates; eassumption.
Qed.

End StageComposition.

Section StageResults.

Context {W : Type} (ext : Externals W) (dns : DnsExternals).

Lemma stageLoop_returns (packet : bytes)
  (body : Plugin W -> PluginsState -> Heap -> W -> Evaluation W * turn W)
  (plugins : list (Plugin W)) :
  (forall plugin s h w seen p e s' h' w',
     body plugin s h w = (seen, TurnReturn p e s' h' w') ->
     p = Some packet \/
     (p = None /\ ev_err seen = None /\
      ev_action seen = PluginsActionReject)) ->
  forall s h w p e s' h' w',
    snd (stageLoop body plugins s h w) = TurnReturn p e s' h' w' ->
    p = Some packet \/
    (p = None /\
     exists pre ev,
       fst (stageLoop body plugins s h w) = pre ++ [ev] /\
       ev_err ev = None /\ ev_action ev = PluginsActionReject).
Proof.
  intros Hturn. induction plugins as [| plugin plugins IH];
    intros s h w p e s' h' w'; cbn [stageLoop]; [discriminate |].
  destruct (body plugin s h w) as [seen t] eqn:Hbody.
  destruct t as [s1 h1 w1 | s1 h1 w1 | p1 e1 s1 h1 w1 |];
    try discriminate.
  - specialize (IH s1 h1 w1 p e s' h' w').
    destruct (stageLoop body plugins s1 h1 w1) as [trace t']. simpl in *.
    intros Ht. destruct (IH Ht) as [Hp | (Hp & pre & ev & -> & He & Ha)];
      [left; exact Hp |].
    right. split; [exact Hp |]. exists (seen :: pre), ev. auto.
  - simpl. intros [= -> -> -> -> ->].
    destruct (Hturn _ _ _ _ _ _ _ _ _ _ Hbody) as [Hp | (Hp & He & Ha)];
      [left; exact Hp |].
    right. split; [exact Hp |]. exists [], seen. auto.
Qed.

Lemma queryTurn_returns (globals : PluginsGlobals W) packet msg
  plugin s h w seen p e s' h' w' :
  queryTurn dns globals packet msg plugin s h w
  = (seen, TurnReturn p e s' h' w') ->
  p = Some packet \/
  (p = None /\ ev_err seen = None /\ ev_action seen = PluginsActionReject).
Proof.
  unfold queryTurn.
  destruct (Eval plugin s msg h w) as [[[s1 h1] [err |]] w1].
  - intros [= _ <- _ _ _ _]. left. reflexivity.
  - destruct (PluginsAction_eqb (action s1) PluginsActionReject) eqn:Hr.
    + apply PluginsAction_eqb_eq in Hr.
      destruct (deref h1 msg); [| discriminate].
      destruct (RefusedResponseFromMessage _ _ _ _ _ _);
        [destruct (alloc h1 _); discriminate |].
      intros [= <- <- _ _ _ _]. right. auto.
    + destruct (negb _); discriminate.
Qed.

Lemma responseTurn_returns (globals : PluginsGlobals W) packet msg
  plugin s h w seen p e s' h' w' :
  responseTurn dns globals packet msg plugin s h w
  = (seen, TurnReturn p e s' h' w') ->
  p = Some packet \/
  (p = None /\ ev_err seen = None /\ ev_action seen = PluginsActionReject).
Proof.
  unfold responseTurn.
  destruct (Eval plugin s msg h w) as [[[s1 h1] [err |]] w1].
  - intros [= _ <- _ _ _ _]. left. reflexivity.
  - destruct (PluginsAction_eqb (action s1) PluginsActionReject) eqn:Hr.
    + apply PluginsAction_eqb_eq in Hr.
      destruct (deref h1 msg); [| discriminate].
      destruct (RefusedResponseFromMessage _ _ _ _ _ _) as [synth |].
      * destruct (Question synth); [discriminate |].
        destruct (alloc h1 _); discriminate.
      * intros [= <- <- _ _ _ _]. right. auto.
    + destruct (negb _); discriminate.
Qed.

(** X20. An error never comes with a changed packet. Whenever the query
    stage or the response stage returns an error, the packet it returns
    is the packet it was given, but for one case: the packet is nil
    when the last module evaluated asked for [Reject] and the refused
    response could not be made. *)
Theorem stage_error_keeps_packet (pluginsState : PluginsState)
  (pluginsGlobals : PluginsGlobals W) (packet : bytes) (serverName : string)
  (ttl : option Z) (h : Heap) (w : W) :
  (forall p e s h' w',
     snd (ApplyQueryPlugins dns pluginsState pluginsGlobals packet
                            serverName h w)
     = Returns (p, Some e, s, h', w') ->
     p = Some packet \/
     (p = None /\
      exists pre ev,
        fst (ApplyQueryPlugins dns pluginsState pluginsGlobals packet
                               serverName h w) = pre ++ [ev] /\
        ev_err ev = None /\ ev_action ev = PluginsActionReject)) /\
  (forall p e s h' w',
     snd (ApplyResponsePlugins ext dns pluginsState pluginsGlobals packet
                               ttl h w)
     = Returns (p, Some e, s, h', w') ->
     p = Some packet \/
     (p = None /\
      exists pre ev,
        fst (ApplyResponsePlugins ext dns pluginsState pluginsGlobals packet
                                  ttl h w) = pre ++ [ev] /\
        ev_err ev = None /\ ev_action ev = PluginsActionReject)).
Proof.
  split.
  - intros p e s h' w'. unfold ApplyQueryPlugins.
    destruct (_ && _); [intros [=] |].
    destruct (dns_Unpack dns packet) as [m | err];
      [| intros [= <- _ _ _ _]; left; reflexivity].
    destruct (len (Question m) >? 1);
      [intros [= <- _ _ _ _]; left; reflexivity |].
    destruct (alloc h m) as [msg h1].
    set (body := queryTurn dns pluginsGlobals packet msg).
    set (s1 := with_questionMsg _ _).
    pose proof (stageLoop_returns packet body (queryPlugins pluginsGlobals)
                  (queryTurn_returns pluginsGlobals packet msg) s1 h1 w)
      as Hret.
    destruct (stageLoop body (queryPlugins pluginsGlobals) s1 h1 w)
      as [trace t].
    simpl in Hret.
    destruct t as [s2 h2 w2 | s2 h2 w2 | p2 e2 s2 h2 w2 |]; simpl.
    + destruct (deref h2 msg) as [m' |]; [| discriminate].
      destruct (dns_PackBuffer dns m' packet); [discriminate |].
      intros [= <- _ _ _ _]. left. reflexivity.
    + destruct (deref h2 msg) as [m' |]; [| discriminate].
      destruct (dns_PackBuffer dns m' packet); [discriminate |].
      intros [= <- _ _ _ _]. left. reflexivity.
    + intros [= <- <- <- <- <-]. eapply Hret. reflexivity.
    + discriminate.
  - intros p e s h' w'. unfold ApplyResponsePlugins.
    destruct (_ && _); [intros [=] |].
    destruct (dns_Unpack dns packet) as [m | err];
      [| intros [= <- _ _ _ _]; left; reflexivity].
    destruct (alloc h m) as [msg h1].
    set (body := responseTurn dns pluginsGlobals packet msg).
    set (s1 := with_returnCode _ _).
    pose proof (stageLoop_returns packet body
                  (responsePlugins pluginsGlobals)
                  (responseTurn_returns pluginsGlobals packet msg) s1 h1 w)
      as Hret.
    destruct (stageLoop body (responsePlugins pluginsGlobals) s1 h1 w)
      as [trace t].
    simpl in Hret.
    destruct t as [s2 h2 w2 | s2 h2 w2 | p2 e2 s2 h2 w2 |]; simpl.
    + destruct (deref h2 msg) as [m' |]; [| discriminate].
      destruct (dns_PackBuffer dns _ packet); [discriminate |].
      intros [= <- _ _ _ _]. left. reflexivity.
    + destruct (deref h2 msg) as [m' |]; [| discriminate].
      destruct (dns_PackBuffer dns _ packet); [discriminate |].
      intros [= <- _ _ _ _]. left. reflexivity.
    + intros [= <- <- <- <- <-]. eapply Hret. reflexivity.
    + discriminate.
Qed.

End StageResults.

Section RejectProperties.

Context {W : Type} (ext : Externals W) (dns : DnsExternals).

(** How a loop of a stage can end, as far as [Reject] goes. *)
Lemma stageLoop_reject (msg : addr)
  (body : Plugin W -> PluginsState -> Heap -> W -> Evaluation W * turn W)
  (plugins : list (Plugin W)) :
  (forall plugin s h w seen t,
     body plugin s h w = (seen, t) ->
     match t with
     | TurnNext s' h' w' => action s' = PluginsActionForward
     | TurnBreak s' h' w' =>
       action s' = PluginsActionReject ->
       exists a synth,
         synthResponse s' = Some a /\ deref h' a = Some synth /\
         (msg < a)%nat
     | _ => True
     end) ->
  forall s h w,
    action s = PluginsActionForward ->
    match snd (stageLoop body plugins s h w) with
    | TurnNext s' h' w' => action s' = PluginsActionForward
    | TurnBreak s' h' w' =>
      action s' = PluginsActionReject ->
      exists a synth,
        synthResponse s' = Some a /\ deref h' a = Some synth /\
        (msg < a)%nat
    | _ => True
    end.
Proof.
  intros Hturn. induction plugins as [| plugin plugins IH];
    intros s h w Hs; cbn [stageLoop]; [exact Hs |].
  pose proof (Hturn plugin s h w) as Hone.
  destruct (body plugin s h w) as [seen t].
  specialize (Hone seen t eq_refl).
  destruct t as [s1 h1 w1 | s1 h1 w1 | p1 e1 s1 h1 w1 |]; simpl; auto.
  specialize (IH s1 h1 w1 Hone).
  destruct (stageLoop body plugins s1 h1 w1) as [trace t']. exact IH.
Qed.

Lemma alloc_deref (h : Heap) (m : Msg) :
  deref (snd (alloc h m)) (fst (alloc h m)) = Some m.
Proof.
  unfold alloc, deref. simpl. rewrite nth_error_app2 by lia.
  rewrite Nat.sub_diag. reflexivity.
Qed.

Lemma queryTurn_reject (globals : PluginsGlobals W) packet msg
  plugin s h w seen t :
  queryTurn dns globals packet msg plugin s h w = (seen, t) ->
  match t with
  | TurnNext s' h' w' => action s' = PluginsActionForward
  | TurnBreak s' h' w' =>
    action s' = PluginsActionReject ->
    exists a synth,
      synthResponse s' = Some a /\ deref h' a = Some synth /\ (msg < a)%nat
  | _ => True
  end.
Proof.
  unfold queryTurn.
  destruct (Eval plugin s msg h w) as [[[s1 h1] [err |]] w1];
    [intros [= _ <-]; exact I |].
  destruct (PluginsAction_eqb (action s1) PluginsActionReject) eqn:Hr.
  - destruct (deref h1 msg) as [m |] eqn:Hm; [| intros [= _ <-]; exact I].
    destruct (RefusedResponseFromMessage _ _ _ _ _ _) as [synth |];
      [| intros [= _ <-]; exact I].
    pose proof (alloc_deref h1 synth) as Halloc.
    destruct (alloc h1 synth) as [a h2] eqn:Ha. simpl in Halloc.
    intros [= _ <-]. intros _. exists a, synth.
    split; [reflexivity |]. split; [exact Halloc |].
    unfold alloc in Ha. injection Ha as <- _.
    apply nth_error_Some. unfold deref in Hm. congruence.
  - destruct (PluginsAction_eqb (action s1) PluginsActionForward) eqn:Hf;
      cbn [negb]; intros [= _ <-].
    + apply PluginsAction_eqb_eq. exact Hf.
    + intros Habs. rewrite Habs in Hr. discriminate.
Qed.

Lemma responseTurn_reject (globals : PluginsGlobals W) packet msg
  plugin s h w seen t :
  responseTurn dns globals packet msg plugin s h w = (seen, t) ->
  match t with
  | TurnNext s' h' w' => action s' = PluginsActionForward
  | TurnBreak s' h' w' =>
    action s' = PluginsActionReject ->
    exists a synth,
      synthResponse s' = Some a /\ deref h' a = Some synth /\ (msg < a)%nat
  | _ => True
  end.
Proof.
  unfold responseTurn.
  destruct (Eval plugin s msg h w) as [[[s1 h1] [err |]] w1];
    [intros [= _ <-]; exact I |].
  destruct (PluginsAction_eqb (action s1) PluginsActionReject) eqn:Hr.
  - destruct (deref h1 msg) as [m |] eqn:Hm; [| intros [= _ <-]; exact I].
    destruct (RefusedResponseFromMessage _ _ _ _ _ _) as [synth |];
      [| intros [= _ <-]; exact I].
    destruct (Question synth); [intros [= _ <-]; exact I |].
    pose proof (alloc_deref h1 synth) as Halloc.
    destruct (alloc h1 synth) as [a h2] eqn:Ha. simpl in Halloc.
    intros [= _ <-]. intros _. exists a, synth.
    split; [reflexivity |]. split; [exact Halloc |].
    unfold alloc in Ha. injection Ha as <- _.
    apply nth_error_Some. unfold deref in Hm. congruence.
  - destruct (PluginsAction_eqb (action s1) PluginsActionForward) eqn:Hf;
      cbn [negb]; intros [= _ <-].
    + apply PluginsAction_eqb_eq. exact Hf.
    + intros Habs. rewrite Habs in Hr. discriminate.
Qed.

(** X21. A rejection always comes with its response. When the query
    stage or the response stage, with a sequence to run, returns
    without an error and leaves [state.action] at [Reject], the state
    points to a synthesized response that is in the store of messages;
    a stage never reports [Reject] without one. *)
Theorem reject_comes_with_response (pluginsState : PluginsState)
  (pluginsGlobals : PluginsGlobals W) (packet : bytes) (serverName : string)
  (ttl : option Z) (h : Heap) (w : W) :
  (loggingPlugins pluginsGlobals <> [] \/ queryPlugins pluginsGlobals <> [] ->
   forall p s h' w',
     snd (ApplyQueryPlugins dns pluginsState pluginsGlobals packet
                            serverName h w)
     = Returns (p, None, s, h', w') ->
     action s = PluginsActionReject ->
     exists a synth, synthResponse s = Some a /\ deref h' a = Some synth) /\
  (loggingPlugins pluginsGlobals <> []
   \/ responsePlugins pluginsGlobals <> [] ->
   forall p s h' w',
     snd (ApplyResponsePlugins ext dns pluginsState pluginsGlobals packet
                               ttl h w)
     = Returns (p, None, s, h', w') ->
     action s = PluginsActionReject ->
     exists a synth, synthResponse s = Some a /\ deref h' a = Some synth).
Proof.
  assert (Hempty : forall (a b : list (Plugin W)),
            b <> [] \/ a <> [] -> (len a =? 0) && (len b =? 0) = false).
  { intros a b [Hb | Ha].
    - destruct b; [congruence |]. unfold len. simpl List.length.
      rewrite andb_false_iff. right. apply Z.eqb_neq. lia.
    - destruct a; [congruence |]. unfold len. simpl List.length.
      rewrite andb_false_iff. left. apply Z.eqb_neq. lia. }
  split.
  - intros Hsome p s h' w'. unfold ApplyQueryPlugins.
    rewrite (Hempty _ _ Hsome).
    destruct (dns_Unpack dns packet) as [m | err]; [| discriminate].
    destruct (len (Question m) >? 1); [discriminate |].
    destruct (alloc h m) as [msg h1].
    set (body := queryTurn dns pluginsGlobals packet msg).
    set (s1 := with_questionMsg _ _).
    pose proof (stageLoop_reject msg body (queryPlugins pluginsGlobals)
                  (queryTurn_reject pluginsGlobals packet msg) s1 h1 w
                  eq_refl) as Hend.
    destruct (stageLoop body (queryPlugins pluginsGlobals) s1 h1 w)
      as [trace t].
    simpl in Hend.
    destruct t as [s2 h2 w2 | s2 h2 w2 | p2 e2 s2 h2 w2 |]; simpl;
      try discriminate.
    + destruct (deref h2 msg) as [m' |]; [| discriminate].
      destruct (dns_PackBuffer dns m' packet); [| discriminate].
      intros [= _ <- _ _] Hrej. rewrite Hend in Hrej. discriminate.
    + destruct (deref h2 msg) as [m' |]; [| discriminate].
      destruct (dns_PackBuffer dns m' packet); [| discriminate].
      intros [= _ <- <- _] Hrej.
      destruct (Hend Hrej) as (a & synth & Hs & Hd & _).
      exists a, synth. auto.
  - intros Hsome p s h' w'. unfold ApplyResponsePlugins.
    rewrite (Hempty _ _ Hsome).
    destruct (dns_Unpack dns packet) as [m | err].
    2: { intros [= _ _ <- _ _]. discriminate. }
    destruct (alloc h m) as [msg h1].
    set (body := responseTurn dns pluginsGlobals packet msg).
    set (s1 := with_returnCode _ _).
    pose proof (stageLoop_reject msg body (responsePlugins pluginsGlobals)
                  (responseTurn_reject pluginsGlobals packet msg) s1 h1 w
                  eq_refl) as Hend.
    destruct (stageLoop body (responsePlugins pluginsGlobals) s1 h1 w)
      as [trace t].
    simpl in Hend.
    destruct t as [s2 h2 w2 | s2 h2 w2 | p2 e2 s2 h2 w2 |]; simpl;
      try discriminate.
    + destruct (deref h2 msg) as [m' |]; [| discriminate].
      destruct (dns_PackBuffer dns _ packet); [| discriminate].
      intros [= _ <- _ _] Hrej. rewrite Hend in Hrej. discriminate.
    + destruct (deref h2 msg) as [m' |]; [| discriminate].
      destruct (dns_PackBuffer dns _ packet); [| discriminate].
      intros [= _ <- <- _] Hrej.
      destruct (Hend Hrej) as (a & synth & Hs & Hd & Hlt).
      exists a, synth. split; [exact Hs |].
      unfold deref. rewrite nth_error_update_other by lia. exact Hd.
Qed.

End RejectProperties.

(** * Properties of the initialisation of the plugins *)

Section InitProperties.

Context {W : Type} (lib : PluginLibrary W).

Lemma initLoop_length (proxy : PluginsProxy)
  (plugins : list (PluginKind * Plugin W)) :
  forall (w : W) (initialised : list (Plugin W)) (w' : W),
    initLoop lib proxy plugins w = (inl initialised, w') ->
    List.length initialised = List.length plugins.
Proof.
  induction plugins as [| [kind plugin] rest IH]; intros w initialised w'.
  - cbn [initLoop]. intros [= <- _]. reflexivity.
  - cbn [initLoop].
    destruct (Init lib kind plugin proxy w) as [[plugin' [err |]] w1];
      [discriminate |].
    destruct (initLoop lib proxy rest w1) as [[ps | err] w2] eqn:Hrest;
      [| discriminate].
    intros [= <- _]. cbn [List.length]. f_equal. eapply IH. exact Hrest.
Qed.

Lemma parseBlockedQueryResponse_sequences (blockedResponse : string)
  (pluginsGlobals : PluginsGlobals W) :
  queryPlugins (parseBlockedQueryResponse lib blockedResponse pluginsGlobals)
  = queryPlugins pluginsGlobals /\
  responsePlugins
    (parseBlockedQueryResponse lib blockedResponse pluginsGlobals)
  = responsePlugins pluginsGlobals /\
  loggingPlugins
    (parseBlockedQueryResponse lib blockedResponse pluginsGlobals)
  = loggingPlugins pluginsGlobals.
Proof.
  unfold parseBlockedQueryResponse.
  destruct (strings_HasPrefix _ "a:"); [| repeat split].
  destruct (net_ParseIP lib _); repeat split.
Qed.

Lemma parseBlockedQueryResponse_pairs (blockedResponse : string)
  (pluginsGlobals : PluginsGlobals W) :
  ipv4_has_ipv6 pluginsGlobals ->
  ipv4_has_ipv6
    (parseBlockedQueryResponse lib blockedResponse pluginsGlobals).
Proof.
  intros Hpair. unfold parseBlockedQueryResponse, ipv4_has_ipv6.
  destruct (strings_HasPrefix _ "a:"); [| exact Hpair].
  destruct (net_ParseIP lib _) as [ip4 |] eqn:H4;
    cbn [respondWithIPv4 respondWithIPv6]; [| congruence].
  intros _.
  match goal with
  | |- match ?x with _ => _ end <> None => destruct x; discriminate
  end.
Qed.

Lemma queryKinds_length (proxy : PluginsProxy) :
  (2 <= List.length (queryKinds proxy) <= 9)%nat.
Proof.
  unfold queryKinds, appendIf.
  destruct (negb (len (QueryMeta proxy) =? 0)),
           (negb (strlen (WhitelistNameFile proxy) =? 0)),
           (negb (strlen (BlockNameFile proxy) =? 0)),
           (PluginBlockIPv6_ proxy),
           (negb (strlen (CloakFile proxy) =? 0)),
           (Cache proxy),
           (negb (strlen (ForwardFile proxy) =? 0));
    cbn [app List.length]; lia.
Qed.

Lemma InitPluginsGlobals_cases (proxy : PluginsProxy)
  (pluginsGlobals : PluginsGlobals W) (w : W) :
  let '(installed, err, _) := InitPluginsGlobals lib proxy pluginsGlobals w in
  match err with
  | Some _ => installed = pluginsGlobals
  | None =>
    List.length (queryPlugins installed) = List.length (queryKinds proxy) /\
    List.length (responsePlugins installed)
    = List.length (responseKinds proxy) /\
    List.length (loggingPlugins installed)
    = List.length (loggingKinds proxy)
  end.
Proof.
  unfold InitPluginsGlobals.
  destruct (initLoop lib proxy _ w) as [[qs | err] w1] eqn:Hq;
    [| reflexivity].
  destruct (initLoop lib proxy _ w1) as [[rs | err] w2] eqn:Hr;
    [| reflexivity].
  destruct (initLoop lib proxy _ w2) as [[ls | err] w3] eqn:Hl;
    [| reflexivity].
  apply initLoop_length in Hq, Hr, Hl. rewrite length_map in Hq, Hr, Hl.
  destruct (parseBlockedQueryResponse_sequences (BlockedQueryResponse proxy)
    {| queryPlugins := qs; responsePlugins := rs; loggingPlugins := ls;
       refusedCodeInResponses := refusedCodeInResponses pluginsGlobals;
       respondWithIPv4 := respondWithIPv4 pluginsGlobals;
       respondWithIPv6 := respondWithIPv6 pluginsGlobals |})
    as (-> & -> & ->).
  cbn [queryPlugins responsePlugins loggingPlugins]. auto.
Qed.


(** X23. Which plugins are chosen. Whatever the configuration, the
    query sequence lists plugin types in the one order of the source
    without a repetition, and [PluginFirefox] and
    [PluginGetSetPayloadSize] are always in it, the first before the
    second; the response sequence is in the one order as well; and the
    cache lookup of the query sequence and the cache store of the
    response sequence are chosen together, exactly when [Cache] is
    set. *)
Theorem plugins_chosen_in_order (proxy : PluginsProxy) :
  StronglySorted (fun a b => (kindRank a < kindRank b)%nat)
                 (queryKinds proxy) /\
  StronglySorted (fun a b => (kindRank a < kindRank b)%nat)
                 (responseKinds proxy) /\
  In PluginFirefox (queryKinds proxy) /\
  In PluginGetSetPayloadSize (queryKinds proxy) /\
  (In PluginCache (queryKinds proxy) <-> Cache proxy = true) /\
  (In PluginCacheResponse (responseKinds proxy) <-> Cache proxy = true).
Proof.
  unfold queryKinds, responseKinds, appendIf.
  destruct (negb (len (QueryMeta proxy) =? 0)),
           (negb (strlen (WhitelistNameFile proxy) =? 0)),
           (negb (strlen (BlockNameFile proxy) =? 0)),
           (PluginBlockIPv6_ proxy),
           (negb (strlen (CloakFile proxy) =? 0)),
           (Cache proxy),
           (negb (strlen (ForwardFile proxy) =? 0)),
           (negb (strlen (NXLogFile proxy) =? 0)),
           (negb (strlen (BlockIPFile proxy) =? 0));
    cbn [app];
    (split; [repeat constructor |]);
    (split; [repeat constructor |]);
    (split; [cbn [In]; tauto |]);
    (split; [cbn [In]; tauto |]);
    (split; (split; [cbn [In]; intros Hin; try reflexivity;
                     repeat (destruct Hin as [Hin | Hin];
                             try discriminate Hin); try contradiction
                    | cbn [In]; intros Hc; try discriminate Hc; tauto])).
Qed.

(** X24. An address for blocked queries never comes alone. If the
    globals have an IPv6 answer whenever they have an IPv4 answer, they
    still do after [parseBlockedQueryResponse], whatever the option
    says, and after [InitPluginsGlobals], whether it fails or not. *)
Theorem blocked_response_addresses_pair (proxy : PluginsProxy)
  (blockedResponse : string) (pluginsGlobals : PluginsGlobals W) (w : W) :
  ipv4_has_ipv6 pluginsGlobals ->
  ipv4_has_ipv6
    (parseBlockedQueryResponse lib blockedResponse pluginsGlobals) /\
  ipv4_has_ipv6
    (fst (fst (InitPluginsGlobals lib proxy pluginsGlobals w))).
Proof.
  intros Hpair. split; [apply parseBlockedQueryResponse_pairs, Hpair |].
  unfold InitPluginsGlobals.
  destruct (initLoop lib proxy _ w) as [[qs | err] w1]; [| exact Hpair].
  destruct (initLoop lib proxy _ w1) as [[rs | err] w2]; [| exact Hpair].
  destruct (initLoop lib proxy _ w2) as [[ls | err] w3]; [| exact Hpair].
  cbn [fst]. apply parseBlockedQueryResponse_pairs. exact Hpair.
Qed.

End InitProperties.

Section InitComposition.

Context {W : Type} (lib : PluginLibrary W) (dns : DnsExternals).

(** X25. After the initialisation every query is parsed. Globals that
    [InitPluginsGlobals] installed without an error never let the query
    stage hand a packet through unread: a packet that does not parse is
    returned as it came with the error of the parser, and no plugin is
    evaluated. *)
Theorem initialised_query_stage_parses (proxy : PluginsProxy)
  (pluginsGlobals installed : PluginsGlobals W) (w w' : W)
  (pluginsState : PluginsState) (packet : bytes) (serverName : string)
  (h : Heap) (w0 : W) (err : error) :
  InitPluginsGlobals lib proxy pluginsGlobals w = ((installed, None), w') ->
  dns_Unpack dns packet = inr err ->
  exists queried,
    ApplyQueryPlugins dns pluginsState installed packet serverName h w0
    = ([], Returns (Some packet, Some err, queried, h, w0)).
Proof.
  intros Hinit Herr.
  pose proof (InitPluginsGlobals_cases lib proxy pluginsGlobals w) as Hlen.
  rewrite Hinit in Hlen. destruct Hlen as (Hlen & _).
  pose proof (queryKinds_length proxy) as Hbounds.
  unfold ApplyQueryPlugins.
  assert (Hq : (len (queryPlugins installed) =? 0) = false)
    by (apply Z.eqb_neq; unfold len; lia).
  rewrite Hq, andb_false_l, Herr. eexists. reflexivity.
Qed.

End InitComposition.

(** * Sequences of registrations *)

Section RegistrationSequences.

Context {MA : Type}.

Lemma registerServer_lookup (serversInfo : ServersInfo MA) (name : string)
  (stamp : ServerStamp) :
  let registered := fst (registerServer serversInfo name stamp) in
  inner registered = inner serversInfo /\
  firstNamed (registeredServers registered) name
  = Some {| Name := name; Stamp := stamp; Description := "" |} /\
  forall other, other <> name ->
    firstNamed (registeredServers registered) other
    = firstNamed (registeredServers serversInfo) other.
Proof.
  unfold registerServer.
  destruct (registerReplace _ name _) as [replaced |] eqn:Hr;
    cbn [fst snd registeredServers inner with_registeredServers].
  - destruct (registerReplace_lookup _ _ _ _ Hr) as (Hl & Ho & _).
    repeat split; auto.
  - apply registerReplace_missing in Hr.
    rewrite firstNamed_app, Hr. unfold firstNamed at 1. simpl.
    rewrite String.eqb_refl. repeat split; auto.
    intros other Hother. rewrite firstNamed_app.
    destruct (firstNamed (registeredServers serversInfo) other);
      [reflexivity |].
    unfold firstNamed. simpl.
    assert (Ho : String.eqb name other = false)
      by (apply String.eqb_neq; congruence).
    rewrite Ho. reflexivity.
Qed.

Lemma registerAll_keeps (servers : list (string * ServerStamp)) :
  forall serversInfo : ServersInfo MA,
    NoDup (map Name (registeredServers serversInfo)) ->
    NoDup (map Name (registeredServers (registerAll serversInfo servers))) /\
    inner (registerAll serversInfo servers) = inner serversInfo /\
    forall name, ~ In name (map fst servers) ->
      firstNamed (registeredServers (registerAll serversInfo servers)) name
      = firstNamed (registeredServers serversInfo) name.
Proof.
  induction servers as [| [name stamp] rest IH]; intros serversInfo Hnd.
  - repeat split; auto.
  - cbn [registerAll fold_left fst snd].
    pose proof (registerServer_keeps_names_apart serversInfo name stamp Hnd)
      as Hnd1.
    destruct (registerServer_lookup serversInfo name stamp)
      as (Hinner & _ & Hother).
    destruct (IH _ Hnd1) as (Hnd2 & Hinner2 & Hrest).
    split; [exact Hnd2 |]. split; [unfold registerAll in *; congruence |].
    intros other Hout. cbn [map In fst] in Hout.
    unfold registerAll in *. rewrite Hrest by tauto.
    apply Hother. intros ->. tauto.
Qed.

(** X26. The last registration of a name counts. After a list of
    registrations on a registry without two entries of one name, the
    registry still has no two entries of one name, the live pool is as
    it was, and a name is registered with the stamp it was given last. *)
Theorem registrations_last_wins (serversInfo : ServersInfo MA)
  (before after : list (string * ServerStamp)) (name : string)
  (stamp : ServerStamp) :
  NoDup (map Name (registeredServers serversInfo)) ->
  ~ In name (map fst after) ->
  let registered :=
    registerAll serversInfo (before ++ (name, stamp) :: after) in
  NoDup (map Name (registeredServers registered)) /\
  inner registered = inner serversInfo /\
  firstNamed (registeredServers registered) name
  = Some {| Name := name; Stamp := stamp; Description := "" |}.
Proof.
  intros Hnd Hlast. cbv zeta.
  destruct (registerAll_keeps (before ++ (name, stamp) :: after)
                              serversInfo Hnd) as (Hnd' & Hinner & _).
  split; [exact Hnd' |]. split; [exact Hinner |].
  unfold registerAll. rewrite fold_left_app. cbn [fold_left fst snd].
  fold (registerAll serversInfo before).
  set (s1 := registerAll serversInfo before).
  fold (registerAll (fst (registerServer s1 name stamp)) after).
  destruct (registerAll_keeps before serversInfo Hnd) as (Hnd1 & _).
  fold s1 in Hnd1.
  pose proof (registerServer_keeps_names_apart s1 name stamp Hnd1) as Hnd2.
  destruct (registerAll_keeps after _ Hnd2) as (_ & _ & Hrest).
  rewrite (Hrest name Hlast).
  apply registerServer_lookup.
Qed.

End RegistrationSequences.

Lemma registrations_last_wins_witness :
  let registered :=
    registerAll (@NewServersInfo VariableEWMA)
      ([("fast", sc_stamp "old.example")]
       ++ ("fast", sc_stamp "fast.example")
       :: [("slow", sc_stamp "slow.example")]) in
  NoDup (map Name (registeredServers (@NewServersInfo VariableEWMA))) /\
  ~ In "fast" (map fst [("slow", sc_stamp "slow.example")]) /\
  map Name (registeredServers registered) = ["fast"; "slow"] /\
  NoDup (map Name (registeredServers registered)) /\
  inner registered = inner (@NewServersInfo VariableEWMA) /\
  firstNamed (registeredServers registered) "fast"
  = Some {| Name := "fast"; Stamp := sc_stamp "fast.example";
            Description := "" |}.
Proof.
  assert (Hnd :
    NoDup (map Name (registeredServers (@NewServersInfo VariableEWMA))))
    by (vm_compute; constructor).
  assert (Hlast : ~ In "fast" (map fst [("slow", sc_stamp "slow.example")])).
  { cbn. intros [Heq | []]. discriminate Heq. }
  split; [exact Hnd |]. split; [exact Hlast |].
  split; [reflexivity |].
  exact (registrations_last_wins _ _ _ _ _ Hnd Hlast).
Defined.

(** * A pool whose servers all have an average *)

Section MeasuredPool.

Context {W : Type} (ext : Externals W).
Context {MA : Type} `{MovingAverage MA}.

Lemma measured_nth (pool : list (ServerInfo MA)) (i : nat) :
  measured pool -> (i < List.length pool)%nat ->
  exists server r, nth_error pool i = Some server /\ rtt server = Some r.
Proof.
  intros Hm Hi.
  destruct (nth_error pool i) as [server |] eqn:Hnth.
  - unfold measured in Hm. rewrite Forall_forall in Hm.
    specialize (Hm server (nth_error_In _ _ Hnth)).
    destruct (rtt server) as [r |] eqn:Hr; [| congruence].
    exists server, r. split; [reflexivity | exact Hr].
  - apply nth_error_None in Hnth. lia.
Qed.

Lemma update_measured (pool : list (ServerInfo MA)) (i : nat)
  (server : ServerInfo MA) :
  measured pool -> rtt server <> None -> measured (update pool i server).
Proof.
  unfold measured. intros Hm Hs. revert i.
  induction Hm as [| z l Hz Hl IH]; intros [| i]; simpl;
    constructor; auto.
Qed.

Lemma swap_measured (pool : list (ServerInfo MA)) (i j : nat) :
  measured pool -> measured (swap pool i j).
Proof.
  unfold measured. intros Hm.
  eapply Permutation_Forall; [apply swap_perm | exact Hm].
Qed.

Lemma swap_length {A : Type} (l : list A) (i j : nat) :
  List.length (swap l i j) = List.length l.
Proof.
  unfold swap. destruct (nth_error l i); [| reflexivity].
  destruct (nth_error l j); [| reflexivity].
  rewrite !update_length. reflexivity.
Qed.

Lemma replaceLive_measured (pool : list (ServerInfo MA)) (name : string)
  (newServer : ServerInfo MA) :
  measured pool -> rtt newServer <> None ->
  measured (fst (replaceLive pool name newServer)).
Proof.
  unfold measured. intros Hm Hnew.
  induction Hm as [| z l Hz Hl IH]; cbn [replaceLive fst];
    [constructor |].
  destruct (String.eqb (si_Name z) name).
  - constructor; assumption.
  - destruct (replaceLive l name newServer) as [rest' isNew].
    constructor; assumption.
Qed.

Lemma refreshServer_measured (proxy : Proxy) (serversInfo : ServersInfo MA)
  (name : string) (stamp : ServerStamp) (serversInfo' : ServersInfo MA)
  (err : option error) (w w' : W) :
  measured (inner serversInfo) ->
  refreshServer ext proxy serversInfo name stamp w
  = Returns ((serversInfo', err), w') ->
  measured (inner serversInfo').
Proof.
  intros Hm. unfold refreshServer. intros Hrun.
  apply bind_Returns in Hrun.
  destruct Hrun as ([info | e] & w1 & _ & Hrun).
  2: { injection Hrun as <- _ _. exact Hm. }
  destruct (negb (String.eqb name (si_Name info))); [discriminate |].
  set (new := with_rtt info _) in Hrun.
  assert (Hnew : rtt new <> None) by discriminate.
  pose proof (replaceLive_measured (inner serversInfo) name new Hm Hnew)
    as Hreplaced.
  destruct (replaceLive (inner serversInfo) name new) as [replaced [|]];
    injection Hrun as <- _ _; cbn [inner with_inner].
  - unfold measured. apply Forall_app. split; [exact Hm |].
    constructor; [exact Hnew | constructor].
  - exact Hreplaced.
Qed.

Lemma estimatorChoose_returns (pool : list (ServerInfo MA)) (candidate : nat)
  (w : W) :
  measured pool -> (candidate < List.length pool)%nat ->
  exists pool' partialSort w',
    estimatorChoose ext pool candidate w
    = Returns ((pool', partialSort), w') /\
    measured pool' /\ List.length pool' = List.length pool.
Proof.
  intros Hm Hc.
  destruct (measured_nth pool candidate Hm Hc) as (c & rc & Hnc & Hrc).
  destruct (measured_nth pool 0 Hm) as (best & rb & Hnb & Hrb); [lia |].
  unfold estimatorChoose, index, rttValue, bind, ret.
  rewrite Hnc, Hrc, Hnb, Hrb.
  set (seeded := if Qlt_bool (ewma_Value rb) 0 then _ else _).
  assert (Hseeded : exists vb pool1,
            seeded w = Returns ((vb, pool1), w) /\
            measured pool1 /\ List.length pool1 = List.length pool).
  { subst seeded. destruct (Qlt_bool (ewma_Value rb) 0).
    - unfold rttSet, ret. rewrite Hrb.
      eexists. eexists. split; [reflexivity |].
      split; [| apply update_length].
      apply update_measured; [exact Hm | discriminate].
    - eexists. eexists. split; [reflexivity |]. split; [exact Hm | reflexivity]. }
  destruct Hseeded as (vb & pool1 & -> & Hm1 & Hlen1).
  destruct (Qlt_bool (ewma_Value rc) vb).
  { eexists. eexists. eexists. split; [reflexivity |].
    split; [apply swap_measured; exact Hm1 |].
    rewrite swap_length. exact Hlen1. }
  destruct (Qlt_bool 0 (ewma_Value rc)
            && Qle_bool (vb * 4) (ewma_Value rc)).
  2: { eexists. eexists. eexists. split; [reflexivity |].
       split; [exact Hm1 | exact Hlen1]. }
  destruct (measured_nth pool1 candidate Hm1) as (c1 & rc1 & Hnc1 & Hrc1);
    [lia |].
  rewrite Hnc1. unfold time_Since.
  destruct (time_Now ext w) as [now w1].
  destruct (time_Sub now (lastActionTS c1) >? 1 * Minute).
  - unfold rttAdd, ret. rewrite Hrc1.
    eexists. eexists. eexists. split; [reflexivity |].
    split; [| rewrite update_length; exact Hlen1].
    apply update_measured; [exact Hm1 | discriminate].
  - eexists. eexists. eexists. split; [reflexivity |].
    split; [exact Hm1 | exact Hlen1].
Qed.

Lemma partialSortPass_returns (steps : nat) :
  forall (i : nat) (pool : list (ServerInfo MA)) (w : W),
    measured pool -> (1 <= i)%nat -> (i + steps <= List.length pool)%nat ->
    exists pool',
      partialSortPass steps i pool w = Returns (pool', w) /\
      measured pool' /\ List.length pool' = List.length pool.
Proof.
  induction steps as [| steps IH]; intros i pool w Hm Hi Hlen.
  - exists pool. split; [reflexivity |]. split; [exact Hm | reflexivity].
  - cbn [partialSortPass].
    destruct (measured_nth pool (i - 1) Hm) as (a & ra & Hna & Hra); [lia |].
    destruct (measured_nth pool i Hm) as (b & rb & Hnb & Hrb); [lia |].
    unfold index, rttValue, bind, ret. rewrite Hna, Hra, Hnb, Hrb.
    set (pool1 := if Qlt_bool _ _ then _ else _).
    assert (Hpool1 : measured pool1 /\ List.length pool1 = List.length pool).
    { subst pool1. destruct (Qlt_bool _ _).
      - split; [apply swap_measured; exact Hm | apply swap_length].
      - split; [exact Hm | reflexivity]. }
    destruct Hpool1 as (Hm1 & Hlen1).
    destruct (IH (S i) pool1 w Hm1) as (pool' & Hrun & Hm' & Hlen');
      [lia | lia |].
    exists pool'. split; [exact Hrun |]. split; [exact Hm' | congruence].
Qed.

Lemma estimatorUpdate_returns (serversInfo : ServersInfo MA) (w : W) :
  measured (inner serversInfo) -> inner serversInfo <> [] ->
  exists serversInfo' w',
    estimatorUpdate ext serversInfo w = Returns (serversInfo', w') /\
    measured (inner serversInfo') /\
    List.length (inner serversInfo') = List.length (inner serversInfo) /\
    LBStrategy_ serversInfo' = LBStrategy_ serversInfo.
Proof.
  intros Hm Hne.
  assert (Hpos : (0 < List.length (inner serversInfo))%nat)
    by (destruct (inner serversInfo); [congruence | simpl; lia]).
  unfold estimatorUpdate.
  destruct (rand_Intn_below ext _ w Hpos) as (candidate & w1 & Hdraw & Hlt).
  rewrite (bind_eq _ _ _ _ _ Hdraw).
  destruct (Nat.eqb candidate 0).
  { exists serversInfo, w1. repeat split; auto. }
  destruct (estimatorChoose_returns (inner serversInfo) candidate w1 Hm Hlt)
    as (pool & partialSort & w2 & Hchoose & Hm1 & Hlen1).
  rewrite (bind_eq _ _ _ _ _ Hchoose). destruct partialSort.
  - destruct (partialSortPass_returns (List.length pool - 1) 1 pool w2 Hm1)
      as (sorted & Hpass & Hm2 & Hlen2); [lia | lia |].
    rewrite (bind_eq _ _ _ _ _ Hpass).
    eexists. eexists. split; [reflexivity |]. cbn.
    repeat split; [exact Hm2 | congruence].
  - eexists. eexists. split; [reflexivity |]. cbn.
    repeat split; [exact Hm1 | exact Hlen1].
Qed.

(** X27. A pool of measured servers is always served. With a pool that
    is not empty and whose servers all have their average, [getOne]
    returns a server, whatever the strategy, the estimator switch, the
    draws and the clock: no index is out of range and no average that
    is read is nil. The server is in the pool that [getOne] leaves and
    has its average, and that pool has as many servers as before, all
    with their average. *)
Theorem getOne_serves_measured_pool (serversInfo : ServersInfo MA) (w : W) :
  inner serversInfo <> [] -> measured (inner serversInfo) ->
  exists serverInfo serversInfo' w',
    getOne ext serversInfo w
    = Returns ((Some serverInfo, serversInfo'), w') /\
    In serverInfo (inner serversInfo') /\ rtt serverInfo <> None /\
    measured (inner serversInfo') /\
    List.length (inner serversInfo') = List.length (inner serversInfo).
Proof.
  intros Hne Hm.
  assert (Hpos : (0 < List.length (inner serversInfo))%nat)
    by (destruct (inner serversInfo); [congruence | simpl; lia]).
  unfold getOne.
  destruct (List.length (inner serversInfo) <=? 0)%nat eqn:Hz;
    [apply Nat.leb_le in Hz; lia |].
  assert (Hest : exists serversInfo1 w1,
    (if LBEstimator serversInfo then estimatorUpdate ext serversInfo
     else ret serversInfo) w = Returns (serversInfo1, w1) /\
    measured (inner serversInfo1) /\
    List.length (inner serversInfo1) = List.length (inner serversInfo) /\
    LBStrategy_ serversInfo1 = LBStrategy_ serversInfo).
  { destruct (LBEstimator serversInfo).
    - apply estimatorUpdate_returns; assumption.
    - exists serversInfo, w. repeat split; auto. }
  destruct Hest as (serversInfo1 & w1 & Hrun1 & Hm1 & Hlen1 & Hstrategy).
  rewrite (bind_eq _ _ _ _ _ Hrun1).
  destruct (getOneCandidate_below ext (LBStrategy_ serversInfo1)
              (List.length (inner serversInfo)) w1 Hpos)
    as (i & w2 & Hdraw & Hi).
  rewrite (bind_eq _ _ _ _ _ Hdraw).
  pose proof (strategyBound_range (LBStrategy_ serversInfo1) _ Hpos) as Hb.
  destruct (measured_nth (inner serversInfo1) i Hm1)
    as (serverInfo & r & Hnth & Hr); [lia |].
  unfold index, bind, ret. rewrite Hnth.
  exists serverInfo, serversInfo1, w2. split; [reflexivity |].
  split; [eapply nth_error_In; exact Hnth |].
  split; [congruence |]. split; [exact Hm1 | exact Hlen1].
Qed.

(** X28. A refresh leaves no server without an average. If every live
    server has its average before a [refresh], every live server has it
    after the [refresh]: a server that is fetched gets a new average,
    set to its initial round-trip time, before it enters the pool. *)
Theorem refresh_keeps_pool_measured (proxy : Proxy)
  (serversInfo serversInfo' : ServersInfo MA) (liveServers : Z)
  (err : option error) (w w' : W) :
  measured (inner serversInfo) ->
  refresh ext proxy serversInfo w
  = Returns ((serversInfo', liveServers, err), w') ->
  measured (inner serversInfo').
Proof.
  apply (refresh_invariant ext (fun s => measured (inner s))).
  - intros s name stamp s' e w0 w1 Hm Hrun.
    eapply refreshServer_measured; eassumption.
  - intros s pool Hm Hperm. cbn. unfold measured.
    eapply Permutation_Forall; eassumption.
Qed.


End MeasuredPool.

Lemma getOne_serves_measured_pool_witness :
  inner (sc_served true) <> [] /\ measured (inner (sc_served true)) /\
  exists serverInfo serversInfo' w',
    getOne sc_ext (sc_served true) 1%nat
    = Returns ((Some serverInfo, serversInfo'), w') /\
    In serverInfo (inner serversInfo') /\ rtt serverInfo <> None /\
    measured (inner serversInfo') /\
    List.length (inner serversInfo') = List.length (inner (sc_served true)).
Proof.
  assert (Hne : inner (sc_served true) <> []) by (vm_compute; discriminate).
  assert (Hm : measured (inner (sc_served true)))
    by (repeat constructor; discriminate).
  split; [exact Hne |]. split; [exact Hm |].
  exact (getOne_serves_measured_pool sc_ext (sc_served true) 1%nat Hne Hm).
Defined.

Lemma refresh_keeps_pool_measured_witness :
  let serversInfo :=
    with_registeredServers sc_pool_down_live (registeredServers sc_pool) in
  exists serversInfo' : ServersInfo VariableEWMA,
    measured (inner serversInfo) /\
    refresh sc_ext sc_proxy serversInfo 0%nat
    = Returns ((serversInfo', 3, None), 8%nat) /\
    List.length (inner serversInfo') = 4%nat /\
    measured (inner serversInfo').
Proof.
  intros serversInfo.
  assert (Hm : measured (inner serversInfo))
    by (repeat constructor; discriminate).
  assert (Hrun : exists serversInfo' : ServersInfo VariableEWMA,
    refresh sc_ext sc_proxy serversInfo 0%nat
    = Returns ((serversInfo', 3, None), 8%nat) /\
    List.length (inner serversInfo') = 4%nat)
    by (eexists; split; vm_compute; reflexivity).
  destruct Hrun as (serversInfo' & Hrun & Hlen). exists serversInfo'.
  split; [exact Hm |]. split; [exact Hrun |]. split; [exact Hlen |].
  exact (refresh_keeps_pool_measured sc_ext sc_proxy serversInfo _ _ _ _ _
           Hm Hrun).
Defined.

(** * The further properties in the small world *)

Lemma fetchServerInfo_result_witness :
  exists (info : ServerInfo VariableEWMA) (w' : sc_W),
    fetchServerInfo sc_ext sc_proxy "fast" (sc_stamp "fast.example") true
                    0%nat = Returns (inl info, w') /\
    si_Name info = "fast" /\ si_Proto info = StampProtoTypeDoH /\
    si_Timeout info = Timeout sc_proxy /\
    rtt info = None /\ lastActionTS info = 0 /\
    HostName info = "fast.example" /\
    UDPAddr_ info = None /\ TCPAddr_ info = None.
Proof.
  assert (Hrun : exists (info : ServerInfo VariableEWMA) (w' : sc_W),
    fetchServerInfo sc_ext sc_proxy "fast" (sc_stamp "fast.example") true
                    0%nat = Returns (inl info, w'))
    by (eexists; eexists; vm_compute; reflexivity).
  destruct Hrun as (info & w' & Hrun). exists info, w'.
  split; [exact Hrun |].
  destruct (fetchServerInfo_result sc_ext _ _ _ _ _ _ _ Hrun)
    as (Hn & Hp & Ht & Hr & Hl & Hcases).
  repeat (split; [assumption |]).
  destruct Hcases as [(_ & Hh & _ & Hu & Htcp) | (Habs & _)];
    [auto | discriminate Habs].
Defined.

Lemma refresh_keeps_live_names_apart_witness :
  exists serversInfo' : ServersInfo VariableEWMA,
    NoDup (map si_Name (inner sc_pool)) /\
    refresh sc_ext sc_proxy sc_pool 0%nat
    = Returns ((serversInfo', 3, None), 8%nat) /\
    NoDup (map si_Name (inner serversInfo')).
Proof.
  assert (Hnd : NoDup (map si_Name (inner sc_pool)))
    by (vm_compute; constructor).
  assert (Hrun : exists serversInfo' : ServersInfo VariableEWMA,
    refresh sc_ext sc_proxy sc_pool 0%nat
    = Returns ((serversInfo', 3, None), 8%nat))
    by (eexists; vm_compute; reflexivity).
  destruct Hrun as (serversInfo' & Hrun). exists serversInfo'.
  split; [exact Hnd |]. split; [exact Hrun |].
  exact (refresh_keeps_live_names_apart sc_ext _ _ _ _ _ _ _ Hnd Hrun).
Defined.

Lemma live_names_stay_registered_witness :
  incl (map si_Name (inner sc_pool_down_live))
       (map Name (registeredServers sc_pool_down_live)) /\
  (let registered :=
     fst (registerServer sc_pool_down_live "fast"
                         (sc_stamp "fast.example")) in
   incl (map si_Name (inner registered))
        (map Name (registeredServers registered))) /\
  exists serversInfo' : ServersInfo VariableEWMA,
    refresh sc_ext sc_proxy sc_pool_down_live 0%nat
    = Returns ((serversInfo', 0,
                Some (ErrExternal "context deadline exceeded")), 2%nat) /\
    incl (map si_Name (inner serversInfo'))
         (map Name (registeredServers serversInfo')).
Proof.
  assert (Hincl : incl (map si_Name (inner sc_pool_down_live))
                       (map Name (registeredServers sc_pool_down_live)))
    by (vm_compute; intros a Ha; exact Ha).
  destruct (live_names_stay_registered sc_ext sc_proxy sc_pool_down_live
                                       Hincl) as (Hreg & Hrefresh).
  split; [exact Hincl |]. split; [apply Hreg |].
  assert (Hrun : exists serversInfo' : ServersInfo VariableEWMA,
    refresh sc_ext sc_proxy sc_pool_down_live 0%nat
    = Returns ((serversInfo', 0,
                Some (ErrExternal "context deadline exceeded")), 2%nat))
    by (eexists; vm_compute; reflexivity).
  destruct Hrun as (serversInfo' & Hrun). exists serversInfo'.
  split; [exact Hrun |]. exact (Hrefresh _ _ _ _ _ Hrun).
Defined.

Lemma refresh_only_adds_witness :
  exists serversInfo' : ServersInfo VariableEWMA,
    refresh sc_ext sc_proxy sc_pool 0%nat
    = Returns ((serversInfo', 3, None), 8%nat) /\
    incl (map si_Name (inner sc_pool)) (map si_Name (inner serversInfo')) /\
    (List.length (inner sc_pool) <= List.length (inner serversInfo'))%nat /\
    (exists added,
       registeredServers serversInfo' = registeredServers sc_pool ++ added /\
       incl (map Name added) (map si_Name (inner serversInfo'))) /\
    LBStrategy_ serversInfo' = LBStrategy_ sc_pool /\
    LBEstimator serversInfo' = LBEstimator sc_pool.
Proof.
  assert (Hrun : exists serversInfo' : ServersInfo VariableEWMA,
    refresh sc_ext sc_proxy sc_pool 0%nat
    = Returns ((serversInfo', 3, None), 8%nat))
    by (eexists; vm_compute; reflexivity).
  destruct Hrun as (serversInfo' & Hrun). exists serversInfo'.
  split; [exact Hrun |].
  exact (refresh_only_adds sc_ext _ _ _ _ _ _ _ Hrun).
Defined.

Lemma refresh_count_bounds_witness :
  exists serversInfo' : ServersInfo VariableEWMA,
    refresh sc_ext sc_proxy sc_pool 0%nat
    = Returns ((serversInfo', 3, None), 8%nat) /\
    0 <= 3 <= len (registeredServers sc_pool) /\
    (registeredServers sc_pool <> [] -> 3 = 0 -> @None error <> None) /\
    (3 = len (registeredServers sc_pool) -> @None error = None).
Proof.
  assert (Hrun : exists serversInfo' : ServersInfo VariableEWMA,
    refresh sc_ext sc_proxy sc_pool 0%nat
    = Returns ((serversInfo', 3, None), 8%nat))
    by (eexists; vm_compute; reflexivity).
  destruct Hrun as (serversInfo' & Hrun). exists serversInfo'.
  split; [exact Hrun |].
  exact (refresh_count_bounds sc_ext _ _ _ _ _ _ _ Hrun).
Defined.

Lemma estimatorUpdate_keeps_servers_witness :
  exists serversInfo' : ServersInfo VariableEWMA,
    estimatorUpdate sc_ext (sc_served true) 1%nat
    = Returns (serversInfo', 1%nat) /\
    Permutation (map sansRtt (inner (sc_served true)))
                (map sansRtt (inner serversInfo')) /\
    List.length (inner serversInfo') = 2%nat /\
    registeredServers serversInfo' = registeredServers (sc_served true) /\
    LBStrategy_ serversInfo' = LBStrategyP2 /\
    LBEstimator serversInfo' = true.
Proof.
  assert (Hrun : exists serversInfo' : ServersInfo VariableEWMA,
    estimatorUpdate sc_ext (sc_served true) 1%nat
    = Returns (serversInfo', 1%nat))
    by (eexists; vm_compute; reflexivity).
  destruct Hrun as (serversInfo' & Hrun). exists serversInfo'.
  split; [exact Hrun |].
  exact (estimatorUpdate_keeps_servers sc_ext _ _ _ _ Hrun).
Defined.

Lemma estimatorChoose_promotes_faster_witness :
  let rb := ewma_Set (ewma_NewMovingAverage (MA := VariableEWMA)
                                            RTTEwmaDecay) 200%Q in
  let rc := ewma_Set (ewma_NewMovingAverage (MA := VariableEWMA)
                                            RTTEwmaDecay) 10%Q in
  let slow := sc_live (MA := VariableEWMA) "slow" 200%Q 0 in
  let quick := sc_live (MA := VariableEWMA) "quick" 10%Q 0 in
  rtt slow = Some rb /\ rtt quick = Some rc /\
  (0 <= ewma_Value rb)%Q /\ (ewma_Value rc < ewma_Value rb)%Q /\
  exists pool',
    estimatorChoose sc_ext [slow; quick] 1 0%nat
    = Returns ((pool', true), 0%nat) /\
    nth_error pool' 0 = Some quick /\
    nth_error pool' 1 = Some slow.
Proof.
  intros rb rc slow quick.
  assert (Hb0 : (0 <= ewma_Value rb)%Q) by (vm_compute; discriminate).
  assert (Hlt : (ewma_Value rc < ewma_Value rb)%Q)
    by (vm_compute; reflexivity).
  split; [reflexivity |]. split; [reflexivity |].
  split; [exact Hb0 |]. split; [exact Hlt |].
  destruct (estimatorChoose_promotes_faster sc_ext [slow; quick] 1
              quick slow rc rb 0%nat eq_refl eq_refl eq_refl eq_refl
              Hb0 Hlt)
    as (pool' & Hrun & H0 & Hc & _).
  exists pool'. auto.
Defined.

Lemma estimatorChoose_seeds_negative_best_witness :
  let rb := ewma_Set (ewma_NewMovingAverage (MA := VariableEWMA)
                                            RTTEwmaDecay) (-1)%Q in
  let rc := ewma_Set (ewma_NewMovingAverage (MA := VariableEWMA)
                                            RTTEwmaDecay) 200%Q in
  let unseeded := sc_live (MA := VariableEWMA) "unseeded" (-1)%Q 0 in
  let slow := sc_live (MA := VariableEWMA) "slow" 200%Q 0 in
  rtt unseeded = Some rb /\ rtt slow = Some rc /\
  (ewma_Value rb < 0)%Q /\
  estimatorChoose sc_ext [unseeded; slow] 1 0%nat
  = Returns
      (([with_rtt unseeded (Some (ewma_Set rb (ewma_Value rc))); slow],
        false), 0%nat).
Proof.
  intros rb rc unseeded slow.
  assert (Hneg : (ewma_Value rb < 0)%Q) by (vm_compute; reflexivity).
  split; [reflexivity |]. split; [reflexivity |]. split; [exact Hneg |].
  exact (proj1 (estimatorChoose_seeds_negative_best sc_ext [unseeded; slow] 1
                  slow unseeded rc rb 0%nat eq_refl eq_refl eq_refl eq_refl
                  Hneg)).
Defined.

Lemma getOne_serves_from_pool_witness :
  exists (serverInfo : ServerInfo VariableEWMA) serversInfo',
    getOne sc_ext (sc_served true) 1%nat
    = Returns ((Some serverInfo, serversInfo'), 1%nat) /\
    inner (sc_served true) <> [] /\
    exists i,
      nth_error (inner serversInfo') i = Some serverInfo /\
      (i < strategyBound LBStrategyP2 (List.length (inner serversInfo')))%nat /\
      (i < List.length (inner serversInfo'))%nat.
Proof.
  assert (Hrun : exists (serverInfo : ServerInfo VariableEWMA) serversInfo',
    getOne sc_ext (sc_served true) 1%nat
    = Returns ((Some serverInfo, serversInfo'), 1%nat))
    by (eexists; eexists; vm_compute; reflexivity).
  destruct Hrun as (serverInfo & serversInfo' & Hrun).
  exists serverInfo, serversInfo'. split; [exact Hrun |].
  exact (getOne_serves_from_pool sc_ext _ _ _ _ _ Hrun).
Defined.


Lemma noticeSuccess_measures_witness :
  let serverInfo := sc_live (MA := VariableEWMA) "best" 10%Q 0 in
  time_Now sc_ticking_ext 0%nat = (1000 * Second, 1%nat) /\
  time_Now sc_ticking_ext 1%nat = (1000 * Second + 15 * 1000000, 2%nat) /\
  1000000 <= time_Sub (1000 * Second + 15 * 1000000) (1000 * Second)
  < Timeout sc_proxy /\
  bind (noticeBegin sc_ticking_ext serverInfo sc_proxy)
       (fun begun => noticeSuccess sc_ticking_ext begun sc_proxy) 0%nat
  = Returns
      (with_rtt (with_lastActionTS serverInfo (1000 * Second))
         (Some (ewma_Add (ewma_Set (ewma_NewMovingAverage RTTEwmaDecay)
                                   10%Q) 15%Q)), 2%nat).
Proof.
  intros serverInfo.
  assert (Hrange :
    1000000 <= time_Sub (1000 * Second + 15 * 1000000) (1000 * Second)
    < Timeout sc_proxy)
    by (vm_compute; split; [discriminate | reflexivity]).
  split; [reflexivity |]. split; [reflexivity |]. split; [exact Hrange |].
  exact (proj1 (noticeSuccess_measures sc_ticking_ext serverInfo sc_proxy
                  (ewma_Set (ewma_NewMovingAverage RTTEwmaDecay) 10%Q)
                  (1000 * Second) (1000 * Second + 15 * 1000000)
                  0%nat 1%nat 2%nat eq_refl eq_refl eq_refl) Hrange).
Defined.

Lemma dohAccept_verdict_witness :
  6 <= MinDNSPacketSize sc_ext /\
  exists verdict : ServerInfo VariableEWMA + error,
    dohAccept sc_ext sc_proxy "short" (sc_stamp "short.example")
      {| Scheme := "https"; Host := "short.example";
         URLPath := "/dns-query" |}
      (sc_response (firstn 11 sc_reply)) (20 * 1000000) false 0%nat
    = Returns (verdict, 0%nat) /\
    verdict = inr ErrUnexpectedResponse.
Proof.
  assert (Hmin : 6 <= MinDNSPacketSize sc_ext) by (vm_compute; discriminate).
  split; [exact Hmin |].
  destruct (dohAccept_verdict (MA := VariableEWMA) sc_ext sc_proxy "short"
              (sc_stamp "short.example")
              {| Scheme := "https"; Host := "short.example";
                 URLPath := "/dns-query" |}
              (sc_response (firstn 11 sc_reply)) (20 * 1000000) false 0%nat
              Hmin) as (verdict & Hrun & _ & Htls).
  exists verdict. split; [exact Hrun |].
  destruct (Htls _ eq_refl) as (_ & Hcomplete).
  destruct (Hcomplete eq_refl) as (_ & Hpinned).
  assert (Hpins : pinned sc_ext
    {| HandshakeComplete := true; NegotiatedProtocol := "h2";
       PeerCertificates := [sc_certificate] |} (sc_stamp "short.example"))
    by (left; reflexivity).
  specialize (Hpinned Hpins).
  change (ReadAllLimit (RespBody (sc_response (firstn 11 sc_reply)))
                       (MaxHTTPBodyLength sc_ext))
    with (@inl bytes error (firstn 11 sc_reply)) in Hpinned.
  apply (proj2 Hpinned). intros ((Hlow & _) & _).
  vm_compute in Hlow. apply Hlow. reflexivity.
Defined.

Lemma dohAccept_refuses_malformed_pins_witness :
  Hashes sc_short_pin_stamp <> [] /\
  Forall (fun hash => len hash <> 32) (Hashes sc_short_pin_stamp) /\
  dohAccept (MA := VariableEWMA) sc_ext sc_proxy "fast" sc_short_pin_stamp
    {| Scheme := "https"; Host := "fast.example"; URLPath := "/dns-query" |}
    (sc_response sc_reply) (10 * 1000000) false 0%nat
  = Returns (inr (ErrCertificateHashNotFound (repeat x00 32) "fast"), 0%nat).
Proof.
  assert (Hne : Hashes sc_short_pin_stamp <> [])
    by (vm_compute; discriminate).
  assert (Hbad : Forall (fun hash => len hash <> 32)
                        (Hashes sc_short_pin_stamp))
    by (repeat constructor; vm_compute; discriminate).
  split; [exact Hne |]. split; [exact Hbad |].
  exact (dohAccept_refuses_malformed_pins sc_ext sc_proxy "fast"
           sc_short_pin_stamp _ (sc_response sc_reply) _ false _ 0%nat
           Hne Hbad eq_refl eq_refl).
Defined.

Lemma stages_run_until_cause_witness :
  let pluginsGlobals := sc_globals [sc_pass; sc_reject; sc_pass] [sc_pass] [] in
  (exists m, dns_Unpack sc_dns sc_packet = inl m /\ len (Question m) <= 1) /\
  map ev_plugin
      (fst (ApplyQueryPlugins sc_dns sc_state pluginsGlobals sc_packet
                              "fast" [] 0%nat)) = [sc_pass; sc_reject] /\
  ran_until_cause (queryPlugins pluginsGlobals)
    (fst (ApplyQueryPlugins sc_dns sc_state pluginsGlobals sc_packet
                            "fast" [] 0%nat)) /\
  ran_until_cause (responsePlugins pluginsGlobals)
    (fst (ApplyResponsePlugins sc_ext sc_dns sc_state pluginsGlobals
                               sc_packet None [] 0%nat)).
Proof.
  intros pluginsGlobals.
  assert (Hparse : exists m,
    dns_Unpack sc_dns sc_packet = inl m /\ len (Question m) <= 1)
    by (eexists; split; [vm_compute; reflexivity | vm_compute; discriminate]).
  split; [exact Hparse |]. split; [reflexivity |].
  destruct Hparse as (m & Hm & Hone).
  destruct (stages_run_until_cause sc_ext sc_dns sc_state pluginsGlobals
              sc_packet "fast" None m [] 0%nat Hm) as (Hquery & Hresponse).
  split.
  - apply Hquery; [right; discriminate | exact Hone].
  - apply Hresponse. right. discriminate.
Defined.

Lemma logging_after_query_stage_witness :
  let pluginsState :=
    NewPluginsState sc_lib (sc_plugins_proxy "") "udp" None 0 in
  let pluginsGlobals := sc_globals [sc_pass] [] [sc_pass] in
  loggingPlugins pluginsGlobals <> [] /\
  questionMsg pluginsState = None /\
  dns_Unpack sc_dns sc_truncated_packet
  = inr (ErrExternal "dns: overflow unpacking uint16") /\
  exists queried logged,
    ApplyQueryPlugins sc_dns pluginsState pluginsGlobals sc_truncated_packet
                      "fast" [] 0%nat
    = ([], Returns (Some sc_truncated_packet,
                    Some (ErrExternal "dns: overflow unpacking uint16"),
                    queried, [], 0%nat)) /\
    ApplyLoggingPlugins sc_ext queried pluginsGlobals [] 0%nat
    = ([], Returns (Some ErrUnexpectedNumberOfQuestions, logged, [],
                    snd (time_Now sc_ext 0%nat))).
Proof.
  intros pluginsState pluginsGlobals.
  assert (Hne : loggingPlugins pluginsGlobals <> [])
    by (vm_compute; discriminate).
  split; [exact Hne |]. split; [reflexivity |]. split; [reflexivity |].
  destruct (logging_after_query_stage sc_ext sc_dns pluginsState
              pluginsGlobals sc_truncated_packet "fast" [] 0%nat Hne eq_refl)
    as (Hbad & _).
  apply Hbad. left. reflexivity.
Defined.

Lemma blocked_response_addresses_pair_witness :
  let pluginsGlobals := sc_globals [] [] [] in
  let parsed :=
    parseBlockedQueryResponse sc_lib "a:192.0.2.1,aaaa:[2001:db8::1]"
                              pluginsGlobals in
  ipv4_has_ipv6 pluginsGlobals /\
  respondWithIPv4 parsed = Some [xc0; x00; x02; x01] /\
  respondWithIPv6 (parseBlockedQueryResponse sc_lib "a:192.0.2.1"
                                             pluginsGlobals)
  = Some [xc0; x00; x02; x01] /\
  ipv4_has_ipv6 parsed /\
  ipv4_has_ipv6
    (fst (fst (InitPluginsGlobals sc_lib (sc_plugins_proxy "")
                                  pluginsGlobals 0%nat))).
Proof.
  intros pluginsGlobals parsed.
  assert (Hpair : ipv4_has_ipv6 pluginsGlobals)
    by (vm_compute; intros Habs; exact Habs).
  split; [exact Hpair |]. split; [reflexivity |]. split; [reflexivity |].
  exact (blocked_response_addresses_pair sc_lib (sc_plugins_proxy "")
           "a:192.0.2.1,aaaa:[2001:db8::1]" pluginsGlobals 0%nat Hpair).
Defined.

Lemma initialised_query_stage_parses_witness :
  exists installed,
    InitPluginsGlobals sc_lib (sc_plugins_proxy "") (sc_globals [] [] [])
                       0%nat = ((installed, None), 6%nat) /\
    dns_Unpack sc_dns sc_truncated_packet
    = inr (ErrExternal "dns: overflow unpacking uint16") /\
    exists queried,
      ApplyQueryPlugins sc_dns sc_state installed sc_truncated_packet
                        "fast" [] 0%nat
      = ([], Returns (Some sc_truncated_packet,
                      Some (ErrExternal "dns: overflow unpacking uint16"),
                      queried, [], 0%nat)).
Proof.
  assert (Hinit : exists installed,
    InitPluginsGlobals sc_lib (sc_plugins_proxy "") (sc_globals [] [] [])
                       0%nat = ((installed, None), 6%nat))
    by (eexists; vm_compute; reflexivity).
  destruct Hinit as (installed & Hinit). exists installed.
  split; [exact Hinit |]. split; [reflexivity |].
  exact (initialised_query_stage_parses sc_lib sc_dns _ _ _ _ _ sc_state
           sc_truncated_packet "fast" [] 0%nat _ Hinit eq_refl).
Defined.
